(** * YushuRobotEDU frontend: streaming speech synthesis, playback and polling

    A shallow embedding of the parts of the React frontend that ingest a
    streamed synthesis, play it back and sequence narration segments:

    - [Base64]      the platform function [atob] used by the components;
    - [TTS]         the [TextToSpeech] page (pages/TTS): [handleStreamEvent],
                    [updateResult], [playStreamingAudio],
                    [updateStreamingAudio], [playAudio];
    - [Stream]      [ttsService.synthesizeTextStreamAdvanced] (line framing);
    - [Slide]       [slideService.waitForPPTConversion];
    - [Element]     the single [<audio>] element two components mount;
    - [Workflow]    the [DocumentWorkflow] audio element and [playAudioSegment];
    - [PPT]         [PPTPresentation.handleAudioEnded] and
                    [playCurrentSlideAudio].

    Conventions.  JavaScript numbers that count things are [Z]; an optional
    field [f?: T] is [option T]; a component's [useState] cells and [useRef]
    cells are fields of one state record which every handler transforms;
    the values a handler closes over at render time are passed in a [Render]
    record.  Exceptions caught by the source's own [try]/[catch] become
    console notes, whose texts are paraphrased; DOM media elements live in a
    heap indexed by handle; whether the browser lets [play()] succeed is an
    argument of the handler that calls it. *)

From Stdlib Require Import ZArith Ascii String DecimalString Bool Lia.
From stdpp Require Import base list.

Local Open Scope string_scope.
Local Open Scope list_scope.
Local Open Scope Z_scope.

(** ** The platform's [atob] (forgiving base64 decode) *)

Module Base64.

Definition code (c : ascii) : Z := Z.of_nat (nat_of_ascii c).

(** ASCII whitespace: TAB, LF, FF, CR, SPACE. *)
Definition is_ascii_ws (c : ascii) : bool :=
  let n := code c in
  (n =? 9) || (n =? 10) || (n =? 12) || (n =? 13) || (n =? 32).

Definition sextet (c : ascii) : option Z :=
  let n := code c in
  if (65 <=? n) && (n <=? 90) then Some (n - 65)
  else if (97 <=? n) && (n <=? 122) then Some (n - 71)
  else if (48 <=? n) && (n <=? 57) then Some (n + 4)
  else if n =? 43 then Some 62
  else if n =? 47 then Some 63
  else None.

Fixpoint sextets (cs : list ascii) : option (list Z) :=
  match cs with
  | [] => Some []
  | c :: rest =>
      match sextet c, sextets rest with
      | Some v, Some vs => Some (v :: vs)
      | _, _ => None
      end
  end.

Definition is_pad (c : ascii) : bool := code c =? 61.

(** When the length is a multiple of four, one or two trailing [=] go. *)
Definition strip_padding (cs : list ascii) : list ascii :=
  if (Z.of_nat (length cs) mod 4 =? 0) then
    match rev cs with
    | p1 :: p2 :: r =>
        if is_pad p1 then (if is_pad p2 then rev r else rev (p2 :: r)) else cs
    | [p1] => if is_pad p1 then [] else cs
    | [] => cs
    end
  else cs.

(** Groups of four sextets give three bytes; a tail of three gives two bytes
    and a tail of two gives one, the left-over bits being discarded. *)
Fixpoint bytes_of_sextets (vs : list Z) : list Z :=
  match vs with
  | a :: b :: c :: d :: rest =>
      let w := Z.lor (Z.lor (Z.shiftl a 18) (Z.shiftl b 12))
                     (Z.lor (Z.shiftl c 6) d) in
      Z.land (Z.shiftr w 16) 255 :: Z.land (Z.shiftr w 8) 255 :: Z.land w 255
      :: bytes_of_sextets rest
  | [a; b; c] =>
      let w := Z.lor (Z.lor (Z.shiftl a 12) (Z.shiftl b 6)) c in
      [Z.land (Z.shiftr w 10) 255; Z.land (Z.shiftr w 2) 255]
  | [a; b] =>
      let w := Z.lor (Z.shiftl a 6) b in
      [Z.land (Z.shiftr w 4) 255]
  | _ => []
  end.

(** [atob s]: [None] is the [InvalidCharacterError] exception; [Some cs] is
    the binary string, given as the list of its char codes (each below 256). *)
Definition atob (s : string) : option (list Z) :=
  let cs := strip_padding (filter (fun c => is_ascii_ws c = false)
                                  (list_ascii_of_string s)) in
  if (Z.of_nat (length cs) mod 4 =? 1) then None
  else match sextets cs with
       | Some vs => Some (bytes_of_sextets vs)
       | None => None
       end.

End Base64.

(** ** The [TextToSpeech] page *)

Module TTS.

(** *** Data *)

(** [TTSStreamEvent.type]; [JSON.parse] may deliver any string, which the
    [default] branch of [handleStreamEvent] receives. *)
Inductive EventType :=
| start | audio_chunk | complete | error | end_ | heartbeat
| other (name : string).

Record TTSStreamEvent := {
  type : EventType;
  session_id : string;
  data : option string;
  chunk_count : option Z;
  total_size : option Z;
  is_final : option bool;
  ev_error : option string;
  ev_message : option string;
  ev_provider : option string;
  ev_voice : option string;
  text_length : option Z;
  ev_timestamp : option Z
}.

Inductive Status := pending | streaming | completed | errored.

(** A URL is either one made by [URL.createObjectURL] (the index of its blob
    in the blob store) or an ordinary address. *)
Inductive Url :=
| BlobUrl (n : nat)
| HttpUrl (address : string).

Record Blob := { blob_bytes : list Z; blob_type : string }.

(** A [Uint8Array] is the list of its bytes. *)
Definition Uint8Array := list Z.

Record SynthesisResult := {
  id : string;
  text : string;
  provider : string;
  voice : string;
  duration : Z;
  audio_length : Z;
  file_size : Z;
  download_url : option string;
  timestamp : string;
  status : option Status;
  error_ : option string;
  audio_chunks : option (list Uint8Array);
  stream_audio_url : option Url;
  mediaSource : option nat;
  sourceBuffer : option nat;
  audioContext : option nat
}.

(** [Partial<SynthesisResult>]: [Some v] is a key that is present. *)
Record Updates := {
  u_id : option string;
  u_text : option string;
  u_provider : option string;
  u_voice : option string;
  u_duration : option Z;
  u_audio_length : option Z;
  u_file_size : option Z;
  u_download_url : option string;
  u_timestamp : option string;
  u_status : option Status;
  u_error : option string;
  u_audio_chunks : option (list Uint8Array);
  u_stream_audio_url : option Url;
  u_mediaSource : option nat;
  u_sourceBuffer : option nat;
  u_audioContext : option nat
}.

Definition no_updates : Updates :=
  {| u_id := None; u_text := None; u_provider := None; u_voice := None;
     u_duration := None; u_audio_length := None; u_file_size := None;
     u_download_url := None; u_timestamp := None; u_status := None;
     u_error := None; u_audio_chunks := None; u_stream_audio_url := None;
     u_mediaSource := None; u_sourceBuffer := None; u_audioContext := None |}.

(** The handlers a media element carries, by the function that made it. *)
Inductive Handlers :=
| FromPlayStreaming (resultId : string)
| FromUpdateStreaming (resultId : string) (savedTime : Z) (wasPlaying : bool)
| FromPlayAudio (resultId : string).

(** Media times are compared and copied, never computed with: a time is a
    whole number of ticks. *)
Record Audio := {
  src : Url;
  paused : bool;
  currentTime : Z;
  handlers : Handlers
}.

(** [HTMLMediaElement.duration] when [loadeddata] fires. *)
Inductive Duration := NaN | Finite (ticks : Z) | Infinity.

Inductive Note :=
| console_log (what : string)
| console_error (what : string)
| message_success (what : string)
| message_error (what : string)
| message_warning (what : string)
| message_info (what : string).

Inductive StreamingStatus :=
| status_none
| status_connecting
| status_started (provider : option string)
| status_chunk (count : option Z) (kilobytes : Z)
| status_done.

Inductive Timer := clear_streaming_status.

Record State := {
  results : list SynthesisResult;
  currentPlaying : option string;
  streamingStatus : StreamingStatus;
  streamingAudio : option string;
  audioRef : option nat;
  streamingAudioRef : option nat;
  audios : list Audio;
  blobs : list Blob;
  timers : list (Z * Timer);
  notes : list Note
}.

(** What a handler closes over from the render that created it. *)
Record Render := {
  selectedFormat : string;
  seen_currentPlaying : option string;
  seen_streamingAudio : option string
}.

Definition render (fmt : string) (st : State) : Render :=
  {| selectedFormat := fmt;
     seen_currentPlaying := currentPlaying st;
     seen_streamingAudio := streamingAudio st |}.

(** *** State setters *)

Definition setResults (f : list SynthesisResult -> list SynthesisResult)
  (st : State) : State :=
  {| results := f (results st); currentPlaying := currentPlaying st;
     streamingStatus := streamingStatus st; streamingAudio := streamingAudio st;
     audioRef := audioRef st; streamingAudioRef := streamingAudioRef st;
     audios := audios st; blobs := blobs st; timers := timers st;
     notes := notes st |}.

Definition setCurrentPlaying (v : option string) (st : State) : State :=
  {| results := results st; currentPlaying := v;
     streamingStatus := streamingStatus st; streamingAudio := streamingAudio st;
     audioRef := audioRef st; streamingAudioRef := streamingAudioRef st;
     audios := audios st; blobs := blobs st; timers := timers st;
     notes := notes st |}.

Definition setStreamingStatus (v : StreamingStatus) (st : State) : State :=
  {| results := results st; currentPlaying := currentPlaying st;
     streamingStatus := v; streamingAudio := streamingAudio st;
     audioRef := audioRef st; streamingAudioRef := streamingAudioRef st;
     audios := audios st; blobs := blobs st; timers := timers st;
     notes := notes st |}.

Definition setStreamingAudio (v : option string) (st : State) : State :=
  {| results := results st; currentPlaying := currentPlaying st;
     streamingStatus := streamingStatus st; streamingAudio := v;
     audioRef := audioRef st; streamingAudioRef := streamingAudioRef st;
     audios := audios st; blobs := blobs st; timers := timers st;
     notes := notes st |}.

Definition set_audioRef (v : option nat) (st : State) : State :=
  {| results := results st; currentPlaying := currentPlaying st;
     streamingStatus := streamingStatus st; streamingAudio := streamingAudio st;
     audioRef := v; streamingAudioRef := streamingAudioRef st;
     audios := audios st; blobs := blobs st; timers := timers st;
     notes := notes st |}.

Definition set_streamingAudioRef (v : option nat) (st : State) : State :=
  {| results := results st; currentPlaying := currentPlaying st;
     streamingStatus := streamingStatus st; streamingAudio := streamingAudio st;
     audioRef := audioRef st; streamingAudioRef := v;
     audios := audios st; blobs := blobs st; timers := timers st;
     notes := notes st |}.

Definition set_audios (v : list Audio) (st : State) : State :=
  {| results := results st; currentPlaying := currentPlaying st;
     streamingStatus := streamingStatus st; streamingAudio := streamingAudio st;
     audioRef := audioRef st; streamingAudioRef := streamingAudioRef st;
     audios := v; blobs := blobs st; timers := timers st;
     notes := notes st |}.

Definition set_blobs (v : list Blob) (st : State) : State :=
  {| results := results st; currentPlaying := currentPlaying st;
     streamingStatus := streamingStatus st; streamingAudio := streamingAudio st;
     audioRef := audioRef st; streamingAudioRef := streamingAudioRef st;
     audios := audios st; blobs := v; timers := timers st;
     notes := notes st |}.

Definition setTimeout (t : Timer) (delay : Z) (st : State) : State :=
  {| results := results st; currentPlaying := currentPlaying st;
     streamingStatus := streamingStatus st; streamingAudio := streamingAudio st;
     audioRef := audioRef st; streamingAudioRef := streamingAudioRef st;
     audios := audios st; blobs := blobs st;
     timers := timers st ++ [(delay, t)]; notes := notes st |}.

Definition note (n : Note) (st : State) : State :=
  {| results := results st; currentPlaying := currentPlaying st;
     streamingStatus := streamingStatus st; streamingAudio := streamingAudio st;
     audioRef := audioRef st; streamingAudioRef := streamingAudioRef st;
     audios := audios st; blobs := blobs st; timers := timers st;
     notes := notes st ++ [n] |}.

(** *** Media elements and blobs *)

(** [new Audio(url)]: a fresh element, paused at position zero. *)
Definition new_Audio (url : Url) (h : Handlers) (st : State) : nat * State :=
  (length (audios st),
   set_audios (audios st ++ [{| src := url; paused := true; currentTime := 0;
                                handlers := h |}]) st).

Definition with_paused (b : bool) (a : Audio) : Audio :=
  {| src := src a; paused := b; currentTime := currentTime a;
     handlers := handlers a |}.

Definition with_currentTime (t : Z) (a : Audio) : Audio :=
  {| src := src a; paused := paused a; currentTime := t;
     handlers := handlers a |}.

Definition pause (h : nat) (st : State) : State :=
  set_audios (alter (with_paused true) h (audios st)) st.

Definition set_currentTime (h : nat) (t : Z) (st : State) : State :=
  set_audios (alter (with_currentTime t) h (audios st)) st.

(** [element.play()]: when the browser allows it ([ok]) the element is no
    longer paused and the promise resolves; otherwise the element stays as it
    is and the promise rejects. *)
Definition play (h : nat) (ok : bool) (st : State) : State :=
  if ok then set_audios (alter (with_paused false) h (audios st)) st else st.

(** [.catch(handler)] on that promise: the handler runs, after the code that
    called [play] has finished, only if the promise rejected. *)
Definition catch (ok : bool) (handler : State -> State) (st : State) : State :=
  if ok then st else handler st.

(** [URL.createObjectURL(blob)]. *)
Definition createObjectURL (b : Blob) (st : State) : Url * State :=
  (BlobUrl (length (blobs st)), set_blobs (blobs st ++ [b]) st).

(** The elements that are playing. *)
Definition live (st : State) : list Audio :=
  filter (fun a => paused a = false) (audios st).

(** *** [updateResult] *)

Definition override {A} (old : A) (new : option A) : A :=
  match new with Some v => v | None => old end.

Definition override_opt {A} (old : option A) (new : option A) : option A :=
  match new with Some v => Some v | None => old end.

(** [{ ...result, ...updates }] *)
Definition spread (r : SynthesisResult) (u : Updates) : SynthesisResult :=
  {| id := override (id r) (u_id u);
     text := override (text r) (u_text u);
     provider := override (provider r) (u_provider u);
     voice := override (voice r) (u_voice u);
     duration := override (duration r) (u_duration u);
     audio_length := override (audio_length r) (u_audio_length u);
     file_size := override (file_size r) (u_file_size u);
     download_url := override_opt (download_url r) (u_download_url u);
     timestamp := override (timestamp r) (u_timestamp u);
     status := override_opt (status r) (u_status u);
     error_ := override_opt (error_ r) (u_error u);
     audio_chunks := override_opt (audio_chunks r) (u_audio_chunks u);
     stream_audio_url := override_opt (stream_audio_url r) (u_stream_audio_url u);
     mediaSource := override_opt (mediaSource r) (u_mediaSource u);
     sourceBuffer := override_opt (sourceBuffer r) (u_sourceBuffer u);
     audioContext := override_opt (audioContext r) (u_audioContext u) |}.

Definition updateResult (resultId : string) (updates : Updates) (st : State)
  : State :=
  setResults (map (fun result =>
    if String.eqb (id result) resultId then spread result updates else result))
    st.

(** *** [playStreamingAudio] and [updateStreamingAudio] *)

(** [cell === resultId] for a state cell of type [string | null]. *)
Definition is_id (cell : option string) (resultId : string) : bool :=
  match cell with
  | Some v => String.eqb v resultId
  | None => false
  end.

Definition pause_ref (ref : option nat) (st : State) : State :=
  match ref with Some h => pause h st | None => st end.

Definition playStreamingAudio (play_ok : bool) (resultId : string)
  (audioUrl : Url) (st : State) : State :=
  let st := pause_ref (streamingAudioRef st) st in
  let st := pause_ref (audioRef st) st in
  let '(h, st) := new_Audio audioUrl (FromPlayStreaming resultId) st in
  let st := set_streamingAudioRef (Some h) st in
  let st := play h play_ok st in
  let st := note (console_log "streaming playback started") st in
  catch play_ok (fun st => note (message_info "audio ready, press play")
                             (note (console_error "play failed") st)) st.

Definition updateStreamingAudio (r : Render) (resultId : string)
  (newAudioUrl : Url) (st : State) : State :=
  if is_id (seen_streamingAudio r) resultId then
    match streamingAudioRef st with
    | Some old =>
        match audios st !! old with
        | Some a =>
            let currentTime := currentTime a in
            let wasPlaying := negb (paused a) in
            let '(newAudio, st) :=
              new_Audio newAudioUrl
                (FromUpdateStreaming resultId currentTime wasPlaying) st in
            let st := pause old st in
            let st := set_streamingAudioRef (Some newAudio) st in
            note (console_log "streaming source updated") st
        | None => st
        end
    | None => st
    end
  else st.

(** [currentTime < newAudio.duration] *)
Definition before (t : Z) (d : Duration) : bool :=
  match d with
  | NaN => false
  | Finite n => t <? n
  | Infinity => true
  end.

(** The element's events, delivered by the browser after the handler that
    made the element has returned. *)
Definition onloadeddata (h : nat) (d : Duration) (play_ok : bool) (st : State)
  : State :=
  match audios st !! h with
  | Some a =>
      match handlers a with
      | FromUpdateStreaming _ savedTime wasPlaying =>
          let st := if (0 <? savedTime) && before savedTime d
                    then set_currentTime h savedTime st else st in
          if wasPlaying
          then catch play_ok (note (console_error "resume failed"))
                     (play h play_ok st)
          else st
      | _ => st
      end
  | None => st
  end.

Definition onplay (h : nat) (st : State) : State :=
  match audios st !! h with
  | Some a =>
      match handlers a with
      | FromPlayStreaming rid | FromUpdateStreaming rid _ _ =>
          setStreamingAudio (Some rid) (setCurrentPlaying (Some rid) st)
      | FromPlayAudio rid => setCurrentPlaying (Some rid) st
      end
  | None => st
  end.

Definition onended (h : nat) (st : State) : State :=
  match audios st !! h with
  | Some a =>
      let st := set_audios (alter (with_paused true) h (audios st)) st in
      match handlers a with
      | FromPlayStreaming _ | FromUpdateStreaming _ _ _ =>
          setStreamingAudio None (setCurrentPlaying None st)
      | FromPlayAudio _ => setCurrentPlaying None st
      end
  | None => st
  end.

(** *** [handleStreamEvent] *)

(** JavaScript truthiness of an optional string. *)
Definition truthy (s : option string) : option string :=
  match s with
  | Some v => if String.eqb v "" then None else Some v
  | None => None
  end.

(** The loop [audioArray[i] = audioData.charCodeAt(i)]: a [Uint8Array] slot
    keeps the value modulo 256. *)
Definition charCodes_to_Uint8Array (audioData : list Z) : Uint8Array :=
  map (fun c => c mod 256) audioData.

(** [newChunks.reduce((sum, chunk) => sum + chunk.length, 0)] *)
Definition total_length (chunks : list Uint8Array) : Z :=
  fold_left (fun sum chunk => sum + Z.of_nat (length chunk)) chunks 0.

(** [arr.set(chunk, offset)] for an offset that leaves room for the chunk,
    which is the case at every call below (see [fill_is_concat]). *)
Definition Uint8Array_set (arr chunk : Uint8Array) (offset : nat) : Uint8Array :=
  take offset arr ++ chunk ++ drop (offset + length chunk)%nat arr.

(** The loop [for (const chunk of newChunks) { combinedArray.set(chunk,
    offset); offset += chunk.length }]. *)
Fixpoint fill (combinedArray : Uint8Array) (offset : nat)
  (chunks : list Uint8Array) : Uint8Array :=
  match chunks with
  | [] => combinedArray
  | chunk :: rest =>
      fill (Uint8Array_set combinedArray chunk offset)
           (offset + length chunk)%nat rest
  end.

Definition combine (chunks : list Uint8Array) : Uint8Array :=
  fill (replicate (Z.to_nat (total_length chunks)) 0) 0%nat chunks.

Definition mimeType (r : Render) : string :=
  if String.eqb (selectedFormat r) "mp3" then "audio/mpeg" else "audio/wav".

(** The body of the [prev.map] callback for a result whose id matches. *)
Definition ingest (r : Render) (play_ok : bool) (event : TTSStreamEvent)
  (resultId : string) (audioArray : Uint8Array) (result : SynthesisResult)
  (st : State) : SynthesisResult * State :=
  let newChunks := default [] (audio_chunks result) ++ [audioArray] in
  let totalSize := total_length newChunks in
  let combinedArray := combine newChunks in
  let blob := {| blob_bytes := combinedArray; blob_type := mimeType r |} in
  let '(audioUrl, st) := createObjectURL blob st in
  let st :=
    match chunk_count event with
    | Some 1 => playStreamingAudio play_ok resultId audioUrl st
    | _ => updateStreamingAudio r resultId audioUrl st
    end in
  (spread result
     {| u_id := None; u_text := None; u_provider := None; u_voice := None;
        u_duration := None; u_audio_length := None;
        u_file_size := Some totalSize;
        u_download_url := None; u_timestamp := None; u_status := None;
        u_error := None; u_audio_chunks := Some newChunks;
        u_stream_audio_url := Some audioUrl;
        u_mediaSource := None; u_sourceBuffer := None;
        u_audioContext := None |},
   st).

(** [prev.map(result => ...)], the callback's effects on the media elements
    and the blob store threaded from left to right. *)
Fixpoint map_ingest (r : Render) (play_ok : bool) (event : TTSStreamEvent)
  (resultId : string) (audioArray : Uint8Array) (prev : list SynthesisResult)
  (st : State) : list SynthesisResult * State :=
  match prev with
  | [] => ([], st)
  | result :: rest =>
      let '(result', st) :=
        if String.eqb (id result) resultId
        then ingest r play_ok event resultId audioArray result st
        else (result, st) in
      let '(rest', st) := map_ingest r play_ok event resultId audioArray rest st in
      (result' :: rest', st)
  end.

(** [Math.round((event.total_size || 0) / 1024)] *)
Definition rounded_kilobytes (total_size : option Z) : Z :=
  (default 0 total_size + 512) / 1024.

Definition handleStreamEvent (r : Render) (play_ok : bool)
  (event : TTSStreamEvent) (resultId : string) (st : State) : State :=
  let st := note (console_log "Stream event") st in
  match type event with
  | start =>
      let st := setStreamingStatus (status_started (ev_provider event)) st in
      updateResult resultId
        {| u_id := None; u_text := None; u_provider := None; u_voice := None;
           u_duration := None; u_audio_length := None; u_file_size := None;
           u_download_url := None; u_timestamp := None;
           u_status := Some streaming;
           u_error := None; u_audio_chunks := None;
           u_stream_audio_url := None; u_mediaSource := None;
           u_sourceBuffer := None; u_audioContext := None |} st
  | audio_chunk =>
      match truthy (data event) with
      | Some payload =>
          match Base64.atob payload with
          | Some audioData =>
              let audioArray := charCodes_to_Uint8Array audioData in
              let '(results', st) :=
                map_ingest r play_ok event resultId audioArray (results st) st in
              let st := setResults (fun _ => results') st in
              setStreamingStatus
                (status_chunk (chunk_count event)
                   (rounded_kilobytes (total_size event))) st
          | None => note (console_error "audio chunk failed") st
          end
      | None => st
      end
  | complete =>
      let st := setStreamingStatus status_done st in
      let st := updateResult resultId
        {| u_id := None; u_text := None; u_provider := None; u_voice := None;
           u_duration := Some 0; u_audio_length := None; u_file_size := None;
           u_download_url := None; u_timestamp := None;
           u_status := Some completed;
           u_error := None; u_audio_chunks := None;
           u_stream_audio_url := None; u_mediaSource := None;
           u_sourceBuffer := None; u_audioContext := None |} st in
      let st := note (message_success "streaming synthesis complete") st in
      setTimeout clear_streaming_status 2000 st
  | error =>
      let st := setStreamingStatus status_none st in
      let st := updateResult resultId
        {| u_id := None; u_text := None; u_provider := None; u_voice := None;
           u_duration := None; u_audio_length := None; u_file_size := None;
           u_download_url := None; u_timestamp := None;
           u_status := Some errored;
           u_error := Some (default "未知错误" (truthy (ev_error event)));
           u_audio_chunks := None;
           u_stream_audio_url := None; u_mediaSource := None;
           u_sourceBuffer := None; u_audioContext := None |} st in
      note (message_error "synthesis failed") st
  | end_ => setStreamingStatus status_none st
  | heartbeat => st
  | other _ => note (console_log "unknown event type") st
  end.

(** The result [handleSynthesizeStream] puts at the head of the list before
    it opens the stream. *)
Definition newResult (resultId text provider voice timestamp : string)
  : SynthesisResult :=
  {| id := resultId; text := text; provider := provider; voice := voice;
     duration := 0; audio_length := 0; file_size := 0; download_url := None;
     timestamp := timestamp; status := Some pending; error_ := None;
     audio_chunks := Some []; stream_audio_url := None;
     mediaSource := None; sourceBuffer := None; audioContext := None |}.

(** The stream's callback, event after event, with the closure of the render
    that started the synthesis. *)
Definition handleStreamEvents (r : Render) (play_ok : bool) (resultId : string)
  (events : list TTSStreamEvent) (st : State) : State :=
  fold_left (fun st event => handleStreamEvent r play_ok event resultId st)
            events st.

(** *** [playAudio] *)

Definition playAudio (r : Render) (baseURL : string) (play_ok : bool)
  (result : SynthesisResult) (st : State) : State :=
  if is_id (seen_currentPlaying r) (id result) then
    match audioRef st with
    | Some h => setCurrentPlaying None (pause h st)
    | None => st
    end
  else
    let st := pause_ref (audioRef st) st in
    let audioUrl :=
      match stream_audio_url result with
      | Some u => Some u
      | None =>
          match truthy (download_url result) with
          | Some d => Some (HttpUrl (String.append baseURL d))
          | None => None
          end
      end in
    match audioUrl with
    | None => note (message_error "nothing to play") st
    | Some audioUrl =>
        let '(h, st) := new_Audio audioUrl (FromPlayAudio (id result)) st in
        let st := set_audioRef (Some h) st in
        catch play_ok
          (fun st => setCurrentPlaying None
                       (note (message_error "playback failed") st))
          (play h play_ok st)
    end.

(** *** Vocabulary for the properties *)

(** The first result with the given id. *)
Definition find_result (resultId : string) (rs : list SynthesisResult)
  : option SynthesisResult :=
  List.find (fun result => String.eqb (id result) resultId) rs.

(** The bytes accumulated for a result. *)
Definition buffer_of (result : SynthesisResult) : list Z :=
  concat (default [] (audio_chunks result)).

(** The bytes behind a result's [stream_audio_url], if it has one. *)
Definition playable_bytes (st : State) (result : SynthesisResult)
  : option (list Z) :=
  match stream_audio_url result with
  | Some (BlobUrl n) => option_map blob_bytes (blobs st !! n)
  | _ => None
  end.

(** The bytes a media element plays from, if its source is a blob. *)
Definition element_bytes (st : State) (h : nat) : option (list Z) :=
  match audios st !! h with
  | Some a =>
      match src a with
      | BlobUrl n => option_map blob_bytes (blobs st !! n)
      | HttpUrl _ => None
      end
  | None => None
  end.

Fixpoint ascending_from (last : Z) (events : list TTSStreamEvent) : bool :=
  match events with
  | [] => true
  | event :: rest =>
      match chunk_count event with
      | Some n => (last <? n) && ascending_from n rest
      | None => false
      end
  end.

(** The events carry strictly increasing sequence numbers. *)
Definition strictly_increasing (events : list TTSStreamEvent) : bool :=
  match events with
  | [] => true
  | event :: rest =>
      match chunk_count event with
      | Some n => ascending_from n rest
      | None => false
      end
  end.

(** Two results that agree on every field but [status], [error] and
    [duration]. *)
Definition same_but_status_error_duration (a b : SynthesisResult) : Prop :=
  id b = id a /\ text b = text a /\ provider b = provider a /\
  voice b = voice a /\ audio_length b = audio_length a /\
  file_size b = file_size a /\ download_url b = download_url a /\
  timestamp b = timestamp a /\ audio_chunks b = audio_chunks a /\
  stream_audio_url b = stream_audio_url a /\ mediaSource b = mediaSource a /\
  sourceBuffer b = sourceBuffer a /\ audioContext b = audioContext a.

(** The callback's result does not depend on the media elements: it is the
    old result with the chunk appended and the new URL. *)
Definition appended (audioArray : Uint8Array) (audioUrl : Url)
  (result : SynthesisResult) : SynthesisResult :=
  {| id := id result; text := text result; provider := provider result;
     voice := voice result; duration := duration result;
     audio_length := audio_length result;
     file_size := total_length (default [] (audio_chunks result) ++ [audioArray]);
     download_url := download_url result; timestamp := timestamp result;
     status := status result; error_ := error_ result;
     audio_chunks := Some (default [] (audio_chunks result) ++ [audioArray]);
     stream_audio_url := Some audioUrl;
     mediaSource := mediaSource result; sourceBuffer := sourceBuffer result;
     audioContext := audioContext result |}.

(** [after] is [before] once the chunk has been ingested for [resultId],
    with the new playable bytes in the blob store. *)
Definition ingested (resultId : string) (audioArray : Uint8Array)
  (store : list Blob) (before after : SynthesisResult) : Prop :=
  if String.eqb (id before) resultId then
    exists n mime,
      after = appended audioArray (BlobUrl n) before /\
      store !! n = Some {| blob_bytes := combine (default [] (audio_chunks before)
                                                   ++ [audioArray]);
                           blob_type := mime |}
  else after = before.

(** The event is an [audio_chunk] whose payload [atob] decodes to [bytes]. *)
Definition decodes_to (event : TTSStreamEvent) (bytes : list Z) : Prop :=
  type event = audio_chunk /\
  exists payload, data event = Some payload /\ Base64.atob payload = Some bytes.

(** A result whose playable handle, if any, renders its whole buffer. *)
Definition consistent (st : State) (result : SynthesisResult) : Prop :=
  file_size result = Z.of_nat (length (buffer_of result)) /\
  (playable_bytes st result = Some (buffer_of result) \/
   stream_audio_url result = None /\ buffer_of result = []).

(** A page that has accumulated two chunks for ["r1"], next to an older,
    finished result. *)
Definition older : SynthesisResult :=
  {| id := "r0"; text := "earlier"; provider := "douyin"; voice := "v";
     duration := 0; audio_length := 0; file_size := 2048;
     download_url := Some "/api/tts/download/r0.wav"; timestamp := "t0";
     status := None; error_ := None; audio_chunks := None;
     stream_audio_url := None; mediaSource := None; sourceBuffer := None;
     audioContext := None |}.

Definition with_older (resultId : string) : State :=
  {| results := [newResult resultId "hello world" "douyin" "v" "t"; older];
     currentPlaying := None; streamingStatus := status_connecting;
     streamingAudio := None; audioRef := None; streamingAudioRef := None;
     audios := []; blobs := []; timers := []; notes := [] |}.

(** A list of elements with the one a ref cell points to paused. *)
Definition pause_in (ref : option nat) (elements : list Audio) : list Audio :=
  match ref with
  | Some h => alter (with_paused true) h elements
  | None => elements
  end.

(** No element plays after that did not play before. *)
Definition starts_nothing (before after : State) : Prop :=
  forall h a', audios after !! h = Some a' -> paused a' = false ->
    exists a, audios before !! h = Some a /\ paused a = false.

(** Every playing element is the one a ref cell points to. *)
Definition owned (st : State) : Prop :=
  forall h a, audios st !! h = Some a -> paused a = false ->
    audioRef st = Some h \/ streamingAudioRef st = Some h.

(** An [audio_chunk] event that carries no payload. *)
Definition bare_chunk_event (sequence : Z) : TTSStreamEvent :=
  {| type := audio_chunk; session_id := "s"; data := None;
     chunk_count := Some sequence; total_size := None; is_final := None;
     ev_error := None; ev_message := None; ev_provider := None;
     ev_voice := None; text_length := None; ev_timestamp := None |}.

(** An [audio_chunk] event as the server sends it. *)
Definition chunk_event (sequence : Z) (payload : string) : TTSStreamEvent :=
  {| type := audio_chunk; session_id := "s"; data := Some payload;
     chunk_count := Some sequence; total_size := None; is_final := None;
     ev_error := None; ev_message := None; ev_provider := None;
     ev_voice := None; text_length := None; ev_timestamp := None |}.

Definition plain_event (t : EventType) (problem : option string)
  : TTSStreamEvent :=
  {| type := t; session_id := "s"; data := None;
     chunk_count := None; total_size := None; is_final := None;
     ev_error := problem; ev_message := None; ev_provider := None;
     ev_voice := None; text_length := None; ev_timestamp := None |}.

(** The page right after [handleSynthesizeStream] has added its result. *)
Definition fresh (resultId : string) : State :=
  {| results := [newResult resultId "hello world" "douyin" "v" "t"];
     currentPlaying := None; streamingStatus := status_connecting;
     streamingAudio := None; audioRef := None; streamingAudioRef := None;
     audios := []; blobs := []; timers := []; notes := [] |}.

Definition wav : Render :=
  {| selectedFormat := "wav"; seen_currentPlaying := None;
     seen_streamingAudio := None |}.

End TTS.

(** ** [ttsService.synthesizeTextStreamAdvanced] *)

Module Stream.

Definition is_newline (c : ascii) : bool := Base64.code c =? 10.

(** Put a character in front of the first piece. *)
Definition cons_head (c : ascii) (pieces : list string) : list string :=
  match pieces with
  | first :: more => String c first :: more
  | [] => [String c EmptyString]
  end.

(** [buffer.split('\n')]: never empty; the last piece is what follows the
    last newline. *)
Fixpoint split_newline (s : string) : list string :=
  match s with
  | EmptyString => [EmptyString]
  | String c rest =>
      if is_newline c then EmptyString :: split_newline rest
      else cons_head c (split_newline rest)
  end.

(** [line.slice(n)] *)
Fixpoint slice (n : nat) (line : string) : string :=
  match n, line with
  | O, _ => line
  | S n', String _ rest => slice n' rest
  | S _, EmptyString => EmptyString
  end.

(** [line.startsWith('data: ')] *)
Definition startsWith_data (line : string) : bool := String.prefix "data: " line.

(** How the HTTP exchange goes.  A read is given as the text the streaming
    [TextDecoder] makes of it; a string here is the sequence of the text's
    UTF-8 bytes, among which a newline is the byte 10 and nothing else. *)
Inductive Ending := done | read_failed (why : string).

Inductive Response :=
| fetch_rejected (why : string)
| not_ok (status : string)
| no_body
| body (reads : list string) (ending : Ending).

Section Reader.

(** [JSON.parse]: [None] is a [SyntaxError]. *)
Variable JSON_parse : string -> option TTS.TTSStreamEvent.

(** The caller's state and its callback. *)
Variable Caller : Type.
Variable callback : TTS.TTSStreamEvent -> Caller -> Caller.

(** The caller's state together with the console. *)
Definition Env : Type := Caller * list TTS.Note.

(** The body of [for (const line of lines)]. *)
Definition handle_line (env : Env) (line : string) : Env :=
  if startsWith_data line then
    match JSON_parse (slice 6 line) with
    | Some eventData => (callback eventData (fst env), snd env)
    | None => (fst env, snd env ++ [TTS.console_error "Failed to parse event data"])
    end
  else env.

(** The [while (true)] loop over [reader.read()]; the list is exhausted when
    [done] is reported.  Returns the buffer left over as well. *)
Fixpoint read_loop (reads : list string) (buffer : string) (env : Env)
  : string * Env :=
  match reads with
  | [] => (buffer, env)
  | value :: rest =>
      let buffer := String.append buffer value in
      let lines := split_newline buffer in
      let buffer := default EmptyString (last lines) in
      let lines := removelast lines in
      read_loop rest buffer (fold_left handle_line lines env)
  end.

Definition stream_failed (why : string) : TTS.TTSStreamEvent :=
  {| TTS.type := TTS.error; TTS.session_id := EmptyString;
     TTS.data := None; TTS.chunk_count := None; TTS.total_size := None;
     TTS.is_final := None;
     TTS.ev_error := Some (String.append "Stream request failed: " why);
     TTS.ev_message := None; TTS.ev_provider := None; TTS.ev_voice := None;
     TTS.text_length := None; TTS.ev_timestamp := None |}.

(** The outer [catch]. *)
Definition fail (why : string) (env : Env) : Env :=
  (callback (stream_failed why) (fst env),
   snd env ++ [TTS.console_error "Stream request failed"]).

Definition synthesizeTextStreamAdvanced (response : Response) (env : Env) : Env :=
  match response with
  | fetch_rejected why => fail why env
  | not_ok status => fail (String.append "Error: HTTP " status) env
  | no_body => fail "Error: Response body is not readable" env
  | body reads ending =>
      let env := snd (read_loop reads EmptyString env) in
      match ending with
      | done => env
      | read_failed why => fail why env
      end
  end.

End Reader.

(** The events handed to the callback, in order, by a stream that is read to
    its end. *)
Definition delivered (JSON_parse : string -> option TTS.TTSStreamEvent)
  (reads : list string) : list TTS.TTSStreamEvent :=
  fst (synthesizeTextStreamAdvanced JSON_parse (list TTS.TTSStreamEvent)
         (fun event seen => seen ++ [event]) (body reads done) ([], [])).

(** The text of a stream whose records are the given lines, each followed by
    its newline. *)
Definition unlines (lines : list string) : string :=
  fold_right (fun line text => String.append line (String "010"%char text))
             EmptyString lines.

Fixpoint has_newline (s : string) : bool :=
  match s with
  | EmptyString => false
  | String c rest => is_newline c || has_newline rest
  end.

(** The event of one complete line, if it has one. *)
Definition event_of (JSON_parse : string -> option TTS.TTSStreamEvent)
  (line : string) : option TTS.TTSStreamEvent :=
  if startsWith_data line then JSON_parse (slice 6 line) else None.

(** A reader of the objects [{"type":"<name>"}], standing in for
    [JSON.parse] where an example needs one to run. *)
Definition event_named (name : string) : TTS.TTSStreamEvent :=
  {| TTS.type :=
       if String.eqb name "start" then TTS.start
       else if String.eqb name "audio_chunk" then TTS.audio_chunk
       else if String.eqb name "complete" then TTS.complete
       else if String.eqb name "error" then TTS.error
       else if String.eqb name "end" then TTS.end_
       else if String.eqb name "heartbeat" then TTS.heartbeat
       else TTS.other name;
     TTS.session_id := EmptyString;
     TTS.data := None; TTS.chunk_count := None; TTS.total_size := None;
     TTS.is_final := None; TTS.ev_error := None;
     TTS.ev_message := None; TTS.ev_provider := None; TTS.ev_voice := None;
     TTS.text_length := None; TTS.ev_timestamp := None |}.

Fixpoint name_then_close (s : string) : option string :=
  match s with
  | EmptyString => None
  | String c rest =>
      if Base64.code c =? 34 then
        (if String.eqb rest "}" then Some EmptyString else None)
      else if Base64.code c =? 92 then None
      else match name_then_close rest with
           | Some name => Some (String c name)
           | None => None
           end
  end.

Definition quote : ascii := ascii_of_nat 34.

(** The nine characters that open such an object, up to the name. *)
Definition type_key : string :=
  String "{"%char (String quote (String.append "type"
    (String quote (String ":"%char (String quote EmptyString))))).

Definition parse_type_object (s : string) : option TTS.TTSStreamEvent :=
  if String.prefix type_key s
  then option_map event_named (name_then_close (slice 9 s))
  else None.

(** The whole text of a stream that came in the given reads. *)
Definition join (reads : list string) : string :=
  fold_right String.append EmptyString reads.

(** The events of a list of complete lines, in order. *)
Fixpoint events_of (JSON_parse : string -> option TTS.TTSStreamEvent)
  (lines : list string) : list TTS.TTSStreamEvent :=
  match lines with
  | [] => []
  | line :: rest =>
      match event_of JSON_parse line with
      | Some event => event :: events_of JSON_parse rest
      | None => events_of JSON_parse rest
      end
  end.

(** The record of a payload: the line [data: <payload>]. *)
Definition record (payload : string) : string := String.append "data: " payload.

(** What becomes of a complete line, said without the loop's own code: a
    record whose payload parses is handed on as the event parsed, a record
    whose payload does not parse is rejected, and a line that is no record is
    ignored. *)
Inductive Fate :=
| handed (event : TTS.TTSStreamEvent)
| rejected
| ignored.

Definition fate_of (JSON_parse : string -> option TTS.TTSStreamEvent)
  (line : string) (fate : Fate) : Prop :=
  match fate with
  | handed event =>
      exists payload, line = record payload /\ JSON_parse payload = Some event
  | rejected =>
      exists payload, line = record payload /\ JSON_parse payload = None
  | ignored => forall payload, line <> record payload
  end.

(** The events handed on, in order, and the console's complaints. *)
Fixpoint handed_on (fates : list Fate) : list TTS.TTSStreamEvent :=
  match fates with
  | [] => []
  | handed event :: rest => event :: handed_on rest
  | _ :: rest => handed_on rest
  end.

Fixpoint complaints (fates : list Fate) : list TTS.Note :=
  match fates with
  | [] => []
  | rejected :: rest =>
      TTS.console_error "Failed to parse event data" :: complaints rest
  | _ :: rest => complaints rest
  end.

(** The callback applied to a list of events, one after the other. *)
Definition hand_over {Caller : Type}
  (callback : TTS.TTSStreamEvent -> Caller -> Caller)
  (events : list TTS.TTSStreamEvent) (caller : Caller) : Caller :=
  fold_left (fun caller event => callback event caller) events caller.

(** The record [data: {"type":"<name>"}]. *)
Definition data_line (name : string) : string :=
  String.append "data: "
    (String.append type_key (String.append name (String quote "}"))).



End Stream.

(** ** [slideService.waitForPPTConversion] *)

Module Slide.

Record SlideInfo := {
  slide_id : string;
  page_number : Z;
  title : string;
  content : string;
  image_url : option string;
  thumbnail_url : option string;
  slide_notes : option string
}.

Record SlideContent := {
  document_id : string;
  filename : string;
  file_path : string;
  download_url : string;
  slides : option (list SlideInfo)
}.

(** What the network and the clock do during one turn of the loop: how long
    [getDocumentSlides] takes and what it gives ([None]: it rejects), how long
    [checkImageExists] takes and what it answers for a URL (it catches its own
    errors and answers [false]), and by how much the 3-second timer is late. *)
Record Poll := {
  slides_took : Z;
  slides_response : option SlideContent;
  image_took : Z;
  imageExists : string -> bool;
  timer_late : Z
}.

Inductive Outcome :=
| resolved (slideData : SlideContent)
| rejected (message : string).

Definition checkInterval : Z := 3000.

Definition timeout_message : string := "PPT conversion timed out".

(** The [while (Date.now() - startTime < maxWaitTime)] loop.  [now] is what
    [Date.now()] reads at the loop test, [n] counts the turns.  The result
    carries the clock reading at which the promise settles; [None] only when
    the fuel runs out. *)
Fixpoint wait_loop (world : nat -> Poll) (fuel : nat) (n : nat)
  (now startTime maxWaitTime : Z) : option (Outcome * Z) :=
  match fuel with
  | O => None
  | S fuel' =>
      if now - startTime <? maxWaitTime then
        let p := world n in
        let now := now + slides_took p in
        let sleep_then_loop (now : Z) :=
          wait_loop world fuel' (S n)
                    (now + checkInterval + timer_late p)
                    startTime maxWaitTime in
        match slides_response p with
        | None => sleep_then_loop now
        | Some slideData =>
            match slides slideData with
            | Some (firstSlide :: _) =>
                match TTS.truthy (image_url firstSlide) with
                | Some url =>
                    let now := now + image_took p in
                    if imageExists p url then Some (resolved slideData, now)
                    else sleep_then_loop now
                | None => sleep_then_loop now
                end
            | _ => sleep_then_loop now
            end
        end
      else Some (rejected timeout_message, now)
  end.

(** [waitForPPTConversion(documentId, maxWaitTime)] called when the clock
    reads [t0]; the document id only selects the world. *)
Definition waitForPPTConversion (world : nat -> Poll) (fuel : nat)
  (maxWaitTime : Z) (t0 : Z) : option (Outcome * Z) :=
  wait_loop world fuel 0%nat t0 t0 maxWaitTime.


(** Enough turns to pass any deadline. *)
Definition enough (maxWaitTime : Z) : nat :=
  S (S (Z.to_nat (maxWaitTime / checkInterval))).


End Slide.

(** ** The single [<audio>] element of [DocumentWorkflow] and
    [PPTPresentation] *)

Module Element.

(** The one element a component mounts; [src] is unset until first used. *)
Record Audio (Url : Type) := {
  src : option Url;
  paused : bool;
  currentTime : Z
}.

Arguments src {Url}.
Arguments paused {Url}.
Arguments currentTime {Url}.

(** [element.src = url]: the element loads the new resource, which pauses
    it and rewinds it. *)
Definition set_src {Url} (url : Url) (a : Audio Url) : Audio Url :=
  {| src := Some url; paused := true; currentTime := 0 |}.

Definition pause {Url} (a : Audio Url) : Audio Url :=
  {| src := src a; paused := true; currentTime := currentTime a |}.

Definition rewind {Url} (a : Audio Url) : Audio Url :=
  {| src := src a; paused := paused a; currentTime := 0 |}.

(** [element.play()] when the promise resolves. *)
Definition playing {Url} (a : Audio Url) : Audio Url :=
  {| src := src a; paused := false; currentTime := currentTime a |}.

End Element.

(** ** [DocumentWorkflow] *)

Module Workflow.

Record AudioSegment := {
  index : Z;
  text : string;
  audioData : string;
  duration : option Z;
  playing : option bool
}.

Record PlaybackState := {
  isPlaying : bool;
  currentSegment : Z;
  totalSegments : Z;
  currentTime : Z;
  totalTime : Z;
  volume : Z;
  speed : Z
}.

Record State := {
  audioSegments : list AudioSegment;      (* workflowState.tts.audioSegments *)
  tts_currentSegment : Z;                 (* workflowState.tts.currentSegment *)
  tts_totalSegments : Z;                  (* workflowState.tts.totalSegments *)
  playbackState : PlaybackState;
  audioRef : option (Element.Audio nat);  (* src: index into [blobs] *)
  currentAudioIndex : Z;
  blobs : list TTS.Blob;
  notes : list TTS.Note
}.

Definition with_playback (f : PlaybackState -> PlaybackState) (st : State) : State :=
  {| audioSegments := audioSegments st;
     tts_currentSegment := tts_currentSegment st;
     tts_totalSegments := tts_totalSegments st;
     playbackState := f (playbackState st);
     audioRef := audioRef st; currentAudioIndex := currentAudioIndex st;
     blobs := blobs st; notes := notes st |}.

Definition with_audio (a : Element.Audio nat) (st : State) : State :=
  {| audioSegments := audioSegments st;
     tts_currentSegment := tts_currentSegment st;
     tts_totalSegments := tts_totalSegments st;
     playbackState := playbackState st;
     audioRef := Some a; currentAudioIndex := currentAudioIndex st;
     blobs := blobs st; notes := notes st |}.

Definition with_index (i : Z) (st : State) : State :=
  {| audioSegments := audioSegments st;
     tts_currentSegment := tts_currentSegment st;
     tts_totalSegments := tts_totalSegments st;
     playbackState := playbackState st;
     audioRef := audioRef st; currentAudioIndex := i;
     blobs := blobs st; notes := notes st |}.

Definition with_blob (b : TTS.Blob) (st : State) : State :=
  {| audioSegments := audioSegments st;
     tts_currentSegment := tts_currentSegment st;
     tts_totalSegments := tts_totalSegments st;
     playbackState := playbackState st;
     audioRef := audioRef st; currentAudioIndex := currentAudioIndex st;
     blobs := blobs st ++ [b]; notes := notes st |}.

Definition note (n : TTS.Note) (st : State) : State :=
  {| audioSegments := audioSegments st;
     tts_currentSegment := tts_currentSegment st;
     tts_totalSegments := tts_totalSegments st;
     playbackState := playbackState st;
     audioRef := audioRef st; currentAudioIndex := currentAudioIndex st;
     blobs := blobs st; notes := notes st ++ [n] |}.

(** [array[index]] for a JavaScript number that is an integer. *)
Definition at_index {A} (l : list A) (i : Z) : option A :=
  if i <? 0 then None else l !! Z.to_nat i.

(** The template literal [`第${segment}段`], for a segment number that is an
    integer (and below 10^21 in size, which JavaScript prints in full). *)
Definition segment_text (segment : Z) : string :=
  String.append "第"
    (String.append (NilZero.string_of_int (Z.to_int segment)) "段").

(** The [onAudioChunk] callback of [handleTTSSynthesis]: one more segment
    has arrived. *)
Definition onAudioChunk (audioData : string) (segment total : Z) (st : State)
  : State :=
  {| audioSegments := audioSegments st ++
       [{| index := segment - 1; text := segment_text segment;
           audioData := audioData;
           duration := None; playing := None |}];
     tts_currentSegment := segment;
     tts_totalSegments := total;
     playbackState := playbackState st;
     audioRef := audioRef st; currentAudioIndex := currentAudioIndex st;
     blobs := blobs st; notes := notes st |}.

Definition failed (st : State) : State :=
  note (TTS.console_error "Audio play error")
       (note (TTS.message_error "audio playback failed") st).

Definition playAudioSegment (play_ok : bool) (index : Z) (st : State) : State :=
  match at_index (audioSegments st) index, audioRef st with
  | Some segment, Some audio =>
      match Base64.atob (audioData segment) with
      | None => failed st
      | Some bytes =>
          let audioBlob := {| TTS.blob_bytes := TTS.charCodes_to_Uint8Array bytes;
                              TTS.blob_type := "audio/wav" |} in
          let audioUrl := length (blobs st) in
          let st := with_blob audioBlob st in
          let st := with_audio (Element.set_src audioUrl audio) st in
          if play_ok then
            let st := with_audio (Element.playing (Element.set_src audioUrl audio)) st in
            let st := with_playback (fun prev =>
              {| isPlaying := true; currentSegment := index;
                 totalSegments := totalSegments prev;
                 currentTime := currentTime prev; totalTime := totalTime prev;
                 volume := volume prev; speed := speed prev |}) st in
            with_index index st
          else failed st
      end
  | _, _ => st
  end.

(** The [onEnded] handler of the hidden [<audio>] element. *)
Definition onEnded (play_ok : bool) (st : State) : State :=
  let nextIndex := currentAudioIndex st + 1 in
  if nextIndex <? Z.of_nat (length (audioSegments st)) then
    playAudioSegment play_ok nextIndex st
  else
    with_playback (fun prev =>
      {| isPlaying := false; currentSegment := 0;
         totalSegments := totalSegments prev;
         currentTime := currentTime prev; totalTime := totalTime prev;
         volume := volume prev; speed := speed prev |}) st.

(** The browser ends the playing element (which pauses it) and calls the
    handler. *)
Definition ended (play_ok : bool) (st : State) : State :=
  match audioRef st with
  | Some a => onEnded play_ok (with_audio (Element.pause a) st)
  | None => st
  end.

(** The next segment can be started: it has arrived, the element is
    mounted, its data decodes and the browser lets it play. *)
Definition startable (play_ok : bool) (st : State) : bool :=
  match at_index (audioSegments st) (currentAudioIndex st + 1), audioRef st with
  | Some segment, Some _ =>
      match Base64.atob (audioData segment) with
      | Some _ => play_ok
      | None => false
      end
  | _, _ => false
  end.

Definition element_paused (st : State) : bool :=
  match audioRef st with
  | Some a => Element.paused a
  | None => true
  end.

(** Two segments have arrived and the second (index 1) has just played. *)
Definition second_of_two_played : State :=
  {| audioSegments :=
       [{| index := 0; text := "第1段"; audioData := "SGVsbG8=";
           duration := None; playing := None |};
        {| index := 1; text := "第2段"; audioData := "V29ybGQ=";
           duration := None; playing := None |}];
     tts_currentSegment := 2; tts_totalSegments := 3;
     playbackState := {| isPlaying := true; currentSegment := 1;
                         totalSegments := 0; currentTime := 0; totalTime := 0;
                         volume := 80; speed := 1 |};
     audioRef := Some {| Element.src := Some 1%nat; Element.paused := false;
                         Element.currentTime := 4 |};
     currentAudioIndex := 1;
     blobs := [{| TTS.blob_bytes := [72; 101; 108; 108; 111];
                  TTS.blob_type := "audio/wav" |};
               {| TTS.blob_bytes := [87; 111; 114; 108; 100];
                  TTS.blob_type := "audio/wav" |}];
     notes := [] |}.

End Workflow.

(** ** [PPTPresentation] *)

Module PPT.

(** [slideService.getSlideAudioUrl(documentId, pageNumber)] *)
Record AudioUrl := { of_document : string; of_page : Z }.

Definition getSlideAudioUrl (documentId : string) (pageNumber : Z) : AudioUrl :=
  {| of_document := documentId; of_page := pageNumber |}.

Record SlideData := {
  slide_id : string;
  title : string;
  content : string;
  image_url : option string
}.

(** The two nested [setTimeout] callbacks of [handleAudioEnded], each with
    the [nextPage] it closes over. *)
Inductive Timer :=
| show_next (nextPage : Z)
| play_next (nextPage : Z).

Record State := {
  documentId : string;
  currentSlideIndex : Z;
  slides : list SlideData;
  isPlayingAudio : bool;
  currentAudioPage : option Z;
  audioRef : option (Element.Audio AudioUrl);
  timers : list (Z * Timer);
  notes : list TTS.Note
}.

Definition setCurrentSlideIndex (i : Z) (st : State) : State :=
  {| documentId := documentId st; currentSlideIndex := i; slides := slides st;
     isPlayingAudio := isPlayingAudio st;
     currentAudioPage := currentAudioPage st; audioRef := audioRef st;
     timers := timers st; notes := notes st |}.

Definition setPlaying (playing : bool) (page : option Z) (st : State) : State :=
  {| documentId := documentId st; currentSlideIndex := currentSlideIndex st;
     slides := slides st; isPlayingAudio := playing; currentAudioPage := page;
     audioRef := audioRef st; timers := timers st; notes := notes st |}.

Definition with_audio (a : Element.Audio AudioUrl) (st : State) : State :=
  {| documentId := documentId st; currentSlideIndex := currentSlideIndex st;
     slides := slides st; isPlayingAudio := isPlayingAudio st;
     currentAudioPage := currentAudioPage st; audioRef := Some a;
     timers := timers st; notes := notes st |}.

Definition with_timers (ts : list (Z * Timer)) (st : State) : State :=
  {| documentId := documentId st; currentSlideIndex := currentSlideIndex st;
     slides := slides st; isPlayingAudio := isPlayingAudio st;
     currentAudioPage := currentAudioPage st; audioRef := audioRef st;
     timers := ts; notes := notes st |}.

Definition setTimeout (t : Timer) (delay : Z) (st : State) : State :=
  with_timers (timers st ++ [(delay, t)]) st.

Definition note (n : TTS.Note) (st : State) : State :=
  {| documentId := documentId st; currentSlideIndex := currentSlideIndex st;
     slides := slides st; isPlayingAudio := isPlayingAudio st;
     currentAudioPage := currentAudioPage st; audioRef := audioRef st;
     timers := timers st; notes := notes st ++ [n] |}.

(** [handleAudioEnded], with the [currentSlideIndex] and [slides] of the
    render it belongs to, which are those of the state. *)
Definition handleAudioEnded (st : State) : State :=
  let seen_index := currentSlideIndex st in
  let st := setPlaying false None st in
  let nextPage := seen_index + 1 in
  if nextPage <? Z.of_nat (length (slides st))
  then setTimeout (show_next nextPage) 1000 st
  else st.

(** A timer's callback.  [play_ok]: whether [play()] resolves. *)
Definition fire (t : Timer) (play_ok : bool) (st : State) : State :=
  match t with
  | show_next nextPage =>
      setTimeout (play_next nextPage) 500 (setCurrentSlideIndex nextPage st)
  | play_next nextPage =>
      let nextPageNumber := nextPage + 1 in
      let audioUrl := getSlideAudioUrl (documentId st) nextPageNumber in
      match audioRef st with
      | Some a =>
          let st := with_audio (Element.set_src audioUrl a) st in
          if play_ok then
            setPlaying true (Some nextPageNumber)
              (with_audio (Element.playing (Element.set_src audioUrl a)) st)
          else note (TTS.console_log "no audio for the next page") st
      | None => st
      end
  end.

(** What a run of the timer queue leaves: the page, the number of calls of
    [play()] made, and the timers that fired, each with the time it fired
    at. *)
Record Run := {
  final : State;
  attempts : nat;
  fired : list (Z * Timer)
}.

(** The browser's timer queue, run until it is empty, for a queue whose
    timers were set one by the other, as those of [handleAudioEnded] are: the
    timer at the head was set at time [now] (by the handler, or by the
    callback that ran last) and fires [delay] milliseconds later, or, the
    browser being free to be late, [late k] milliseconds after that for the
    [k]-th firing.  [ready k] tells whether the [k]-th call of [play()]
    resolves. *)
Fixpoint run (fuel : nat) (ready : nat -> bool) (late : nat -> Z)
  (attempt firing : nat) (now : Z) (st : State) : Run :=
  match fuel, timers st with
  | S fuel', (delay, t) :: rest =>
      let now := now + delay + late firing in
      let st := with_timers rest st in
      let '(attempt, st) :=
        match t, audioRef st with
        | play_next _, Some _ => (S attempt, fire t (ready attempt) st)
        | _, _ => (attempt, fire t true st)
        end in
      let r := run fuel' ready late attempt (S firing) now st in
      {| final := final r; attempts := attempts r;
         fired := (now, t) :: fired r |}
  | _, _ => {| final := st; attempts := attempt; fired := [] |}
  end.

(** [playCurrentSlideAudio], with the state of its render. *)
Definition playCurrentSlideAudio (play_ok : bool) (st : State) : State :=
  let pageNumber := currentSlideIndex st + 1 in
  if isPlayingAudio st &&
     match currentAudioPage st with Some p => p =? pageNumber | None => false end
  then
    match audioRef st with
    | Some a => setPlaying false None (with_audio (Element.pause a) st)
    | None => st
    end
  else
    match audioRef st with
    | Some a =>
        let a := Element.rewind (Element.pause a) in
        let audioUrl := getSlideAudioUrl (documentId st) pageNumber in
        let st := with_audio (Element.set_src audioUrl a) st in
        if play_ok then
          setPlaying true (Some pageNumber)
            (with_audio (Element.playing (Element.set_src audioUrl a)) st)
        else
          note (TTS.message_warning "page audio failed, maybe not generated")
               (note (TTS.console_error "play failed") st)
    | None => st
    end.

Definition element_paused (st : State) : bool :=
  match audioRef st with
  | Some a => Element.paused a
  | None => true
  end.

Definition slide (name : string) : SlideData :=
  {| slide_id := name; title := name; content := name; image_url := None |}.

(** Three slides; the audio of the second page (index 1) has just played. *)
Definition second_of_three_played : State :=
  {| documentId := "doc"; currentSlideIndex := 1;
     slides := [slide "1"; slide "2"; slide "3"];
     isPlayingAudio := true; currentAudioPage := Some 2;
     audioRef := Some {| Element.src := Some (getSlideAudioUrl "doc" 2);
                         Element.paused := true; Element.currentTime := 9 |};
     timers := []; notes := [] |}.

(** The audio of the next page is not there at the first try and would be
    at any later one. *)
Definition ready_after_first_try (attempt : nat) : bool :=
  negb (Nat.eqb attempt 0).

(** Timers that fire exactly when they are due. *)
Definition on_time : nat -> Z := fun _ => 0.

(** Six slides, the second (index 1) on show, nothing played yet. *)
Definition six_slides_second_on_show : State :=
  {| documentId := "doc"; currentSlideIndex := 1;
     slides := [slide "1"; slide "2"; slide "3"; slide "4"; slide "5";
                slide "6"];
     isPlayingAudio := false; currentAudioPage := None;
     audioRef := Some {| Element.src := None; Element.paused := true;
                         Element.currentTime := 0 |};
     timers := []; notes := [] |}.

(** The browser ends the playing element (which pauses it) and calls the
    handler. *)
Definition ended (st : State) : State :=
  match audioRef st with
  | Some a => handleAudioEnded (with_audio (Element.pause a) st)
  | None => st
  end.

End PPT.

(** ** The other controls of the [TextToSpeech] page *)

Module Controls.

Import TTS.

(** [if (ref.current) { ref.current.pause(); ref.current.currentTime = 0 }] *)
Definition stop_ref (ref : option nat) (st : State) : State :=
  match ref with
  | Some h => set_currentTime h 0 (pause h st)
  | None => st
  end.

Definition stopAudio (st : State) : State :=
  let st := stop_ref (audioRef st) st in
  let st := stop_ref (streamingAudioRef st) st in
  setStreamingAudio None (setCurrentPlaying None st).

Definition clearResults (st : State) : State :=
  let st := stop_ref (audioRef st) st in
  let st := stop_ref (streamingAudioRef st) st in
  let st := setResults (fun _ => []) st in
  let st := setCurrentPlaying None st in
  let st := setStreamingStatus status_none st in
  let st := setStreamingAudio None st in
  note (message_success "all results cleared") st.

(** [prev.filter(result => result.id !== id)] *)
Definition without (resultId : string) (rs : list SynthesisResult)
  : list SynthesisResult :=
  List.filter (fun result => negb (String.eqb (id result) resultId)) rs.

Definition deleteResult (r : Render) (resultId : string) (st : State) : State :=
  let st := if is_id (seen_currentPlaying r) resultId then stopAudio st else st in
  let st := setResults (without resultId) st in
  note (message_success "deleted") st.

(** [ttsService.createAudioUrlFromBase64(base64Data, format)] over a blob
    store; [None] is the exception [atob] throws, which nothing catches. *)
Definition createAudioUrlFromBase64 (base64Data format : string)
  (store : list Blob) : option (Url * list Blob) :=
  let mimeType := if String.eqb format "mp3" then "audio/mpeg" else "audio/wav" in
  match Base64.atob base64Data with
  | Some byteCharacters =>
      let byteArray := charCodes_to_Uint8Array byteCharacters in
      Some (BlobUrl (length store),
            store ++ [{| blob_bytes := byteArray; blob_type := mimeType |}])
  | None => None
  end.

(** No element is playing. *)
Definition silent (st : State) : Prop :=
  forall h a, audios st !! h = Some a -> paused a = true.

(** The chunks of [after] are those of [before] followed by more, and the
    id is the same. *)
Definition grown (before after : SynthesisResult) : Prop :=
  id after = id before /\
  exists more,
    default [] (audio_chunks after) = default [] (audio_chunks before) ++ more.

(** The page's callback for one synthesis. *)
Definition page_callback (r : Render) (play_ok : bool) (resultId : string)
  : TTSStreamEvent -> State -> State :=
  fun event st => handleStreamEvent r play_ok event resultId st.

(** A page where the first chunk of ["r1"] plays from the streaming element
    while the older result plays from the other one: both ref cells are in
    use. *)
Definition two_elements : State :=
  {| results := [newResult "r1" "hello world" "douyin" "v" "t"; older];
     currentPlaying := Some "r0"; streamingStatus := status_connecting;
     streamingAudio := Some "r1"; audioRef := Some 1%nat;
     streamingAudioRef := Some 0%nat;
     audios := [{| src := BlobUrl 0; paused := false; currentTime := 5;
                   handlers := FromPlayStreaming "r1" |};
                {| src := HttpUrl "http://host:8000/api/tts/download/r0.wav";
                   paused := false; currentTime := 2;
                   handlers := FromPlayAudio "r0" |}];
     blobs := [{| blob_bytes := [72; 101; 108; 108; 111];
                  blob_type := "audio/wav" |}];
     timers := []; notes := [] |}.

(** What the outer [catch] of [synthesizeTextStreamAdvanced] is given,
    for the exchanges that end in it. *)
Definition failure_of (response : Stream.Response) : option string :=
  match response with
  | Stream.fetch_rejected why => Some why
  | Stream.not_ok status => Some (String.append "Error: HTTP " status)
  | Stream.no_body => Some "Error: Response body is not readable"
  | Stream.body _ (Stream.read_failed why) => Some why
  | Stream.body _ Stream.done => None
  end.

(** The events the page has been handed when the exchange fails: those of
    the complete lines of what was read before a read failed, and none if no
    body came. *)
Definition received_before_failure
  (JSON_parse : string -> option TTSStreamEvent) (response : Stream.Response)
  : list TTSStreamEvent :=
  match response with
  | Stream.body reads _ =>
      Stream.events_of JSON_parse
        (removelast (Stream.split_newline (Stream.join reads)))
  | _ => []
  end.

(** The JSON text of an [audio_chunk] event with the given sequence number
    and payload, as the server writes it. *)
Definition quoted (s : string) : string :=
  String Stream.quote (String.append s (String Stream.quote EmptyString)).

Definition chunk_json (sequence payload : string) : string :=
  String.append "{"
   (String.append (quoted "type") (String.append ":"
   (String.append (quoted "audio_chunk") (String.append ","
   (String.append (quoted "session_id") (String.append ":"
   (String.append (quoted "s") (String.append ","
   (String.append (quoted "data") (String.append ":"
   (String.append (quoted payload) (String.append ","
   (String.append (quoted "chunk_count") (String.append ":"
   (String.append sequence "}"))))))))))))))).

(** [JSON.parse] on the two texts the example below needs; anything else in
    the example is cut-off JSON, which [JSON.parse] rejects. *)
Definition parse_two_chunks (s : string) : option TTSStreamEvent :=
  if String.eqb s (chunk_json "1" "SGVsbG8=") then Some (chunk_event 1 "SGVsbG8=")
  else if String.eqb s (chunk_json "2" "V29ybGQ=")
       then Some (chunk_event 2 "V29ybGQ=")
       else None.

(** Two audio records and the beginning of a third, in two reads that cut
    the first record; then the connection breaks. *)
Definition two_chunks_then_cut : list string :=
  let text :=
    String.append
      (Stream.unlines [Stream.record (chunk_json "1" "SGVsbG8=");
                       Stream.record (chunk_json "2" "V29ybGQ=")])
      "data: {" in
  [substring 0 40 text; substring 40 (String.length text - 40) text].

End Controls.

(** ** [DocumentService.synthesizeSpeechStream] *)

Module DocStream.

(** What the body of the inner [try] finds in a [data: ] line: [None] is an
    exception there (a [SyntaxError] of [JSON.parse], or a [TypeError] for a
    payload such as [null]); an audio record is taken with the three fields
    the signature of [onAudioChunk] names. *)
Inductive Record_ :=
| audio (data : string) (segment total : Z)
| failure (message : option string)
| unrelated.

Section Service.

Variable JSON_parse : string -> option Record_.

(** The caller's state and its three callbacks ([onError?.] and
    [onComplete?.] of an absent callback are the identity). *)
Variable Caller : Type.
Variable onAudioChunk : string -> Z -> Z -> Caller -> Caller.
Variable onError : option string -> Caller -> Caller.
Variable onComplete : Caller -> Caller.

(** The caller's state and the texts of [console.warn]. *)
Definition Env : Type := Caller * list string.

(** The [for (const line of lines)] loop; [true] is the [return] after an
    error record, which ends the whole function. *)
Fixpoint handle_lines (lines : list string) (env : Env) : Env * bool :=
  match lines with
  | [] => (env, false)
  | line :: rest =>
      if Stream.startsWith_data line then
        match JSON_parse (Stream.slice 6 line) with
        | Some (audio data segment total) =>
            handle_lines rest (onAudioChunk data segment total (fst env), snd env)
        | Some (failure message) => ((onError message (fst env), snd env), true)
        | Some unrelated => handle_lines rest env
        | None =>
            handle_lines rest
              (fst env, snd env ++ ["response data not parsed"])
        end
      else handle_lines rest env
  end.

(** The [while (true)] loop over [reader.read()]. *)
Fixpoint read_loop (reads : list string) (buffer : string) (env : Env)
  : Env * bool :=
  match reads with
  | [] => (env, false)
  | value :: rest =>
      let buffer := String.append buffer value in
      let lines := Stream.split_newline buffer in
      let buffer := default EmptyString (last lines) in
      let lines := removelast lines in
      let '(env, returned) := handle_lines lines env in
      if returned then (env, true) else read_loop rest buffer env
  end.

(** The outer [catch], given the error's message. *)
Definition caught (message : string) (env : Env) : Env :=
  (onError (Some message) (fst env), snd env).

Definition synthesizeSpeechStream (response : Stream.Response) (env : Env) : Env :=
  match response with
  | Stream.fetch_rejected why => caught why env
  | Stream.not_ok status =>
      caught (String.append "HTTP error! status: " status) env
  | Stream.no_body => caught "无法获取响应流" env
  | Stream.body reads ending =>
      let '(env, returned) := read_loop reads EmptyString env in
      if returned then env
      else match ending with
           | Stream.done => (onComplete (fst env), snd env)
           | Stream.read_failed why => caught why env
           end
  end.

End Service.

(** The calls the service makes, for a caller that writes them down. *)
Inductive Call :=
| chunk (data : string) (segment total : Z)
| errored (message : option string)
| completed.

Definition is_terminal (c : Call) : bool :=
  match c with
  | chunk _ _ _ => false
  | _ => true
  end.

Definition calls (JSON_parse : string -> option Record_)
  (response : Stream.Response) : list Call :=
  fst (synthesizeSpeechStream JSON_parse (list Call)
         (fun data segment total seen => seen ++ [chunk data segment total])
         (fun message seen => seen ++ [errored message])
         (fun seen => seen ++ [completed])
         response ([], [])).

(** The audio records of the lines that come before the first error record,
    and that error record's message if there is one. *)
Fixpoint until_failure (JSON_parse : string -> option Record_)
  (lines : list string) : list Call * option (option string) :=
  match lines with
  | [] => ([], None)
  | line :: rest =>
      match (if Stream.startsWith_data line
             then JSON_parse (Stream.slice 6 line) else None) with
      | Some (audio data segment total) =>
          let '(chunks, stop) := until_failure JSON_parse rest in
          (chunk data segment total :: chunks, stop)
      | Some (failure message) => ([], Some message)
      | _ => until_failure JSON_parse rest
      end
  end.

(** The lines of a text that are closed by a newline. *)
Definition complete_lines (text : string) : list string :=
  removelast (Stream.split_newline text).

(** A list of calls made on some caller. *)
Definition replay {Caller : Type}
  (onAudioChunk : string -> Z -> Z -> Caller -> Caller)
  (onError : option string -> Caller -> Caller)
  (onComplete : Caller -> Caller) (cs : list Call) (caller : Caller) : Caller :=
  fold_left (fun caller c =>
               match c with
               | chunk data segment total => onAudioChunk data segment total caller
               | errored message => onError message caller
               | completed => onComplete caller
               end) cs caller.

(** The one call that ends a stream whose lines held no error record. *)
Definition last_call (ending : Stream.Ending) : Call :=
  match ending with
  | Stream.done => completed
  | Stream.read_failed why => errored (Some why)
  end.

(** A reader of the records [audio <segment> <data>] and [error], standing
    in for [JSON.parse] where an example needs one to run. *)
Definition parse_example (payload : string) : option Record_ :=
  if String.eqb payload "error" then Some (failure (Some "provider down"))
  else if String.eqb payload "1" then Some (audio "SGVsbG8=" 1 2)
  else if String.eqb payload "2" then Some (audio "V29ybGQ=" 2 2)
  else if String.eqb payload "{}" then Some unrelated
  else None.

Definition example_text : string :=
  Stream.unlines ["data: 1"; ": keep-alive"; "data: {oops"; "data: 2"].

Definition example_reads : list string :=
  [substring 0 5 example_text; substring 5 20 example_text;
   substring 25 (String.length example_text - 25) example_text].

End DocStream.

(** ** [DocumentWorkflow.handleTTSSynthesis] and auto-play *)

Module Synthesis.

(** The workflow's TTS step: the segments and the player are those of
    [Workflow.State]; [completed], [streaming] and [error] are the other
    fields of [workflowState.tts], and [loading_tts] is [loading.tts]. *)
Record Page := {
  workflow : Workflow.State;
  tts_completed : bool;
  tts_streaming : bool;
  tts_error : option string;
  loading_tts : bool
}.

Definition with_workflow (f : Workflow.State -> Workflow.State) (p : Page) : Page :=
  {| workflow := f (workflow p); tts_completed := tts_completed p;
     tts_streaming := tts_streaming p; tts_error := tts_error p;
     loading_tts := loading_tts p |}.

Definition setStepLoading_tts (b : bool) (p : Page) : Page :=
  {| workflow := workflow p; tts_completed := tts_completed p;
     tts_streaming := tts_streaming p; tts_error := tts_error p;
     loading_tts := b |}.

(** [updateWorkflowState(TTS, { streaming: true, audioSegments: [],
    currentSegment: 0, totalSegments: 0 })] *)
Definition begin (p : Page) : Page :=
  {| workflow :=
       {| Workflow.audioSegments := [];
          Workflow.tts_currentSegment := 0;
          Workflow.tts_totalSegments := 0;
          Workflow.playbackState := Workflow.playbackState (workflow p);
          Workflow.audioRef := Workflow.audioRef (workflow p);
          Workflow.currentAudioIndex := Workflow.currentAudioIndex (workflow p);
          Workflow.blobs := Workflow.blobs (workflow p);
          Workflow.notes := Workflow.notes (workflow p) |};
     tts_completed := tts_completed p; tts_streaming := true;
     tts_error := tts_error p; loading_tts := loading_tts p |}.

Definition onAudioChunk (audioData : string) (segment total : Z) (p : Page)
  : Page :=
  with_workflow (Workflow.onAudioChunk audioData segment total) p.

Definition onError (error : option string) (p : Page) : Page :=
  {| workflow := Workflow.note (TTS.message_error "TTS synthesis failed")
                   (workflow p);
     tts_completed := tts_completed p; tts_streaming := false;
     tts_error := error; loading_tts := loading_tts p |}.

Definition onComplete (p : Page) : Page :=
  let w := workflow p in
  let w := Workflow.with_playback (fun prev =>
    {| Workflow.isPlaying := Workflow.isPlaying prev;
       Workflow.currentSegment := Workflow.currentSegment prev;
       Workflow.totalSegments := Z.of_nat (length (Workflow.audioSegments w));
       Workflow.currentTime := Workflow.currentTime prev;
       Workflow.totalTime := Workflow.totalTime prev;
       Workflow.volume := Workflow.volume prev;
       Workflow.speed := Workflow.speed prev |}) w in
  {| workflow := Workflow.note (TTS.message_success "TTS synthesis complete") w;
     tts_completed := true; tts_streaming := false;
     tts_error := None; loading_tts := loading_tts p |}.

(** [handleTTSSynthesis].  [content_blank] is whether
    [generatedContent.trim()] is empty.  The service catches everything that
    can go wrong in it, so the handler's own [catch] has nothing to catch. *)
Definition handleTTSSynthesis (content_blank : bool)
  (JSON_parse : string -> option DocStream.Record_)
  (response : Stream.Response) (p : Page) : Page :=
  if content_blank then
    with_workflow (Workflow.note (TTS.message_warning "generate the script first")) p
  else
    let p := setStepLoading_tts true p in
    let p := begin p in
    let p := fst (DocStream.synthesizeSpeechStream JSON_parse Page
                    onAudioChunk onError onComplete response (p, [])) in
    setStepLoading_tts false p.

(** The segment an audio record stands for: its number less one as index,
    the text made of its number, and its data. *)
Definition segment_of (c : DocStream.Call) : option Workflow.AudioSegment :=
  match c with
  | DocStream.chunk data segment total =>
      Some {| Workflow.index := segment - 1;
              Workflow.text := Workflow.segment_text segment;
              Workflow.audioData := data; Workflow.duration := None;
              Workflow.playing := None |}
  | _ => None
  end.

Fixpoint segments_of (cs : list DocStream.Call) : list Workflow.AudioSegment :=
  match cs with
  | [] => []
  | c :: rest =>
      match segment_of c with
      | Some s => s :: segments_of rest
      | None => segments_of rest
      end
  end.

(** A workflow page on which nothing has been synthesized yet. *)
Definition blank_page : Page :=
  {| workflow :=
       {| Workflow.audioSegments := []; Workflow.tts_currentSegment := 0;
          Workflow.tts_totalSegments := 0;
          Workflow.playbackState :=
            {| Workflow.isPlaying := false; Workflow.currentSegment := 0;
               Workflow.totalSegments := 0; Workflow.currentTime := 0;
               Workflow.totalTime := 0; Workflow.volume := 80;
               Workflow.speed := 1 |};
          Workflow.audioRef :=
            Some {| Element.src := None; Element.paused := true;
                    Element.currentTime := 0 |};
          Workflow.currentAudioIndex := 0;
          Workflow.blobs := []; Workflow.notes := [] |};
     tts_completed := false; tts_streaming := false; tts_error := None;
     loading_tts := false |}.

End Synthesis.

Module Autoplay.

(** [pauseAudio] *)
Definition pauseAudio (st : Workflow.State) : Workflow.State :=
  match Workflow.audioRef st with
  | Some a =>
      Workflow.with_playback (fun prev =>
        {| Workflow.isPlaying := false;
           Workflow.currentSegment := Workflow.currentSegment prev;
           Workflow.totalSegments := Workflow.totalSegments prev;
           Workflow.currentTime := Workflow.currentTime prev;
           Workflow.totalTime := Workflow.totalTime prev;
           Workflow.volume := Workflow.volume prev;
           Workflow.speed := Workflow.speed prev |})
        (Workflow.with_audio (Element.pause a) st)
  | None => st
  end.

(** The element plays to its end [k] times in a row, the browser letting
    every [play()] through. *)
Fixpoint ended_times (k : nat) (st : Workflow.State) : Workflow.State :=
  match k with
  | O => st
  | S k' => Workflow.ended true (ended_times k' st)
  end.

(** Every segment's data decodes. *)
Definition decodable (st : Workflow.State) : Prop :=
  Forall (fun segment => is_Some (Base64.atob (Workflow.audioData segment)))
         (Workflow.audioSegments st).

(** The bytes the element is playing from. *)
Definition source_bytes (st : Workflow.State) : option (list Z) :=
  match Workflow.audioRef st with
  | Some a =>
      match Element.src a with
      | Some n => option_map TTS.blob_bytes (Workflow.blobs st !! n)
      | None => None
      end
  | None => None
  end.

(** The decoded bytes of the segment at a position of the list. *)
Definition segment_bytes (st : Workflow.State) (i : Z) : option (list Z) :=
  match Workflow.at_index (Workflow.audioSegments st) i with
  | Some segment => Base64.atob (Workflow.audioData segment)
  | None => None
  end.

(** Three segments have arrived and the first is playing. *)
Definition first_of_three_playing : Workflow.State :=
  {| Workflow.audioSegments :=
       [{| Workflow.index := 0; Workflow.text := "第1段";
           Workflow.audioData := "SGVsbG8="; Workflow.duration := None;
           Workflow.playing := None |};
        {| Workflow.index := 1; Workflow.text := "第2段";
           Workflow.audioData := "V29ybGQ="; Workflow.duration := None;
           Workflow.playing := None |};
        {| Workflow.index := 2; Workflow.text := "第3段";
           Workflow.audioData := "IQ=="; Workflow.duration := None;
           Workflow.playing := None |}];
     Workflow.tts_currentSegment := 3; Workflow.tts_totalSegments := 3;
     Workflow.playbackState :=
       {| Workflow.isPlaying := true; Workflow.currentSegment := 0;
          Workflow.totalSegments := 3; Workflow.currentTime := 0;
          Workflow.totalTime := 0; Workflow.volume := 80; Workflow.speed := 1 |};
     Workflow.audioRef := Some {| Element.src := Some 0%nat;
                                  Element.paused := false;
                                  Element.currentTime := 1 |};
     Workflow.currentAudioIndex := 0;
     Workflow.blobs := [{| TTS.blob_bytes := [72; 101; 108; 108; 111];
                           TTS.blob_type := "audio/wav" |}];
     Workflow.notes := [] |}.

End Autoplay.

(** ** File names *)

Module Files.

(** [toLowerCase], on the bytes of the name: only the ASCII capitals change
    here.  Lowering a character outside ASCII gives no dot and none of the
    letters of [ppt] or [pptx], so the test below comes out the same. *)
Definition lower (c : ascii) : ascii :=
  let n := Base64.code c in
  if (65 <=? n) && (n <=? 90) then ascii_of_nat (Z.to_nat (n + 32)) else c.

Fixpoint toLowerCase (s : string) : string :=
  match s with
  | EmptyString => EmptyString
  | String c rest => String (lower c) (toLowerCase rest)
  end.

Definition is_dot (c : ascii) : bool := Base64.code c =? 46.

(** [s.split('.')] *)
Fixpoint split_dot (s : string) : list string :=
  match s with
  | EmptyString => [EmptyString]
  | String c rest =>
      if is_dot c then EmptyString :: split_dot rest
      else Stream.cons_head c (split_dot rest)
  end.

(** [filename.toLowerCase().split('.').pop()] is ['ppt'] or ['pptx']. *)
Definition isPPTFile (filename : string) : bool :=
  match last (split_dot (toLowerCase filename)) with
  | Some ext => String.eqb ext "ppt" || String.eqb ext "pptx"
  | None => false
  end.

Fixpoint has_dot (s : string) : bool :=
  match s with
  | EmptyString => false
  | String c rest => is_dot c || has_dot rest
  end.

End Files.

(** ** [slideService.getPPTConversionProgress] *)

Module Progress.

Record Result := {
  completed : bool;
  progress : Z;
  error : option string
}.

(** [slide.image_url] is set and [checkImageExists] says yes. *)
Definition has_image (imageExists : string -> bool) (slide : Slide.SlideInfo)
  : bool :=
  match TTS.truthy (Slide.image_url slide) with
  | Some url => imageExists url
  | None => false
  end.

(** The [for (const slide of slideData.slides)] loop. *)
Fixpoint count_images (imageExists : string -> bool)
  (slides : list Slide.SlideInfo) (completedSlides : Z) : Z :=
  match slides with
  | [] => completedSlides
  | slide :: rest =>
      count_images imageExists rest
        (if has_image imageExists slide then completedSlides + 1
         else completedSlides)
  end.

(** [percent c t] is [Math.round((c / t) * 100)], computed by the platform
    in floating point.  [response] is what [getDocumentSlides] settles with,
    a rejection being given by its message. *)
Definition getPPTConversionProgress (percent : Z -> Z -> Z)
  (response : string + Slide.SlideContent) (imageExists : string -> bool)
  : Result :=
  match response with
  | inl message => {| completed := false; progress := 0; error := Some message |}
  | inr slideData =>
      match Slide.slides slideData with
      | None | Some [] => {| completed := false; progress := 0; error := None |}
      | Some slides =>
          let totalSlides := Z.of_nat (length slides) in
          let completedSlides := count_images imageExists slides 0 in
          {| completed := completedSlides =? totalSlides;
             progress := percent completedSlides totalSlides;
             error := None |}
      end
  end.

End Progress.

(** ** Loading a presentation *)

Module Loading.

Record View := {
  page : PPT.State;
  loading : bool;
  error : option string;
  isConverting : bool;
  conversionStatus : string
}.

Definition with_page (f : PPT.State -> PPT.State) (v : View) : View :=
  {| page := f (page v); loading := loading v; error := error v;
     isConverting := isConverting v; conversionStatus := conversionStatus v |}.

Definition setLoading (b : bool) (v : View) : View :=
  {| page := page v; loading := b; error := error v;
     isConverting := isConverting v; conversionStatus := conversionStatus v |}.

Definition setError (e : option string) (v : View) : View :=
  {| page := page v; loading := loading v; error := e;
     isConverting := isConverting v; conversionStatus := conversionStatus v |}.

Definition setIsConverting (b : bool) (v : View) : View :=
  {| page := page v; loading := loading v; error := error v;
     isConverting := b; conversionStatus := conversionStatus v |}.

Definition setConversionStatus (s : string) (v : View) : View :=
  {| page := page v; loading := loading v; error := error v;
     isConverting := isConverting v; conversionStatus := s |}.

(** A number in a template string. *)
Definition decimal (n : nat) : string := NilZero.string_of_uint (Nat.to_uint n).

(** [a || b] on strings. *)
Definition or_else (a : string) (b : string) : string :=
  if String.eqb a EmptyString then b else a.

(** The callback of [slideData.slides.map((slide, index) => ...)].
    [text_content] reads the field of that name, which the declared type of a
    slide does not have. *)
Definition processed (text_content : Slide.SlideInfo -> option string)
  (index : nat) (slide : Slide.SlideInfo) : PPT.SlideData :=
  {| PPT.slide_id :=
       or_else (Slide.slide_id slide) (String.append "slide-" (decimal (index + 1)));
     PPT.title :=
       or_else (Slide.title slide)
               (String.append "第 " (String.append (decimal (index + 1)) " 页"));
     PPT.content :=
       or_else (Slide.content slide)
               (default EmptyString (TTS.truthy (text_content slide)));
     PPT.image_url := Slide.image_url slide |}.

(** [setSlides(processedSlides); setCurrentSlideIndex(0)] *)
Definition show (slides : list PPT.SlideData) (st : PPT.State) : PPT.State :=
  {| PPT.documentId := PPT.documentId st; PPT.currentSlideIndex := 0;
     PPT.slides := slides; PPT.isPlayingAudio := PPT.isPlayingAudio st;
     PPT.currentAudioPage := PPT.currentAudioPage st;
     PPT.audioRef := PPT.audioRef st; PPT.timers := PPT.timers st;
     PPT.notes := PPT.notes st |}.

(** [setupSlideData(slideData, requireImages)]: [inl] is the message of the
    error it throws. *)
Definition setupSlideData (text_content : Slide.SlideInfo -> option string)
  (imageExists : string -> bool) (slideData : Slide.SlideContent)
  (requireImages : bool) (v : View) : string + View :=
  match Slide.slides slideData with
  | None | Some [] => inl "未找到幻灯片内容"
  | Some ((first :: _) as slides) =>
      if requireImages && negb (Progress.has_image imageExists first)
      then inl "幻灯片图片未准备就绪"
      else inr (with_page (show (imap (processed text_content) slides)) v)
  end.

(** [checkSlidesImages(slides)]: [checkImageExists] never rejects, so the
    [catch] has nothing to catch. *)
Definition checkSlidesImages (imageExists : string -> bool)
  (slides : option (list Slide.SlideInfo)) : bool :=
  match slides with
  | None | Some [] => false
  | Some slides => existsb (Progress.has_image imageExists) (take 3 slides)
  end.

(** What the network answers while a document loads: the first and the
    fallback [getDocumentSlides] ([None]: rejected), [checkImageExists] when
    the slides are checked and when they are set up, and what the promise of
    [slideService.waitForPPTConversion] settles with. *)
Record Network := {
  first_slides : option Slide.SlideContent;
  exists_at_check : string -> bool;
  exists_at_setup : string -> bool;
  conversion : Slide.Outcome;
  fallback_slides : option Slide.SlideContent
}.

(** The component's own [waitForPPTConversion]; [inl] is the message of the
    error it throws, with the view as it is then. *)
Definition waitForPPTConversion (text_content : Slide.SlideInfo -> option string)
  (net : Network) (v : View) : (string * View) + View :=
  let v := setIsConverting true v in
  let v := setConversionStatus "converting" v in
  match conversion net with
  | Slide.resolved documentData =>
      let v := setConversionStatus "converted" v in
      match setupSlideData text_content (exists_at_setup net) documentData true v with
      | inr v => inr v
      | inl message => inl (message, setIsConverting false v)
      end
  | Slide.rejected message => inl (message, setIsConverting false v)
  end.

Definition console_error (what : string) (v : View) : View :=
  with_page (PPT.note (TTS.console_error what)) v.

(** The body of the inner [try] of [loadDocument]: the version with
    images.  [inl] is a throw, with the view as it is then. *)
Definition with_images (text_content : Slide.SlideInfo -> option string)
  (net : Network) (v : View) : (string * View) + View :=
  match first_slides net with
  | None => inl ("request failed", v)
  | Some slideData =>
      match Slide.slides slideData with
      | Some ((_ :: _) as slides) =>
          if checkSlidesImages (exists_at_check net) (Some slides) then
            match setupSlideData text_content (exists_at_setup net)
                                 slideData true v with
            | inr v => inr v
            | inl message => inl (message, v)
            end
          else waitForPPTConversion text_content net v
      | _ => waitForPPTConversion text_content net v
      end
  end.

(** The [catch] of that [try]: the text-only version. *)
Definition text_only (text_content : Slide.SlideInfo -> option string)
  (net : Network) (v : View) : (string * View) + View :=
  let v := console_error "slide data failed" v in
  match fallback_slides net with
  | None => inl ("无法获取文档内容", v)
  | Some slideData =>
      match setupSlideData text_content (exists_at_setup net)
                           slideData false v with
      | inr v => inr (with_page (PPT.note (TTS.message_warning "text only")) v)
      | inl _ => inl ("无法获取文档内容", v)
      end
  end.

(** [loadDocument] for a document with the given file name. *)
Definition loadDocument (text_content : Slide.SlideInfo -> option string)
  (filename : string) (net : Network) (v : View) : View :=
  let v := setLoading true v in
  let v := setError None v in
  let outcome : (string * View) + View :=
    if Files.isPPTFile filename then
      match with_images text_content net v with
      | inr v => inr v
      | inl (_, v) => text_only text_content net v
      end
    else inl ("不支持的文件格式", v) in
  let v :=
    match outcome with
    | inr v => v
    | inl (message, v) => setError (Some message) (console_error "load failed" v)
    end in
  setIsConverting false (setLoading false v).

(** A view that shows the first of a deck's slides. *)
Definition loaded (v : View) : Prop :=
  PPT.slides (page v) <> [] /\ PPT.currentSlideIndex (page v) = 0.

(** A view that has not loaded anything yet. *)
Definition empty_view : View :=
  {| page := {| PPT.documentId := "doc"; PPT.currentSlideIndex := 0;
                PPT.slides := []; PPT.isPlayingAudio := false;
                PPT.currentAudioPage := None; PPT.audioRef := None;
                PPT.timers := []; PPT.notes := [] |};
     loading := true; error := None; isConverting := false;
     conversionStatus := EmptyString |}.

Definition raw_slide (name : string) (image : option string) : Slide.SlideInfo :=
  {| Slide.slide_id := EmptyString; Slide.page_number := 0;
     Slide.title := name; Slide.content := EmptyString;
     Slide.image_url := image; Slide.thumbnail_url := None;
     Slide.slide_notes := None |}.

Definition deck (slides : list Slide.SlideInfo) : Slide.SlideContent :=
  {| Slide.document_id := "doc"; Slide.filename := "talk.pptx";
     Slide.file_path := "/files/talk.pptx"; Slide.download_url := "/d/talk.pptx";
     Slide.slides := Some slides |}.

(** Only the second slide has its image yet; the conversion would time out. *)
Definition second_image_only : Network :=
  {| first_slides := Some (deck [raw_slide "a" None;
                                 raw_slide "b" (Some "/img/2.png")]);
     exists_at_check := fun _ => true;
     exists_at_setup := fun _ => true;
     conversion := Slide.rejected Slide.timeout_message;
     fallback_slides := Some (deck [raw_slide "a" None;
                                    raw_slide "b" (Some "/img/2.png")]) |}.

(** A conversion whose first image can be fetched from the third turn on;
    every request takes 10 ms, every image check 5 ms. *)
Definition ready_at_third_turn : nat -> Slide.Poll :=
  fun n => {| Slide.slides_took := 10;
              Slide.slides_response :=
                Some (deck [raw_slide "a" (Some "/img/1.png")]);
              Slide.image_took := 5;
              Slide.imageExists := fun _ => Nat.leb 2 n;
              Slide.timer_late := 0 |}.

End Loading.

(** ** Moving between slides *)

Module Navigation.

Definition goToSlide (index : Z) (st : PPT.State) : PPT.State :=
  if (0 <=? index) && (index <? Z.of_nat (length (PPT.slides st)))
  then PPT.setCurrentSlideIndex index st
  else st.

Definition goToPrevSlide (st : PPT.State) : PPT.State :=
  goToSlide (PPT.currentSlideIndex st - 1) st.

Definition goToNextSlide (st : PPT.State) : PPT.State :=
  goToSlide (PPT.currentSlideIndex st + 1) st.

(** The keys of [handleKeyDown]; [Escape] only concerns the fullscreen
    state, which is not part of this state. *)
Inductive Key :=
| ArrowLeft | ArrowUp | ArrowRight | ArrowDown | Space | Home | End_ | Escape
| other_key.

Definition handleKeyDown (key : Key) (st : PPT.State) : PPT.State :=
  match key with
  | ArrowLeft | ArrowUp => goToPrevSlide st
  | ArrowRight | ArrowDown | Space => goToNextSlide st
  | Home => goToSlide 0 st
  | End_ => goToSlide (Z.of_nat (length (PPT.slides st)) - 1) st
  | Escape | other_key => st
  end.

(** [stopAudio] of the presentation. *)
Definition stopAudio (st : PPT.State) : PPT.State :=
  match PPT.audioRef st with
  | Some a =>
      PPT.setPlaying false None
        (PPT.with_audio (Element.rewind (Element.pause a)) st)
  | None => st
  end.

(** What the user and the browser can do to the presentation. *)
Inductive Action :=
| press (key : Key)
| click_slide (index : Z)
| click_play (play_ok : bool)
| click_stop
| audio_ended
| timer_fires (play_ok : bool).

Definition act (a : Action) (st : PPT.State) : PPT.State :=
  match a with
  | press key => handleKeyDown key st
  | click_slide index => goToSlide index st
  | click_play play_ok => PPT.playCurrentSlideAudio play_ok st
  | click_stop => stopAudio st
  | audio_ended => PPT.handleAudioEnded st
  | timer_fires play_ok =>
      match PPT.timers st with
      | (_, t) :: rest => PPT.fire t play_ok (PPT.with_timers rest st)
      | [] => st
      end
  end.

(** The slide shown exists, and so does every slide a pending timer is
    going to show. *)
Definition shows_a_slide (st : PPT.State) : Prop :=
  0 <= PPT.currentSlideIndex st < Z.of_nat (length (PPT.slides st)) /\
  Forall (fun timer =>
            match snd timer with
            | PPT.show_next nextPage =>
                0 <= nextPage < Z.of_nat (length (PPT.slides st))
            | PPT.play_next _ => True
            end) (PPT.timers st).

End Navigation.

(** * Properties *)

(** ** [atob] on examples *)

Example atob_Hello : Base64.atob "SGVsbG8=" = Some [72; 101; 108; 108; 111].
Proof. reflexivity. Qed.

Example atob_World : Base64.atob "V29ybGQ=" = Some [87; 111; 114; 108; 100].
Proof. reflexivity. Qed.

Example atob_unpadded : Base64.atob "SGk" = Some [72; 105].
Proof. reflexivity. Qed.

Example atob_spaced : Base64.atob "SG Vs bG8=" = Some [72; 101; 108; 108; 111].
Proof. reflexivity. Qed.

Example atob_invalid : Base64.atob "SGVsbG8*" = None.
Proof. reflexivity. Qed.

Example atob_bad_length : Base64.atob "SGVsb" = None.
Proof. reflexivity. Qed.

(** ** Bytes and buffers *)

Section Buffers.

Import TTS.

Lemma total_length_from (chunks : list Uint8Array) (acc : Z) :
  fold_left (fun sum chunk => sum + Z.of_nat (length chunk)) chunks acc
  = acc + Z.of_nat (length (concat chunks)).
Proof.
  revert acc. induction chunks as [|c rest IH]; intros acc; simpl.
  - lia.
  - rewrite IH, length_app. lia.
Qed.

Lemma total_length_concat (chunks : list Uint8Array) :
  total_length chunks = Z.of_nat (length (concat chunks)).
Proof. unfold total_length. rewrite total_length_from. lia. Qed.

Lemma total_length_snoc (chunks : list Uint8Array) (c : Uint8Array) :
  total_length (chunks ++ [c]) = total_length chunks + Z.of_nat (length c).
Proof.
  rewrite !total_length_concat, concat_app, length_app. simpl.
  rewrite app_nil_r. lia.
Qed.

(** Every [set] of the loop stays inside the array, and the loop writes the
    chunks one after the other. *)
Lemma fill_is_concat (chunks : list Uint8Array) :
  forall (arr : Uint8Array) (offset : nat),
    length arr = (offset + length (concat chunks))%nat ->
    fill arr offset chunks = take offset arr ++ concat chunks.
Proof.
  induction chunks as [|c rest IH]; intros arr offset Hlen; simpl in *.
  - rewrite app_nil_r, take_ge; [reflexivity | lia].
  - rewrite length_app in Hlen.
    rewrite IH.
    + unfold Uint8Array_set.
      rewrite take_app_ge; rewrite length_take; [|lia].
      replace (offset + length c - offset `min` length arr)%nat
        with (length c) by lia.
      rewrite take_app_ge by lia.
      replace (length c - length c)%nat with 0%nat by lia.
      rewrite take_0, app_nil_r, app_assoc. reflexivity.
    + unfold Uint8Array_set.
      rewrite !length_app, length_take, length_drop. lia.
Qed.

Lemma combine_is_concat (chunks : list Uint8Array) :
  combine chunks = concat chunks.
Proof.
  unfold combine. rewrite fill_is_concat.
  - reflexivity.
  - rewrite length_replicate, total_length_concat. lia.
Qed.

Lemma land_255_is_byte (x : Z) : Z.land x 255 mod 256 = Z.land x 255.
Proof.
  change 255 with (Z.ones 8). rewrite Z.land_ones by lia.
  change (2 ^ 8) with 256. apply Z.mod_mod. lia.
Qed.

Lemma bytes_of_sextets_bytes (n : nat) :
  forall vs, (length vs <= n)%nat ->
    charCodes_to_Uint8Array (Base64.bytes_of_sextets vs)
    = Base64.bytes_of_sextets vs.
Proof.
  unfold charCodes_to_Uint8Array.
  induction n as [|n IH]; intros vs Hn.
  - destruct vs; [reflexivity | simpl in Hn; lia].
  - destruct vs as [|a [|b [|c [|d rest]]]]; try reflexivity.
    + simpl. rewrite land_255_is_byte. reflexivity.
    + simpl. rewrite !land_255_is_byte. reflexivity.
    + cbn [Base64.bytes_of_sextets map].
      rewrite !land_255_is_byte, IH; [reflexivity | simpl in Hn; lia].
Qed.

(** What [atob] returns are bytes: storing them in a [Uint8Array] keeps
    them. *)
Lemma atob_bytes (payload : string) (audioData : list Z) :
  Base64.atob payload = Some audioData ->
  charCodes_to_Uint8Array audioData = audioData.
Proof.
  unfold Base64.atob.
  destruct (_ =? 1); [discriminate|].
  destruct (Base64.sextets _) as [vs|]; [|discriminate].
  intros [= <-]. eapply bytes_of_sextets_bytes. reflexivity.
Qed.

End Buffers.

(** ** Results under stream events *)

Section Results.

Import TTS.

Lemma find_result_map (f : SynthesisResult -> SynthesisResult)
  (resultId : string) (rs : list SynthesisResult) :
  (forall x, id (f x) = id x) ->
  find_result resultId (map f rs) = option_map f (find_result resultId rs).
Proof.
  intros Hid. unfold find_result.
  induction rs as [|x rest IH]; simpl; [reflexivity|].
  rewrite Hid. destruct (String.eqb (id x) resultId); [reflexivity | exact IH].
Qed.

Lemma blobs_playStreamingAudio ok rid url st :
  blobs (playStreamingAudio ok rid url st) = blobs st.
Proof.
  unfold playStreamingAudio, pause_ref, play, catch, new_Audio, pause.
  destruct (streamingAudioRef st), (audioRef st) eqn:E, ok; cbn; rewrite ?E;
    reflexivity.
Qed.

Lemma blobs_updateStreamingAudio r rid url st :
  blobs (updateStreamingAudio r rid url st) = blobs st.
Proof.
  unfold updateStreamingAudio.
  destruct (is_id _ _); [|reflexivity].
  destruct (streamingAudioRef st) as [old|]; [|reflexivity].
  destruct (audios st !! old); reflexivity.
Qed.

Lemma ingest_spec r ok event rid arr result st :
  fst (ingest r ok event rid arr result st)
    = appended arr (BlobUrl (length (blobs st))) result
  /\ blobs (snd (ingest r ok event rid arr result st))
    = blobs st ++ [{| blob_bytes := combine (default [] (audio_chunks result) ++ [arr]);
                      blob_type := mimeType r |}].
Proof.
  unfold ingest, createObjectURL. split; [reflexivity|].
  cbn [fst snd].
  destruct (chunk_count event) as [[|[p|p|]|]|];
    rewrite ?blobs_playStreamingAudio, ?blobs_updateStreamingAudio; reflexivity.
Qed.


Lemma map_ingest_spec r ok event rid arr (prev : list SynthesisResult) :
  forall st,
    Forall2 (ingested rid arr (blobs (snd (map_ingest r ok event rid arr prev st))))
            prev (fst (map_ingest r ok event rid arr prev st))
    /\ exists more, blobs (snd (map_ingest r ok event rid arr prev st))
                    = blobs st ++ more.
Proof.
  induction prev as [|x rest IH]; intros st; simpl.
  - split; [constructor | exists []; rewrite app_nil_r; reflexivity].
  - destruct (String.eqb (id x) rid) eqn:Hid.
    + pose proof (ingest_spec r ok event rid arr x st) as [Hx Hb].
      destruct (ingest r ok event rid arr x st) as [x' st1]. cbn [fst snd] in *.
      destruct (IH st1) as [Hrest [more Hmore]].
      destruct (map_ingest r ok event rid arr rest st1) as [rest' st2].
      cbn [fst snd] in *. split.
      * constructor; [|exact Hrest].
        unfold ingested. rewrite Hid.
        exists (length (blobs st)), (mimeType r). split; [exact Hx|].
        rewrite Hmore, Hb, <- app_assoc.
        rewrite lookup_app_r by lia.
        replace (length (blobs st) - length (blobs st))%nat with 0%nat by lia.
        reflexivity.
      * exists ([{| blob_bytes := combine (default [] (audio_chunks x) ++ [arr]);
                    blob_type := mimeType r |}] ++ more).
        rewrite Hmore, Hb, <- app_assoc. reflexivity.
    + destruct (IH st) as [Hrest [more Hmore]].
      destruct (map_ingest r ok event rid arr rest st) as [rest' st2].
      cbn [fst snd] in *. split; [|exists more; exact Hmore].
      constructor; [|exact Hrest].
      unfold ingested. rewrite Hid. reflexivity.
Qed.

Lemma ingested_id rid arr store x x' : ingested rid arr store x x' -> id x' = id x.
Proof.
  unfold ingested. destruct (String.eqb (id x) rid).
  - intros (n & mime & -> & _). reflexivity.
  - intros ->. reflexivity.
Qed.

Lemma find_result_ingested rid arr store (prev res : list SynthesisResult) x :
  Forall2 (ingested rid arr store) prev res ->
  find_result rid prev = Some x ->
  exists x', find_result rid res = Some x' /\ ingested rid arr store x x'.
Proof.
  unfold find_result.
  induction 1 as [|a b prev res Hab Hrest IH]; simpl; [discriminate|].
  rewrite (ingested_id _ _ _ _ _ Hab).
  destruct (String.eqb (id a) rid).
  - intros [= <-]. exists b. split; [reflexivity | exact Hab].
  - exact IH.
Qed.

(** An [audio_chunk] event whose payload decodes is appended to the result,
    whatever its sequence number. *)
Lemma chunk_appended r ok event rid st x payload bytes :
  type event = audio_chunk ->
  truthy (data event) = Some payload ->
  Base64.atob payload = Some bytes ->
  find_result rid (results st) = Some x ->
  exists x',
    find_result rid (results (handleStreamEvent r ok event rid st)) = Some x' /\
    audio_chunks x' = Some (default [] (audio_chunks x) ++ [bytes]) /\
    buffer_of x' = buffer_of x ++ bytes /\
    file_size x' = Z.of_nat (length (buffer_of x ++ bytes)) /\
    playable_bytes (handleStreamEvent r ok event rid st) x'
      = Some (buffer_of x ++ bytes).
Proof.
  intros Htype Hdata Hatob Hfind.
  unfold handleStreamEvent. rewrite Htype, Hdata, Hatob.
  rewrite (atob_bytes _ _ Hatob).
  set (st0 := note (console_log "Stream event") st).
  destruct (map_ingest_spec r ok event rid bytes (results st0) st0) as [Hall _].
  destruct (map_ingest r ok event rid bytes (results st0) st0) as [res st1].
  cbn [fst snd] in *.
  destruct (find_result_ingested _ _ _ _ _ _ Hall Hfind) as (x' & Hx' & Hing).
  exists x'. split; [exact Hx'|].
  unfold ingested in Hing.
  assert (Hid : String.eqb (id x) rid = true).
  { unfold find_result in Hfind. apply find_some in Hfind. apply Hfind. }
  rewrite Hid in Hing. destruct Hing as (n & mime & -> & Hblob).
  unfold buffer_of, playable_bytes. cbn.
  rewrite Hblob. cbn.
  rewrite combine_is_concat, total_length_concat, concat_app. cbn.
  rewrite app_nil_r. auto.
Qed.


Lemma truthy_Some (o : option string) (v : string) :
  truthy o = Some v -> o = Some v.
Proof.
  unfold truthy. destruct o as [w|]; [|discriminate].
  destruct (String.eqb w ""); [discriminate | congruence].
Qed.

Lemma truthy_None (v : string) : truthy (Some v) = None -> v = "".
Proof.
  unfold truthy. destruct (String.eqb v "") eqn:E; [|discriminate].
  intros _. apply String.eqb_eq. exact E.
Qed.

(** One decodable chunk event extends the buffer by its bytes. *)
Lemma chunk_step r ok rid event bytes st x :
  decodes_to event bytes ->
  find_result rid (results st) = Some x ->
  consistent st x ->
  exists x',
    find_result rid (results (handleStreamEvent r ok event rid st)) = Some x' /\
    buffer_of x' = buffer_of x ++ bytes /\
    consistent (handleStreamEvent r ok event rid st) x'.
Proof.
  intros [Htype (payload & Hdata & Hatob)] Hfind [Hsize Hplay].
  destruct (truthy (data event)) as [payload'|] eqn:Htruthy.
  - pose proof (truthy_Some _ _ Htruthy) as Hsame.
    rewrite Hdata in Hsame. injection Hsame as <-.
    destruct (chunk_appended r ok event rid st x payload bytes
                Htype Htruthy Hatob Hfind)
      as (x' & Hx' & _ & Hbuf & Hfs & Hpb).
    exists x'. split; [exact Hx'|]. split; [exact Hbuf|].
    split; [rewrite Hbuf; exact Hfs | left; rewrite Hbuf; exact Hpb].
  - rewrite Hdata in Htruthy. apply truthy_None in Htruthy. subst payload.
    injection Hatob as <-.
    exists x. unfold handleStreamEvent. rewrite Htype, Hdata. cbn.
    rewrite app_nil_r. split; [exact Hfind|]. split; [reflexivity|].
    split; [exact Hsize | exact Hplay].
Qed.

Lemma chunks_accumulate r ok rid events payloads :
  Forall2 decodes_to events payloads ->
  forall st x,
    find_result rid (results st) = Some x ->
    consistent st x ->
    exists x',
      find_result rid (results (handleStreamEvents r ok rid events st)) = Some x' /\
      buffer_of x' = buffer_of x ++ concat payloads /\
      consistent (handleStreamEvents r ok rid events st) x'.
Proof.
  unfold handleStreamEvents.
  induction 1 as [|event bytes events payloads Hdec _ IH]; intros st x Hfind Hc.
  - exists x. cbn. rewrite app_nil_r. auto.
  - destruct (chunk_step r ok rid event bytes st x Hdec Hfind Hc)
      as (x1 & Hx1 & Hbuf1 & Hc1).
    destruct (IH _ _ Hx1 Hc1) as (x' & Hx' & Hbuf & Hc').
    exists x'. cbn. split; [exact Hx'|]. split; [|exact Hc'].
    rewrite Hbuf, Hbuf1, <- app_assoc. reflexivity.
Qed.

(** C1 (as amended).  The page keeps no last accepted sequence number and no
    version counter: an [audio_chunk] event with a non-empty payload that
    decodes is appended to the result's chunks whatever its [chunk_count],
    so the buffer grows by the payload, [file_size] becomes the new length and
    the playable handle renders the longer buffer. *)
Theorem C1_chunk_appended_whatever_its_sequence
  r ok event rid st x payload bytes :
  type event = audio_chunk ->
  truthy (data event) = Some payload ->
  Base64.atob payload = Some bytes ->
  find_result rid (results st) = Some x ->
  exists x',
    find_result rid (results (handleStreamEvent r ok event rid st)) = Some x' /\
    audio_chunks x' = Some (default [] (audio_chunks x) ++ [bytes]) /\
    buffer_of x' = buffer_of x ++ bytes /\
    file_size x' = Z.of_nat (length (buffer_of x)) + Z.of_nat (length bytes) /\
    playable_bytes (handleStreamEvent r ok event rid st) x'
      = Some (buffer_of x ++ bytes).
Proof.
  intros Htype Hdata Hatob Hfind.
  destruct (chunk_appended r ok event rid st x payload bytes
              Htype Hdata Hatob Hfind) as (x' & H1 & H2 & H3 & H4 & H5).
  exists x'. repeat split; try assumption.
  rewrite H4, length_app. lia.
Qed.

Lemma C1_chunk_appended_witness :
  exists x',
    find_result "r1"
      (results (handleStreamEvent wav true (chunk_event 1 "SGVsbG8=") "r1"
                  (handleStreamEvent wav true (chunk_event 1 "SGVsbG8=") "r1"
                     (fresh "r1")))) = Some x' /\
    buffer_of x' = [72; 101; 108; 108; 111] ++ [72; 101; 108; 108; 111].
Proof.
  destruct (C1_chunk_appended_whatever_its_sequence wav true
              (chunk_event 1 "SGVsbG8=") "r1"
              (handleStreamEvent wav true (chunk_event 1 "SGVsbG8=") "r1"
                 (fresh "r1"))
              (appended [72; 101; 108; 108; 111] (BlobUrl 0)
                 (newResult "r1" "hello world" "douyin" "v" "t"))
              "SGVsbG8=" [72; 101; 108; 108; 111]
              eq_refl eq_refl eq_refl eq_refl) as (x' & Hfind & _ & Hbuf & _).
  exists x'. split; [exact Hfind | exact Hbuf].
Defined.

(** C1 (as stated) fails: sequence number 1 ingested twice leaves ten bytes
    in the buffer and a [file_size] of 10, not the five of a single copy. *)
Lemma C1_duplicate_doubles_the_buffer :
  let once := handleStreamEvent wav true (chunk_event 1 "SGVsbG8=") "r1"
                (fresh "r1") in
  let twice := handleStreamEvent wav true (chunk_event 1 "SGVsbG8=") "r1" once in
  option_map buffer_of (find_result "r1" (results once))
    = Some [72; 101; 108; 108; 111] /\
  option_map buffer_of (find_result "r1" (results twice))
    = Some [72; 101; 108; 108; 111; 72; 101; 108; 108; 111] /\
  option_map file_size (find_result "r1" (results twice)) = Some 10 /\
  results twice <> results once.
Proof.
  cbv zeta. repeat apply conj; try (vm_compute; reflexivity).
  intros Heq.
  apply (f_equal (fun rs => option_map file_size (find_result "r1" rs))) in Heq.
  vm_compute in Heq. discriminate.
Qed.

(** C2.  Audio chunk events that arrive with strictly increasing sequence
    numbers and whose payloads decode leave, in a result that starts empty,
    a buffer equal to the payloads' bytes concatenated in order, a
    [file_size] equal to the sum of their lengths, and a playable handle over
    exactly those bytes. *)
Theorem C2_buffer_is_ordered_concatenation
  r ok rid events payloads st x :
  Forall2 decodes_to events payloads ->
  strictly_increasing events = true ->
  find_result rid (results st) = Some x ->
  audio_chunks x = Some [] -> file_size x = 0 -> stream_audio_url x = None ->
  exists x',
    find_result rid (results (handleStreamEvents r ok rid events st)) = Some x' /\
    buffer_of x' = concat payloads /\
    file_size x' = Z.of_nat (length (concat payloads)) /\
    (playable_bytes (handleStreamEvents r ok rid events st) x'
       = Some (concat payloads)
     \/ stream_audio_url x' = None /\ concat payloads = []).
Proof.
  intros Hdec _ Hfind Hchunks Hsize Hurl.
  assert (Hbuf0 : buffer_of x = []) by (unfold buffer_of; rewrite Hchunks; reflexivity).
  destruct (chunks_accumulate r ok rid events payloads Hdec st x Hfind)
    as (x' & Hx' & Hbuf & Hfs & Hpb).
  { split; [rewrite Hbuf0, Hsize; reflexivity | right; auto]. }
  rewrite Hbuf0 in Hbuf. cbn in Hbuf.
  exists x'. rewrite <- Hbuf. auto.
Qed.

Lemma C2_HelloWorld :
  exists x',
    find_result "r1"
      (results (handleStreamEvents wav true "r1"
                  [chunk_event 1 "SGVsbG8="; chunk_event 2 "V29ybGQ="]
                  (fresh "r1"))) = Some x' /\
    buffer_of x' = [72; 101; 108; 108; 111; 87; 111; 114; 108; 100] /\
    file_size x' = 10.
Proof.
  destruct (C2_buffer_is_ordered_concatenation wav true "r1"
              [chunk_event 1 "SGVsbG8="; chunk_event 2 "V29ybGQ="]
              [[72; 101; 108; 108; 111]; [87; 111; 114; 108; 100]]
              (fresh "r1") (newResult "r1" "hello world" "douyin" "v" "t"))
    as (x' & Hfind & Hbuf & Hsize & _).
  - repeat constructor; eexists; split; reflexivity.
  - reflexivity.
  - reflexivity.
  - reflexivity.
  - reflexivity.
  - reflexivity.
  - exists x'. split; [exact Hfind|]. split; [exact Hbuf | exact Hsize].
Defined.


Lemma Forall2_map_same {A} (P : A -> A -> Prop) (f : A -> A) (l : list A) :
  (forall x, P x (f x)) -> Forall2 P l (map f l).
Proof. intros H. induction l; simpl; constructor; auto. Qed.

Lemma Forall2_same {A} (P : A -> A -> Prop) (l : list A) :
  (forall x, P x x) -> Forall2 P l l.
Proof. intros H. induction l; constructor; auto. Qed.

Lemma same_refl x : same_but_status_error_duration x x.
Proof. unfold same_but_status_error_duration. repeat split. Qed.

(** C10.  A [complete], [end] or [error] event keeps every result's
    [audio_chunks], [file_size] and [stream_audio_url] (an error does not
    clear the audio received so far): in the result with the given id only
    [status], [error] and [duration] may change, results with other ids are
    untouched, and the blob store and the media elements stay as they are. *)
Theorem C10_terminal_events_keep_the_audio r ok event rid st :
  type event = complete \/ type event = end_ \/ type event = error ->
  Forall2 (fun before after =>
             same_but_status_error_duration before after /\
             (id before <> rid -> after = before))
          (results st) (results (handleStreamEvent r ok event rid st)) /\
  blobs (handleStreamEvent r ok event rid st) = blobs st /\
  audios (handleStreamEvent r ok event rid st) = audios st.
Proof.
  intros [H|[H|H]]; unfold handleStreamEvent; rewrite H; cbn;
    (split; [|split; reflexivity]).
  - apply Forall2_map_same. intros x.
    destruct (String.eqb (id x) rid) eqn:E.
    + split; [unfold same_but_status_error_duration; cbn; repeat split|].
      intros Hne. apply String.eqb_eq in E. contradiction.
    + split; [apply same_refl | reflexivity].
  - apply Forall2_same. intros x. split; [apply same_refl | reflexivity].
  - apply Forall2_map_same. intros x.
    destruct (String.eqb (id x) rid) eqn:E.
    + split; [unfold same_but_status_error_duration; cbn; repeat split|].
      intros Hne. apply String.eqb_eq in E. contradiction.
    + split; [apply same_refl | reflexivity].
Qed.

Lemma C10_error_after_two_chunks :
  let streamed := handleStreamEvents wav true "r1"
                    [chunk_event 1 "SGVsbG8="; chunk_event 2 "V29ybGQ="]
                    (with_older "r1") in
  let failed := handleStreamEvent wav true
                  (plain_event error (Some "upstream closed")) "r1" streamed in
  option_map buffer_of (find_result "r1" (results failed))
    = Some [72; 101; 108; 108; 111; 87; 111; 114; 108; 100] /\
  option_map status (find_result "r1" (results failed)) = Some (Some errored) /\
  find_result "r0" (results failed) = Some older /\
  blobs failed = blobs streamed.
Proof.
  cbv zeta.
  pose proof (C10_terminal_events_keep_the_audio wav true
                (plain_event error (Some "upstream closed")) "r1"
                (handleStreamEvents wav true "r1"
                   [chunk_event 1 "SGVsbG8="; chunk_event 2 "V29ybGQ="]
                   (with_older "r1"))
                (or_intror (or_intror eq_refl))) as (_ & Hblobs & _).
  split; [vm_compute; reflexivity|].
  split; [vm_compute; reflexivity|].
  split; [vm_compute; reflexivity|].
  exact Hblobs.
Defined.


End Results.

(** ** The media elements of the page *)

Section Player.

Import TTS.

Lemma length_pause_in ref (l : list Audio) : length (pause_in ref l) = length l.
Proof. destruct ref; simpl; [apply length_alter | reflexivity]. Qed.

Lemma alter_last {A} (f : A -> A) (l : list A) (x : A) :
  alter f (length l) (l ++ [x]) = l ++ [f x].
Proof.
  replace (length l) with (length l + 0)%nat by lia.
  rewrite alter_app_r. reflexivity.
Qed.

Lemma alter_at_end {A} (f : A -> A) (l l' : list A) (x : A) :
  length l' = length l -> alter f (length l) (l' ++ [x]) = l' ++ [f x].
Proof. intros <-. apply alter_last. Qed.

(** [playStreamingAudio] pauses what both ref cells point to, then makes a
    new element, which plays if the browser lets it. *)
Lemma playStreamingAudio_spec ok rid url st :
  audios (playStreamingAudio ok rid url st)
    = pause_in (audioRef st) (pause_in (streamingAudioRef st) (audios st))
      ++ [{| src := url; paused := negb ok; currentTime := 0;
             handlers := FromPlayStreaming rid |}]
  /\ streamingAudioRef (playStreamingAudio ok rid url st)
     = Some (length (audios st))
  /\ audioRef (playStreamingAudio ok rid url st) = audioRef st.
Proof.
  unfold playStreamingAudio, pause_ref, play, catch, new_Audio, pause.
  destruct (streamingAudioRef st) as [s|], (audioRef st) as [a|] eqn:E, ok;
    cbn; rewrite ?E; cbn; rewrite ?length_alter; repeat split;
    try assumption;
    rewrite alter_at_end by (rewrite ?length_alter; reflexivity);
    reflexivity.
Qed.


Lemma lookup_pause_in ref (l : list Audio) h a :
  pause_in ref l !! h = Some a -> paused a = false ->
  ref <> Some h /\ l !! h = Some a.
Proof.
  unfold pause_in. destruct ref as [i|]; [|intros; split; [discriminate|assumption]].
  destruct (decide (i = h)) as [->|Hne].
  - rewrite list_lookup_alter_eq. intros Hlook Hplaying.
    destruct (l !! h); simplify_eq/=.
  - rewrite list_lookup_alter_ne by assumption. intros. split; congruence.
Qed.

(** After [playStreamingAudio] nothing but the new element can be playing,
    provided what played before was held by one of the two ref cells. *)
Lemma playStreamingAudio_single_live ok rid url st :
  owned st ->
  forall h a, audios (playStreamingAudio ok rid url st) !! h = Some a ->
    paused a = false -> h = length (audios st).
Proof.
  intros Hown h a.
  destruct (playStreamingAudio_spec ok rid url st) as (-> & _ & _).
  intros Hlook Hplaying.
  destruct (decide (h = length (audios st))) as [|Hne]; [assumption|].
  exfalso.
  assert (Hlt : (h < length (audios st))%nat).
  { apply lookup_lt_Some in Hlook.
    rewrite length_app, !length_pause_in in Hlook. simpl in Hlook. lia. }
  rewrite lookup_app_l in Hlook by (rewrite !length_pause_in; exact Hlt).
  apply lookup_pause_in in Hlook as [Ha Hlook]; [|exact Hplaying].
  apply lookup_pause_in in Hlook as [Hs Hlook]; [|exact Hplaying].
  destruct (Hown h a Hlook Hplaying); contradiction.
Qed.


(** With the gate open, [updateStreamingAudio] pauses the old element and
    puts a new, paused one in the ref cell, which remembers the old
    element's position and whether it played. *)
Lemma updateStreamingAudio_swaps r rid url st old a :
  is_id (seen_streamingAudio r) rid = true ->
  streamingAudioRef st = Some old ->
  audios st !! old = Some a ->
  audios (updateStreamingAudio r rid url st)
    = alter (with_paused true) old (audios st)
      ++ [{| src := url; paused := true; currentTime := 0;
             handlers := FromUpdateStreaming rid (currentTime a)
                                             (negb (paused a)) |}]
  /\ streamingAudioRef (updateStreamingAudio r rid url st)
     = Some (length (audios st))
  /\ audioRef (updateStreamingAudio r rid url st) = audioRef st.
Proof.
  intros Hgate Href Hold. unfold updateStreamingAudio.
  rewrite Hgate, Href, Hold. cbn. repeat split.
  apply alter_app_l. eapply lookup_lt_Some. exact Hold.
Qed.

(** With the gate closed it does nothing at all. *)
Lemma updateStreamingAudio_gated r rid url st :
  is_id (seen_streamingAudio r) rid = false \/ streamingAudioRef st = None ->
  updateStreamingAudio r rid url st = st.
Proof.
  unfold updateStreamingAudio. intros [->| ->]; [reflexivity|].
  destruct (is_id _ _); reflexivity.
Qed.

Lemma updateStreamingAudio_starts_nothing r rid url st :
  starts_nothing st (updateStreamingAudio r rid url st).
Proof.
  unfold starts_nothing. intros h a'.
  destruct (is_id (seen_streamingAudio r) rid) eqn:Hgate;
    [|rewrite updateStreamingAudio_gated by auto; eauto].
  destruct (streamingAudioRef st) as [old|] eqn:Href;
    [|rewrite updateStreamingAudio_gated by auto; eauto].
  destruct (audios st !! old) as [a|] eqn:Hold.
  - destruct (updateStreamingAudio_swaps r rid url st old a Hgate Href Hold)
      as (-> & _ & _).
    intros Hlook Hplaying.
    destruct (decide (h < length (audios st))%nat) as [Hlt|Hge].
    + rewrite lookup_app_l in Hlook by (rewrite length_alter; exact Hlt).
      apply (lookup_pause_in (Some old)) in Hlook as [_ Hlook]; eauto.
    + rewrite lookup_app_r in Hlook by (rewrite length_alter; lia).
      destruct (h - length (alter (with_paused true) old (audios st)))%nat
        as [|k]; cbn in Hlook; [|discriminate]. (* the new element is paused *)
      injection Hlook as <-. discriminate.
  - unfold updateStreamingAudio. rewrite Hgate, Href, Hold. eauto.
Qed.

(** Once an element made by [updateStreamingAudio] has loaded, its position
    is the one captured before the swap if that lies strictly between zero and
    the duration, and it plays if the old element played and the browser lets
    it. *)
Lemma loaded_element h d ok st a rid savedTime wasPlaying :
  audios st !! h = Some a ->
  handlers a = FromUpdateStreaming rid savedTime wasPlaying ->
  exists b,
    audios (onloadeddata h d ok st) !! h = Some b /\ src b = src a /\
    currentTime b
      = (if (0 <? savedTime) && before savedTime d
         then savedTime else currentTime a) /\
    paused b = (if wasPlaying && ok then false else paused a).
Proof.
  intros Hlook Hh. unfold onloadeddata. rewrite Hlook, Hh.
  unfold play, catch, set_currentTime.
  destruct ((0 <? savedTime) && before savedTime d), wasPlaying, ok; cbn;
    rewrite ?list_lookup_alter_eq, ?Hlook; cbn;
    eexists; (split; [reflexivity|]); cbn; auto.
Qed.

Lemma starts_nothing_refl st : starts_nothing st st.
Proof. intros h a. eauto. Qed.

Lemma starts_nothing_trans a b c :
  starts_nothing a b -> starts_nothing b c -> starts_nothing a c.
Proof.
  intros Hab Hbc h x Hlook Hp.
  destruct (Hbc h x Hlook Hp) as (y & Hy & Hpy). exact (Hab h y Hy Hpy).
Qed.

(** The callback for a chunk that is not numbered 1 starts no element. *)
Lemma ingest_starts_nothing r ok event rid arr x st :
  chunk_count event <> Some 1 ->
  starts_nothing st (snd (ingest r ok event rid arr x st)).
Proof.
  intros Hne. unfold ingest, createObjectURL. cbn [snd].
  set (st1 := set_blobs _ st).
  destruct (chunk_count event) as [[|[p|p|]|]|]; try contradiction;
    exact (updateStreamingAudio_starts_nothing r rid _ st1).
Qed.

Lemma map_ingest_starts_nothing r ok event rid arr (rs : list SynthesisResult) :
  chunk_count event <> Some 1 ->
  forall st, starts_nothing st (snd (map_ingest r ok event rid arr rs st)).
Proof.
  intros Hne. induction rs as [|x rest IH]; intros st; cbn [map_ingest].
  - apply starts_nothing_refl.
  - destruct (String.eqb (id x) rid).
    + pose proof (ingest_starts_nothing r ok event rid arr x st Hne) as H1.
      destruct (ingest r ok event rid arr x st) as [x' st1]. cbn [snd] in H1.
      specialize (IH st1).
      destruct (map_ingest r ok event rid arr rest st1) as [rest' st2].
      cbn [snd] in *. exact (starts_nothing_trans _ _ _ H1 IH).
    + specialize (IH st).
      destruct (map_ingest r ok event rid arr rest st) as [rest' st2].
      exact IH.
Qed.

(** With the gate closed, the callback for a chunk that is not numbered 1
    leaves the media elements and both ref cells as they are. *)
Lemma ingest_gated r ok event rid arr x st :
  chunk_count event <> Some 1 ->
  is_id (seen_streamingAudio r) rid = false \/ streamingAudioRef st = None ->
  audios (snd (ingest r ok event rid arr x st)) = audios st /\
  streamingAudioRef (snd (ingest r ok event rid arr x st)) = streamingAudioRef st /\
  audioRef (snd (ingest r ok event rid arr x st)) = audioRef st.
Proof.
  intros Hne Hgate. unfold ingest, createObjectURL. cbn [snd].
  set (st1 := set_blobs _ st).
  assert (Hupd : match chunk_count event with
                 | Some 1 => playStreamingAudio ok rid (BlobUrl (length (blobs st))) st1
                 | _ => updateStreamingAudio r rid (BlobUrl (length (blobs st))) st1
                 end = st1).
  { destruct (chunk_count event) as [[|[p|p|]|]|]; try contradiction;
      apply updateStreamingAudio_gated; exact Hgate. }
  rewrite Hupd. repeat apply conj; reflexivity.
Qed.

Lemma map_ingest_gated r ok event rid arr (rs : list SynthesisResult) :
  chunk_count event <> Some 1 ->
  forall st,
    is_id (seen_streamingAudio r) rid = false \/ streamingAudioRef st = None ->
    audios (snd (map_ingest r ok event rid arr rs st)) = audios st /\
    streamingAudioRef (snd (map_ingest r ok event rid arr rs st))
      = streamingAudioRef st /\
    audioRef (snd (map_ingest r ok event rid arr rs st)) = audioRef st.
Proof.
  intros Hne. induction rs as [|x rest IH]; intros st Hgate; cbn [map_ingest].
  - repeat apply conj; reflexivity.
  - destruct (String.eqb (id x) rid).
    + destruct (ingest_gated r ok event rid arr x st Hne Hgate) as (Ha & Hs & Hr).
      destruct (ingest r ok event rid arr x st) as [x' st1]. cbn [snd] in *.
      assert (Hgate1 : is_id (seen_streamingAudio r) rid = false
                       \/ streamingAudioRef st1 = None)
        by (destruct Hgate as [H|H]; [left; exact H | right; congruence]).
      destruct (IH st1 Hgate1) as (Ha' & Hs' & Hr').
      destruct (map_ingest r ok event rid arr rest st1) as [rest' st2].
      cbn [snd] in *. repeat apply conj; congruence.
    + specialize (IH st Hgate).
      destruct (map_ingest r ok event rid arr rest st) as [rest' st2].
      exact IH.
Qed.

(** An event that is not a first chunk, handled with the gate closed, leaves
    the media elements and both ref cells as they are. *)
Lemma later_event_gated r ok event rid st :
  chunk_count event <> Some 1 ->
  is_id (seen_streamingAudio r) rid = false \/ streamingAudioRef st = None ->
  audios (handleStreamEvent r ok event rid st) = audios st /\
  streamingAudioRef (handleStreamEvent r ok event rid st) = streamingAudioRef st /\
  audioRef (handleStreamEvent r ok event rid st) = audioRef st.
Proof.
  intros Hne Hgate. unfold handleStreamEvent.
  destruct (type event); try (repeat apply conj; reflexivity).
  destruct (truthy (data event)) as [payload|];
    [|repeat apply conj; reflexivity].
  destruct (Base64.atob payload) as [audioData|];
    [|repeat apply conj; reflexivity].
  set (st0 := note (console_log "Stream event") st).
  destruct (map_ingest_gated r ok event rid (charCodes_to_Uint8Array audioData)
              (results st0) Hne st0 Hgate) as (Ha & Hs & Hr).
  destruct (map_ingest _ _ _ _ _ _ _) as [res st1]. cbn [snd] in *.
  repeat apply conj; assumption.
Qed.

(** An [audio_chunk] event without payload, or with one that does not
    decode, changes no result, no media element, no ref cell and no blob. *)
Lemma unusable_chunk_frame r ok event rid st :
  type event = audio_chunk ->
  truthy (data event) = None \/
  (exists payload, truthy (data event) = Some payload /\
                   Base64.atob payload = None) ->
  audios (handleStreamEvent r ok event rid st) = audios st /\
  streamingAudioRef (handleStreamEvent r ok event rid st) = streamingAudioRef st /\
  audioRef (handleStreamEvent r ok event rid st) = audioRef st /\
  results (handleStreamEvent r ok event rid st) = results st /\
  blobs (handleStreamEvent r ok event rid st) = blobs st.
Proof.
  intros Htype Hbad. unfold handleStreamEvent. rewrite Htype.
  destruct Hbad as [-> | (payload & -> & ->)]; repeat apply conj; reflexivity.
Qed.

(** What the elements play from is not changed by blobs that are added. *)
Lemma element_bytes_kept st st' h :
  audios st' = audios st ->
  (exists more, blobs st' = blobs st ++ more) ->
  is_Some (element_bytes st h) ->
  element_bytes st' h = element_bytes st h.
Proof.
  intros Ha [more Hb] [bs Hbs]. unfold element_bytes in *. rewrite Ha, Hb.
  destruct (audios st !! h) as [a|]; [|discriminate].
  destruct (src a) as [n|]; [|discriminate].
  destruct (blobs st !! n) as [b|] eqn:Hn; [|discriminate].
  rewrite (lookup_app_l_Some _ _ _ _ Hn). reflexivity.
Qed.

Lemma blobs_handleStreamEvent r ok event rid st :
  exists more, blobs (handleStreamEvent r ok event rid st) = blobs st ++ more.
Proof.
  unfold handleStreamEvent.
  destruct (type event); try (exists []; rewrite app_nil_r; reflexivity).
  destruct (truthy (data event)) as [payload|];
    [|exists []; rewrite app_nil_r; reflexivity].
  destruct (Base64.atob payload) as [audioData|];
    [|exists []; rewrite app_nil_r; reflexivity].
  set (st0 := note (console_log "Stream event") st).
  destruct (map_ingest_spec r ok event rid (charCodes_to_Uint8Array audioData)
              (results st0) st0) as [_ [more Hmore]].
  destruct (map_ingest _ _ _ _ _ _ _) as [res st1]. cbn [snd] in *.
  exists more. exact Hmore.
Qed.

(** C4: the code breaks it.  [handleStreamEvent] runs in the closure of the
    render in which the synthesis was started, so the [streamingAudio] that
    [updateStreamingAudio] compares with the result id is the one of that
    render; the id is made from the clock at that very click, so the two
    never agree and the gate is closed for every chunk of the stream.  A
    later chunk therefore never swaps the playable handle: the media elements
    and both ref cells stay as they are and every element plays the bytes it
    played before, so the element started on the first chunk keeps the first
    buffer, while the result moves on to a handle over the longer buffer,
    which nothing plays. *)
Theorem C4_later_chunk_never_swaps_the_handle
  r ok event rid st x payload bytes :
  is_id (seen_streamingAudio r) rid = false ->
  type event = audio_chunk ->
  chunk_count event <> Some 1 ->
  truthy (data event) = Some payload ->
  Base64.atob payload = Some bytes ->
  find_result rid (results st) = Some x ->
  let st' := handleStreamEvent r ok event rid st in
  audios st' = audios st /\
  streamingAudioRef st' = streamingAudioRef st /\
  audioRef st' = audioRef st /\
  (forall h, is_Some (element_bytes st h) ->
             element_bytes st' h = element_bytes st h) /\
  exists x',
    find_result rid (results st') = Some x' /\
    buffer_of x' = buffer_of x ++ bytes /\
    playable_bytes st' x' = Some (buffer_of x ++ bytes).
Proof.
  intros Hgate Htype Hne Hdata Hatob Hfind st'.
  destruct (later_event_gated r ok event rid st Hne (or_introl Hgate))
    as (Ha & Hs & Hr).
  split; [exact Ha|]. split; [exact Hs|]. split; [exact Hr|]. split.
  - intros h Hh. apply element_bytes_kept;
      [exact Ha | apply blobs_handleStreamEvent | exact Hh].
  - destruct (chunk_appended r ok event rid st x payload bytes
                Htype Hdata Hatob Hfind) as (x' & Hx' & _ & Hbuf & _ & Hplay).
    exists x'. split; [exact Hx'|]. split; [exact Hbuf | exact Hplay].
Qed.

Lemma C4_second_chunk_while_the_first_plays :
  let first := handleStreamEvent wav true (chunk_event 1 "SGVsbG8=") "r1"
                 (fresh "r1") in
  let playing := onplay 0 first in
  let second := handleStreamEvent wav true (chunk_event 2 "V29ybGQ=") "r1"
                  playing in
  streamingAudio playing = Some "r1" /\
  streamingAudioRef second = Some 0%nat /\
  option_map paused (audios second !! 0%nat) = Some false /\
  element_bytes second 0 = Some [72; 101; 108; 108; 111] /\
  exists x',
    find_result "r1" (results second) = Some x' /\
    playable_bytes second x'
      = Some ([72; 101; 108; 108; 111] ++ [87; 111; 114; 108; 100]).
Proof.
  cbv zeta.
  destruct (C4_later_chunk_never_swaps_the_handle wav true
              (chunk_event 2 "V29ybGQ=") "r1"
              (onplay 0 (handleStreamEvent wav true (chunk_event 1 "SGVsbG8=")
                           "r1" (fresh "r1")))
              (appended [72; 101; 108; 108; 111] (BlobUrl 0)
                 (newResult "r1" "hello world" "douyin" "v" "t"))
              "V29ybGQ=" [87; 111; 114; 108; 100]
              eq_refl eq_refl ltac:(discriminate) eq_refl eq_refl eq_refl)
    as (Ha & Hs & _ & Hbytes & x' & Hx' & _ & Hplay).
  split; [vm_compute; reflexivity|].
  split; [rewrite Hs; vm_compute; reflexivity|].
  split; [rewrite Ha; vm_compute; reflexivity|].
  split.
  - rewrite Hbytes; [vm_compute; reflexivity|].
    exists [72; 101; 108; 108; 111]. vm_compute. reflexivity.
  - exists x'. split; [exact Hx' | exact Hplay].
Defined.


Lemma map_ingest_others r ok event rid arr (rs : list SynthesisResult) st :
  Forall (fun y => id y <> rid) rs ->
  map_ingest r ok event rid arr rs st = (rs, st).
Proof.
  induction 1 as [|y rest Hy _ IH]; simpl; [reflexivity|].
  apply String.eqb_neq in Hy. rewrite Hy, IH. reflexivity.
Qed.

(** With one result of that id, the callback runs once. *)
Lemma map_ingest_unique r ok event rid arr pre x post st :
  id x = rid ->
  Forall (fun y => id y <> rid) (pre ++ post) ->
  map_ingest r ok event rid arr (pre ++ x :: post) st
  = (pre ++ fst (ingest r ok event rid arr x st) :: post,
     snd (ingest r ok event rid arr x st)).
Proof.
  intros Hx Hothers. apply Forall_app in Hothers as [Hpre Hpost].
  induction Hpre as [|y rest Hy _ IH]; cbn [app map_ingest].
  - apply String.eqb_eq in Hx. rewrite Hx.
    destruct (ingest r ok event rid arr x st) as [x' st1].
    rewrite map_ingest_others by exact Hpost. reflexivity.
  - apply String.eqb_neq in Hy. rewrite Hy, IH. reflexivity.
Qed.

(** C9 (as amended).  For an [audio_chunk] event.  If its non-empty payload
    decodes and the result is in the list once, one blob is made, of the
    result's bytes followed by the payload's; when [chunk_count] is 1, what
    the two ref cells point to is paused and a new element over that blob is
    made and played (if the browser lets it); for any other [chunk_count] no
    element starts playing,
    and the streaming element is replaced, by a paused one over the new buffer
    that resumes when it has loaded, only if the render's [streamingAudio] is
    this result and a streaming element exists.  Otherwise (the gate closed)
    a chunk not numbered 1 leaves every element and both ref cells untouched,
    whatever the list holds.  And an event without payload, or whose payload
    does not decode, starts and updates nothing, whatever its number. *)
Theorem C9_first_chunk_starts_other_chunks_update r ok event rid st :
  type event = audio_chunk ->
  let st' := handleStreamEvent r ok event rid st in
  let url := BlobUrl (length (blobs st)) in
  (forall payload bytes pre x post,
     truthy (data event) = Some payload ->
     Base64.atob payload = Some bytes ->
     results st = pre ++ x :: post ->
     id x = rid ->
     Forall (fun y => id y <> rid) (pre ++ post) ->
     blobs st'
     = blobs st ++ [{| blob_bytes := buffer_of x ++ bytes;
                       blob_type := mimeType r |}]
     /\
     (chunk_count event = Some 1 ->
        audios st'
          = pause_in (audioRef st) (pause_in (streamingAudioRef st) (audios st))
            ++ [{| src := url; paused := negb ok; currentTime := 0;
                   handlers := FromPlayStreaming rid |}]
        /\ streamingAudioRef st' = Some (length (audios st)))
     /\
     (chunk_count event <> Some 1 ->
        starts_nothing st st' /\
        match streamingAudioRef st with
        | Some old =>
            match audios st !! old with
            | Some a =>
                if is_id (seen_streamingAudio r) rid then
                  audios st'
                    = alter (with_paused true) old (audios st)
                      ++ [{| src := url; paused := true; currentTime := 0;
                             handlers := FromUpdateStreaming rid (currentTime a)
                                           (negb (paused a)) |}]
                  /\ streamingAudioRef st' = Some (length (audios st))
                  /\ forall d ok',
                       exists b,
                         audios (onloadeddata (length (audios st)) d ok' st')
                           !! length (audios st) = Some b /\
                         src b = url /\
                         currentTime b
                           = (if (0 <? currentTime a) && before (currentTime a) d
                              then currentTime a else 0) /\
                         paused b = negb (negb (paused a) && ok')
                else audios st' = audios st
                     /\ streamingAudioRef st' = streamingAudioRef st
            | None => audios st' = audios st
                      /\ streamingAudioRef st' = streamingAudioRef st
            end
        | None => audios st' = audios st
                  /\ streamingAudioRef st' = streamingAudioRef st
        end))
  /\
  (chunk_count event <> Some 1 ->
   is_id (seen_streamingAudio r) rid = false \/ streamingAudioRef st = None ->
   starts_nothing st st' /\
   audios st' = audios st /\
   streamingAudioRef st' = streamingAudioRef st /\
   audioRef st' = audioRef st)
  /\
  (truthy (data event) = None \/
   (exists payload, truthy (data event) = Some payload /\
                    Base64.atob payload = None) ->
   audios st' = audios st /\
   streamingAudioRef st' = streamingAudioRef st /\
   audioRef st' = audioRef st /\
   results st' = results st /\
   blobs st' = blobs st).
Proof.
  intros Htype st' url. split; [|split].
  - intros payload bytes pre x post Hdata Hatob Hres Hx Hothers.
    subst st'. unfold handleStreamEvent. rewrite Htype, Hdata, Hatob.
    set (st0 := note (console_log "Stream event") st).
    change (results st0) with (results st). rewrite Hres.
    rewrite map_ingest_unique by assumption.
    cbn [audios streamingAudioRef blobs setResults setStreamingStatus].
    split.
    { destruct (ingest_spec r ok event rid (charCodes_to_Uint8Array bytes) x st0)
        as [_ ->].
      rewrite (atob_bytes _ _ Hatob), combine_is_concat, concat_app.
      cbn. rewrite app_nil_r. reflexivity. }
    unfold ingest, createObjectURL. cbn [snd].
    set (st1 := set_blobs _ st0).
    change (length (blobs st0)) with (length (blobs st)). fold url.
    split.
    + intros ->.
      destruct (playStreamingAudio_spec ok rid url st1) as (Ha & Hs & _).
      split; [exact Ha | exact Hs].
    + intros Hne.
      assert (Hupd : match chunk_count event with
                     | Some 1 => playStreamingAudio ok rid url st1
                     | _ => updateStreamingAudio r rid url st1
                     end = updateStreamingAudio r rid url st1).
      { destruct (chunk_count event) as [[|[p|p|]|]|]; try reflexivity.
        contradiction. }
      rewrite Hupd. split.
      * exact (updateStreamingAudio_starts_nothing r rid url st1).
      * change (streamingAudioRef st) with (streamingAudioRef st1).
        change (audios st) with (audios st1).
        destruct (streamingAudioRef st1) as [old|] eqn:Href;
          [|rewrite updateStreamingAudio_gated by auto; auto].
        destruct (audios st1 !! old) as [a|] eqn:Hold.
        -- destruct (is_id (seen_streamingAudio r) rid) eqn:Hgate;
             [|rewrite updateStreamingAudio_gated by auto; auto].
           destruct (updateStreamingAudio_swaps r rid url st1 old a Hgate Href Hold)
             as (Ha & Hs & _).
           split; [exact Ha|]. split; [exact Hs|].
           intros d ok'.
           set (st2 := setStreamingStatus _ _).
           assert (Hnew : audios st2 !! length (audios st1)
                          = Some {| src := url; paused := true; currentTime := 0;
                                    handlers := FromUpdateStreaming rid
                                                  (currentTime a)
                                                  (negb (paused a)) |}).
           { subst st2. cbn [audios setStreamingStatus setResults]. rewrite Ha.
             rewrite lookup_app_r by (rewrite length_alter; lia).
             rewrite length_alter.
             replace (length (audios st1) - length (audios st1))%nat
               with 0%nat by lia.
             reflexivity. }
           destruct (loaded_element _ d ok' st2 _ _ _ _ Hnew eq_refl)
             as (b & Hb & Hsrc & Htime & Hpaused).
           exists b. split; [exact Hb|]. split; [exact Hsrc|].
           split; [exact Htime|]. rewrite Hpaused. cbn.
           destruct (negb (paused a) && ok'); reflexivity.
        -- unfold updateStreamingAudio. rewrite Href, Hold.
           destruct (is_id _ _); auto.
  - intros Hne Hgate. subst st'.
    destruct (later_event_gated r ok event rid st Hne Hgate) as (Ha & Hs & Hr).
    split; [|repeat apply conj; assumption].
    intros h a' Hlook Hp. rewrite Ha in Hlook. eauto.
  - intros Hbad. exact (unusable_chunk_frame r ok event rid st Htype Hbad).
Qed.

Lemma C9_first_chunk_starts_witness :
  audios (handleStreamEvent wav true (chunk_event 1 "SGVsbG8=") "r1" (fresh "r1"))
    = [{| src := BlobUrl 0; paused := false; currentTime := 0;
          handlers := FromPlayStreaming "r1" |}].
Proof.
  destruct (C9_first_chunk_starts_other_chunks_update wav true
              (chunk_event 1 "SGVsbG8=") "r1" (fresh "r1") eq_refl)
    as [Hdecoded _].
  destruct (Hdecoded "SGVsbG8=" [72; 101; 108; 108; 111] []
              (newResult "r1" "hello world" "douyin" "v" "t") []
              eq_refl eq_refl eq_refl eq_refl (Forall_nil_2 _))
    as (_ & Hfirst & _).
  destruct (Hfirst eq_refl) as [Haudios _]. exact Haudios.
Defined.

(** C9 (as stated) fails twice.  A second chunk that arrives while the
    [streamingAudio] of the handler's render is not this result updates
    nothing: the streaming element is still the one over the first buffer
    although the result already points to the second.
    And a chunk numbered 1 that carries no payload starts nothing. *)
Lemma C9_gate_closed_no_update_no_start :
  let first := handleStreamEvent wav true (chunk_event 1 "SGVsbG8=") "r1"
                 (fresh "r1") in
  let second := handleStreamEvent (render "wav" first) true
                  (chunk_event 2 "V29ybGQ=") "r1" first in
  (streamingAudioRef second = Some 0%nat /\
   audios second = audios first /\
   option_map src (audios second !! 0%nat) = Some (BlobUrl 0) /\
   option_map stream_audio_url (find_result "r1" (results second))
     = Some (Some (BlobUrl 1))) /\
  audios (handleStreamEvent wav true (bare_chunk_event 1) "r1" (fresh "r1")) = [].
Proof. cbv zeta. repeat apply conj; vm_compute; reflexivity. Qed.

(** C3: the code breaks it.  While the stream of ["r1"] plays (its first
    chunk has started and the [play] event has been handled), the user plays
    the older result: [playAudio] pauses only what [audioRef] points to, so
    both elements are playing afterwards. *)
Theorem C3_playAudio_leaves_the_stream_playing :
  let streaming := onplay 0 (handleStreamEvent wav true
                               (chunk_event 1 "SGVsbG8=") "r1"
                               (with_older "r1")) in
  let both := playAudio (render "wav" streaming) "http://host:8000" true
                older streaming in
  currentPlaying streaming = Some "r1" /\
  map paused (audios streaming) = [false] /\
  map paused (audios both) = [false; false] /\
  map src (live both)
    = [BlobUrl 0; HttpUrl "http://host:8000/api/tts/download/r0.wav"] /\
  streamingAudioRef both = Some 0%nat /\ audioRef both = Some 1%nat.
Proof. cbv zeta. repeat apply conj; vm_compute; reflexivity. Qed.

End Player.

(** ** Line framing of the synthesis stream *)

Section Framing.

Import Stream.

Lemma append_assoc (a b c : string) :
  String.append (String.append a b) c = String.append a (String.append b c).
Proof. induction a as [|ch a IH]; simpl; [reflexivity | rewrite IH; reflexivity]. Qed.

Lemma append_empty_r (a : string) : String.append a EmptyString = a.
Proof. induction a as [|ch a IH]; simpl; [reflexivity | rewrite IH; reflexivity]. Qed.

(** A split always has a last piece. *)
Lemma split_newline_snoc (s : string) :
  exists init tail, split_newline s = init ++ [tail].
Proof.
  induction s as [|c s (init & tail & IH)]; simpl.
  - exists [], EmptyString. reflexivity.
  - destruct (is_newline c).
    + exists (EmptyString :: init), tail. rewrite IH. reflexivity.
    + rewrite IH. destruct init as [|first more]; simpl.
      * exists [], (String c tail). reflexivity.
      * exists (String c first :: more), tail. reflexivity.
Qed.

(** Text added after a split only touches its last piece. *)
Lemma split_newline_append (s : string) :
  forall init tail more,
    split_newline s = init ++ [tail] ->
    split_newline (String.append s more)
    = init ++ split_newline (String.append tail more).
Proof.
  induction s as [|c s IH]; intros init tail more Hs; simpl in *.
  - destruct init as [|x [|y init]]; simpl in Hs; try discriminate.
    injection Hs as <-. reflexivity.
  - destruct (split_newline_snoc s) as (init' & tail' & Hs').
    rewrite Hs' in Hs. rewrite (IH init' tail' more Hs').
    destruct (is_newline c) eqn:Hc.
    + change (EmptyString :: init' ++ [tail'])
        with ((EmptyString :: init') ++ [tail']) in Hs.
      apply app_inj_tail in Hs as [<- <-]. reflexivity.
    + destruct init' as [|first rest]; simpl in Hs.
      * destruct init as [|x [|y init]]; simpl in Hs; try discriminate.
        injection Hs as <-. simpl. rewrite Hc. reflexivity.
      * change (String c first :: rest ++ [tail'])
          with ((String c first :: rest) ++ [tail']) in Hs.
        apply app_inj_tail in Hs as [<- <-]. reflexivity.
Qed.

Lemma split_newline_no_newline (s : string) :
  has_newline s = false -> split_newline s = [s].
Proof.
  induction s as [|c s IH]; simpl; [reflexivity|].
  destruct (is_newline c); [discriminate|]. simpl.
  intros H. rewrite (IH H). reflexivity.
Qed.

(** The last piece holds no newline. *)
Lemma split_newline_tail (s : string) :
  forall init tail, split_newline s = init ++ [tail] -> has_newline tail = false.
Proof.
  induction s as [|c s IH]; intros init tail Hs; simpl in *.
  - destruct init as [|x [|y init]]; simpl in Hs; try discriminate.
    injection Hs as <-. reflexivity.
  - destruct (split_newline_snoc s) as (init' & tail' & Hs').
    rewrite Hs' in Hs. specialize (IH init' tail' Hs').
    destruct (is_newline c) eqn:Hc.
    + change (EmptyString :: init' ++ [tail'])
        with ((EmptyString :: init') ++ [tail']) in Hs.
      apply app_inj_tail in Hs as [_ <-]. exact IH.
    + destruct init' as [|first rest]; simpl in Hs.
      * destruct init as [|x [|y init]]; simpl in Hs; try discriminate.
        injection Hs as <-. simpl. rewrite Hc. exact IH.
      * change (String c first :: rest ++ [tail'])
          with ((String c first :: rest) ++ [tail']) in Hs.
        apply app_inj_tail in Hs as [_ <-]. exact IH.
Qed.

Lemma last_snoc_default (init : list string) (tail : string) :
  default EmptyString (last (init ++ [tail])) = tail.
Proof. rewrite last_snoc. reflexivity. Qed.

Lemma removelast_snoc (init : list string) (tail : string) :
  removelast (init ++ [tail]) = init.
Proof. apply removelast_last. Qed.


Section AnyCaller.

Variable JSON_parse : string -> option TTS.TTSStreamEvent.
Variable Caller : Type.
Variable callback : TTS.TTSStreamEvent -> Caller -> Caller.

Local Abbreviation handle := (handle_line JSON_parse Caller callback).
Local Abbreviation loop := (read_loop JSON_parse Caller callback).

(** Whatever the reads, the loop handles the complete lines of the text
    received so far and keeps the unfinished last line in the buffer. *)
Lemma read_loop_spec (reads : list string) :
  forall buffer env init tail,
    has_newline buffer = false ->
    split_newline (String.append buffer (join reads)) = init ++ [tail] ->
    loop reads buffer env = (tail, fold_left handle init env).
Proof.
  induction reads as [|value rest IH]; intros buffer env init tail Hbuf Hsplit.
  - simpl in *. rewrite append_empty_r, (split_newline_no_newline _ Hbuf) in Hsplit.
    destruct init as [|x [|y init]]; simpl in Hsplit; try discriminate.
    injection Hsplit as <-. reflexivity.
  - cbn [read_loop].
    change (join (value :: rest)) with (String.append value (join rest)) in Hsplit.
    destruct (split_newline_snoc (String.append buffer value)) as (i1 & t1 & H1).
    rewrite H1, last_snoc_default, removelast_snoc.
    rewrite <- append_assoc in Hsplit.
    rewrite (split_newline_append _ i1 t1 _ H1) in Hsplit.
    destruct (split_newline_snoc (String.append t1 (join rest))) as (i2 & t2 & H2).
    rewrite H2, app_assoc in Hsplit.
    apply app_inj_tail in Hsplit as [<- <-].
    rewrite fold_left_app.
    apply IH; [|exact H2].
    exact (split_newline_tail _ _ _ H1).
Qed.

End AnyCaller.

Lemma split_newline_line (line rest : string) :
  has_newline line = false ->
  split_newline (String.append line (String "010"%char rest))
  = line :: split_newline rest.
Proof.
  induction line as [|c line IH]; simpl; [reflexivity|].
  destruct (is_newline c); [discriminate|]. simpl.
  intros H. rewrite (IH H). reflexivity.
Qed.

Lemma split_newline_unlines (lines : list string) :
  Forall (fun line => has_newline line = false) lines ->
  split_newline (unlines lines) = lines ++ [EmptyString].
Proof.
  induction 1 as [|line rest Hline _ IH]; [reflexivity|].
  cbn [unlines fold_right]. rewrite split_newline_line by exact Hline.
  fold (unlines rest). rewrite IH. reflexivity.
Qed.

Lemma split_newline_unlines_tail (lines : list string) (tail : string) :
  Forall (fun line => has_newline line = false) lines ->
  has_newline tail = false ->
  split_newline (String.append (unlines lines) tail) = lines ++ [tail].
Proof.
  intros Hlines Htail. induction Hlines as [|line rest Hline _ IH].
  - cbn. apply split_newline_no_newline, Htail.
  - cbn [unlines fold_right]. fold (unlines rest).
    rewrite append_assoc. cbn [String.append].
    rewrite split_newline_line by exact Hline. rewrite IH. reflexivity.
Qed.

(** With the callback that records what it is given, the lines handled add
    their events to the record. *)
Lemma fold_handle_line_records JSON_parse (lines : list string) :
  forall seen console,
    fst (fold_left (handle_line JSON_parse (list TTS.TTSStreamEvent)
                      (fun event seen => seen ++ [event]))
                   lines (seen, console))
    = seen ++ events_of JSON_parse lines.
Proof.
  induction lines as [|line rest IH]; intros seen console; simpl.
  - rewrite app_nil_r. reflexivity.
  - unfold handle_line at 2, event_of.
    destruct (startsWith_data line); [|apply IH].
    destruct (JSON_parse (slice 6 line)) as [event|]; cbn [fst snd].
    + rewrite IH, <- app_assoc. reflexivity.
    + apply IH.
Qed.

Lemma events_of_app JSON_parse (a b : list string) :
  events_of JSON_parse (a ++ b) = events_of JSON_parse a ++ events_of JSON_parse b.
Proof.
  induction a as [|line a IH]; simpl; [reflexivity|].
  destruct (event_of JSON_parse line); rewrite IH; reflexivity.
Qed.

(** A record begins with [data: ], and what follows these six characters is
    its payload; a line that begins with them is a record. *)
Lemma startsWith_record (payload : string) :
  startsWith_data (record payload) = true.
Proof. destruct payload; reflexivity. Qed.

Lemma slice_record (payload : string) : slice 6 (record payload) = payload.
Proof. reflexivity. Qed.

Lemma startsWith_data_record (line : string) :
  startsWith_data line = true -> line = record (slice 6 line).
Proof.
  unfold startsWith_data, record. intros H.
  apply String.prefix_correct in H.
  do 6 (destruct line as [|? line]; cbn in H; [discriminate|];
        injection H as Hc H; subst).
  reflexivity.
Qed.

Lemma no_record_no_data (line : string) :
  (forall payload, line <> record payload) -> startsWith_data line = false.
Proof.
  intros Hno. destruct (startsWith_data line) eqn:E; [|reflexivity].
  exfalso. exact (Hno _ (startsWith_data_record line E)).
Qed.

(** The loop's body does to each line what its fate says. *)
Lemma fold_handle_line_fates JSON_parse (Caller : Type)
  (callback : TTS.TTSStreamEvent -> Caller -> Caller)
  (lines : list string) (fates : list Fate) :
  Forall2 (fate_of JSON_parse) lines fates ->
  forall env,
    fold_left (handle_line JSON_parse Caller callback) lines env
    = (hand_over callback (handed_on fates) (fst env),
       snd env ++ complaints fates).
Proof.
  unfold hand_over.
  induction 1 as [|line fate lines fates Hfate _ IH]; intros [caller console].
  - cbn. rewrite app_nil_r. reflexivity.
  - cbn [fold_left]. rewrite IH. unfold handle_line.
    destruct fate as [event| |]; cbn [fate_of] in Hfate.
    + destruct Hfate as (payload & -> & Hparse).
      rewrite startsWith_record, slice_record, Hparse. reflexivity.
    + destruct Hfate as (payload & -> & Hparse).
      rewrite startsWith_record, slice_record, Hparse. cbn.
      rewrite <- app_assoc. reflexivity.
    + rewrite (no_record_no_data line Hfate). reflexivity.
Qed.

(** The loop over reads that come one after the other. *)
Lemma read_loop_app JSON_parse (Caller : Type)
  (callback : TTS.TTSStreamEvent -> Caller -> Caller) (reads more : list string) :
  forall buffer env,
    read_loop JSON_parse Caller callback (reads ++ more) buffer env
    = read_loop JSON_parse Caller callback more
        (fst (read_loop JSON_parse Caller callback reads buffer env))
        (snd (read_loop JSON_parse Caller callback reads buffer env)).
Proof.
  induction reads as [|value rest IH]; intros buffer env; [reflexivity|].
  cbn [app read_loop]. apply IH.
Qed.

(** C7.  However the stream's text is cut into reads: every line that a
    newline has closed meets its fate once, in the order of the text (a
    record is parsed from its whole payload and the event handed to the
    callback, whether it came in one read or in several), and what follows
    the last newline is kept in the buffer, unparsed; the reads that come
    next are handled from there, the kept text in front of them.  So a
    record is handed on only when the read that brings its newline has
    come, and no record is lost or handed on twice. *)
Theorem C7_records_reassembled_across_reads
  (JSON_parse : string -> option TTS.TTSStreamEvent)
  (Caller : Type) (callback : TTS.TTSStreamEvent -> Caller -> Caller)
  (reads lines : list string) (fates : list Fate) (tail : string)
  (env : Env Caller) :
  join reads = String.append (unlines lines) tail ->
  Forall (fun line => has_newline line = false) lines ->
  has_newline tail = false ->
  Forall2 (fate_of JSON_parse) lines fates ->
  read_loop JSON_parse Caller callback reads EmptyString env
  = (tail,
     (hand_over callback (handed_on fates) (fst env),
      snd env ++ complaints fates))
  /\
  (forall more,
     read_loop JSON_parse Caller callback (reads ++ more) EmptyString env
     = read_loop JSON_parse Caller callback more tail
         (hand_over callback (handed_on fates) (fst env),
          snd env ++ complaints fates))
  /\
  synthesizeTextStreamAdvanced JSON_parse Caller callback (body reads done) env
  = (hand_over callback (handed_on fates) (fst env),
     snd env ++ complaints fates).
Proof.
  intros Htext Hlines Htail Hfates.
  pose proof (split_newline_unlines_tail lines tail Hlines Htail) as Hsplit.
  rewrite <- Htext in Hsplit.
  assert (Hloop : read_loop JSON_parse Caller callback reads EmptyString env
                  = (tail,
                     (hand_over callback (handed_on fates) (fst env),
                      snd env ++ complaints fates))).
  { rewrite (read_loop_spec JSON_parse _ _ reads EmptyString _ lines tail
               eq_refl Hsplit).
    rewrite (fold_handle_line_fates _ _ _ _ _ Hfates). reflexivity. }
  split; [exact Hloop|]. split.
  - intros more. rewrite read_loop_app, Hloop. reflexivity.
  - unfold synthesizeTextStreamAdvanced. rewrite Hloop. reflexivity.
Qed.

(** One record cut in three reads: nothing is handed on after two of them,
    when thirteen characters wait in the buffer, and the event is handed on
    once, after the third. *)
Lemma C7_record_in_three_reads :
  let reads := [substring 0 4 (data_line "start");
                substring 4 9 (data_line "start");
                String.append (substring 13 9 (data_line "start"))
                              (String "010"%char EmptyString)] in
  read_loop parse_type_object (list TTS.TTSStreamEvent)
    (fun event seen => seen ++ [event]) (firstn 2 reads) EmptyString ([], [])
  = (substring 0 13 (data_line "start"), ([], []))
  /\
  read_loop parse_type_object (list TTS.TTSStreamEvent)
    (fun event seen => seen ++ [event]) reads EmptyString ([], [])
  = (EmptyString, ([event_named "start"], [])).
Proof.
  cbv zeta. split.
  - apply (C7_records_reassembled_across_reads parse_type_object
             (list TTS.TTSStreamEvent) (fun event seen => seen ++ [event])
             [substring 0 4 (data_line "start");
              substring 4 9 (data_line "start")]
             [] [] (substring 0 13 (data_line "start")) ([], [])).
    + reflexivity.
    + constructor.
    + reflexivity.
    + constructor.
  - apply (C7_records_reassembled_across_reads parse_type_object
             (list TTS.TTSStreamEvent) (fun event seen => seen ++ [event])
             [substring 0 4 (data_line "start");
              substring 4 9 (data_line "start");
              String.append (substring 13 9 (data_line "start"))
                            (String "010"%char EmptyString)]
             [data_line "start"] [handed (event_named "start")] EmptyString
             ([], [])).
    + reflexivity.
    + repeat constructor.
    + reflexivity.
    + constructor; [|constructor].
      exists (String.append type_key (String.append "start" (String quote "}"))).
      split; reflexivity.
Defined.







End Framing.

(** ** Waiting for the conversion *)

Section Waiting.

Import Slide.






End Waiting.

(** ** Advancing to the next segment *)

Section Sequencing.

(** The playback state [onEnded] sets when there is no next segment. *)
Lemma workflow_ended_spec (play_ok : bool) (st : Workflow.State) a :
  Workflow.audioRef st = Some a ->
  let next := Workflow.currentAudioIndex st + 1 in
  let st' := Workflow.ended play_ok st in
  Workflow.audioSegments st' = Workflow.audioSegments st /\
  if Workflow.startable play_ok st then
    Workflow.currentAudioIndex st' = next /\
    Workflow.isPlaying (Workflow.playbackState st') = true /\
    Workflow.currentSegment (Workflow.playbackState st') = next /\
    Workflow.element_paused st' = false
  else
    Workflow.currentAudioIndex st' = Workflow.currentAudioIndex st /\
    Workflow.element_paused st' = true /\
    Workflow.playbackState st'
    = if next <? Z.of_nat (length (Workflow.audioSegments st))
      then Workflow.playbackState st
      else {| Workflow.isPlaying := false; Workflow.currentSegment := 0;
              Workflow.totalSegments
                := Workflow.totalSegments (Workflow.playbackState st);
              Workflow.currentTime
                := Workflow.currentTime (Workflow.playbackState st);
              Workflow.totalTime
                := Workflow.totalTime (Workflow.playbackState st);
              Workflow.volume := Workflow.volume (Workflow.playbackState st);
              Workflow.speed := Workflow.speed (Workflow.playbackState st) |}.
Proof.
  intros Href. cbv zeta.
  unfold Workflow.ended, Workflow.startable, Workflow.onEnded, Workflow.at_index.
  rewrite Href. cbn [Workflow.audioSegments Workflow.with_audio
                       Workflow.currentAudioIndex].
  set (next := Workflow.currentAudioIndex st + 1).
  destruct (next <? Z.of_nat (length (Workflow.audioSegments st))) eqn:Hrange.
  - unfold Workflow.playAudioSegment, Workflow.at_index.
    cbn [Workflow.audioSegments Workflow.with_audio Workflow.audioRef].
    destruct (next <? 0); [cbn; auto|].
    destruct (Workflow.audioSegments st !! Z.to_nat next) as [segment|];
      [|cbn; auto].
    destruct (Base64.atob (Workflow.audioData segment)) as [bytes|];
      [|cbn; auto].
    destruct play_ok; cbn; auto.
  - assert (Hnone : (if next <? 0 then None
                     else Workflow.audioSegments st !! Z.to_nat next) = None).
    { destruct (next <? 0) eqn:Hneg; [reflexivity|].
      apply lookup_ge_None. apply Z.ltb_ge in Hrange, Hneg. lia. }
    rewrite Hnone. cbn. auto.
Qed.

(** What [handleAudioEnded] sets going, run to its end. *)
Lemma ppt_after_ended (ready : nat -> bool) (late : nat -> Z) (fuel : nat)
  (t0 : Z) (st : PPT.State) :
  PPT.timers st = [] ->
  let next := PPT.currentSlideIndex st + 1 in
  let ended := PPT.handleAudioEnded st in
  let done := PPT.run (S (S fuel)) ready late 0 0 t0 ended in
  PPT.timers (PPT.final done) = [] /\
  if next <? Z.of_nat (length (PPT.slides st)) then
    PPT.timers ended = [(1000, PPT.show_next next)] /\
    PPT.fired done
    = [(t0 + 1000 + late 0%nat, PPT.show_next next);
       (t0 + 1000 + late 0%nat + 500 + late 1%nat, PPT.play_next next)] /\
    PPT.currentSlideIndex (PPT.final done) = next /\
    match PPT.audioRef st with
    | Some _ =>
        PPT.attempts done = 1%nat /\
        option_map Element.src (PPT.audioRef (PPT.final done))
          = Some (Some (PPT.getSlideAudioUrl (PPT.documentId st) (next + 1))) /\
        PPT.isPlayingAudio (PPT.final done) = ready 0%nat /\
        PPT.currentAudioPage (PPT.final done)
          = (if ready 0%nat then Some (next + 1) else None) /\
        PPT.element_paused (PPT.final done) = negb (ready 0%nat)
    | None =>
        PPT.attempts done = 0%nat /\
        PPT.isPlayingAudio (PPT.final done) = false /\
        PPT.audioRef (PPT.final done) = None
    end
  else
    PPT.timers ended = [] /\
    PPT.fired done = [] /\
    PPT.attempts done = 0%nat /\
    PPT.currentSlideIndex (PPT.final done) = PPT.currentSlideIndex st /\
    PPT.isPlayingAudio (PPT.final done) = false /\
    PPT.audioRef (PPT.final done) = PPT.audioRef st.
Proof.
  intros Htimers. cbv zeta.
  destruct st as [doc idx sl playing page aref tm nt]. cbn in Htimers.
  subst tm. unfold PPT.handleAudioEnded.
  cbn [PPT.slides PPT.setPlaying PPT.currentSlideIndex PPT.audioRef].
  destruct (idx + 1 <? Z.of_nat (length sl)).
  - destruct aref as [a|].
    + destruct (ready 0%nat) eqn:Hready; cbn; rewrite Hready; destruct fuel; cbn;
        repeat apply conj; reflexivity.
    + destruct fuel; cbn; repeat apply conj; reflexivity.
  - destruct fuel; cbn; repeat apply conj; reflexivity.
Qed.

(** The handler looks at the slide on show, not at the page that played. *)
Lemma ppt_next_is_after_the_slide_on_show (st : PPT.State) :
  (forall playing page,
     PPT.handleAudioEnded (PPT.setPlaying playing page st)
     = PPT.handleAudioEnded st) /\
  (forall index,
     0 <= index -> index + 1 < Z.of_nat (length (PPT.slides st)) ->
     PPT.timers (PPT.handleAudioEnded (Navigation.goToSlide index st))
     = PPT.timers st ++ [(1000, PPT.show_next (index + 1))]).
Proof.
  split.
  - intros playing page. reflexivity.
  - intros index H0 H1. unfold Navigation.goToSlide.
    assert (Hin : (0 <=? index) && (index <? Z.of_nat (length (PPT.slides st)))
                  = true).
    { apply andb_true_iff. split; [apply Z.leb_le | apply Z.ltb_lt]; lia. }
    rewrite Hin. unfold PPT.handleAudioEnded.
    cbn [PPT.slides PPT.setPlaying PPT.setCurrentSlideIndex PPT.currentSlideIndex].
    assert (Hnext : (index + 1 <? Z.of_nat (length (PPT.slides st))) = true)
      by (apply Z.ltb_lt; lia).
    rewrite Hnext. reflexivity.
Qed.

(** C5 (as amended).  When a segment's playback ends, one index is tried
    next, once: the component's current index plus one.  In
    [DocumentWorkflow] that is the index of the segment last started; the next
    segment is started at once if it has arrived and can be played; if not,
    nothing is started, the index stays, and the playback state is left as
    it is, or, when there is no further segment, reset to not playing at
    segment 0.  In [PPTPresentation] it is the index of the slide on show
    when the audio ends, whatever page was playing: the slide after that one
    is shown 1000 ms later and [play] is called for its page, once, 500 ms
    after that (plus whatever the browser is late by); then no timer is
    left, whether the call succeeded or not.  Neither component polls or
    retries, and neither throws. *)
Theorem C5_ended_tries_the_next_index_once :
  (forall (play_ok : bool) (st : Workflow.State) a,
     Workflow.audioRef st = Some a ->
     let next := Workflow.currentAudioIndex st + 1 in
     let st' := Workflow.ended play_ok st in
     Workflow.audioSegments st' = Workflow.audioSegments st /\
     if Workflow.startable play_ok st then
       Workflow.currentAudioIndex st' = next /\
       Workflow.isPlaying (Workflow.playbackState st') = true /\
       Workflow.currentSegment (Workflow.playbackState st') = next /\
       Workflow.element_paused st' = false
     else
       Workflow.currentAudioIndex st' = Workflow.currentAudioIndex st /\
       Workflow.element_paused st' = true /\
       Workflow.playbackState st'
       = if next <? Z.of_nat (length (Workflow.audioSegments st))
         then Workflow.playbackState st
         else {| Workflow.isPlaying := false; Workflow.currentSegment := 0;
                 Workflow.totalSegments
                   := Workflow.totalSegments (Workflow.playbackState st);
                 Workflow.currentTime
                   := Workflow.currentTime (Workflow.playbackState st);
                 Workflow.totalTime
                   := Workflow.totalTime (Workflow.playbackState st);
                 Workflow.volume := Workflow.volume (Workflow.playbackState st);
                 Workflow.speed := Workflow.speed (Workflow.playbackState st) |})
  /\
  (forall (ready : nat -> bool) (late : nat -> Z) (fuel : nat) (t0 : Z)
          (st : PPT.State),
     PPT.timers st = [] ->
     let next := PPT.currentSlideIndex st + 1 in
     let ended := PPT.handleAudioEnded st in
     let done := PPT.run (S (S fuel)) ready late 0 0 t0 ended in
     PPT.timers (PPT.final done) = [] /\
     if next <? Z.of_nat (length (PPT.slides st)) then
       PPT.timers ended = [(1000, PPT.show_next next)] /\
       PPT.fired done
       = [(t0 + 1000 + late 0%nat, PPT.show_next next);
          (t0 + 1000 + late 0%nat + 500 + late 1%nat, PPT.play_next next)] /\
       PPT.currentSlideIndex (PPT.final done) = next /\
       match PPT.audioRef st with
       | Some _ =>
           PPT.attempts done = 1%nat /\
           option_map Element.src (PPT.audioRef (PPT.final done))
             = Some (Some (PPT.getSlideAudioUrl (PPT.documentId st) (next + 1))) /\
           PPT.isPlayingAudio (PPT.final done) = ready 0%nat /\
           PPT.currentAudioPage (PPT.final done)
             = (if ready 0%nat then Some (next + 1) else None) /\
           PPT.element_paused (PPT.final done) = negb (ready 0%nat)
       | None =>
           PPT.attempts done = 0%nat /\
           PPT.isPlayingAudio (PPT.final done) = false /\
           PPT.audioRef (PPT.final done) = None
       end
     else
       PPT.timers ended = [] /\
       PPT.fired done = [] /\
       PPT.attempts done = 0%nat /\
       PPT.currentSlideIndex (PPT.final done) = PPT.currentSlideIndex st /\
       PPT.isPlayingAudio (PPT.final done) = false /\
       PPT.audioRef (PPT.final done) = PPT.audioRef st)
  /\
  (forall (st : PPT.State),
     (forall playing page,
        PPT.handleAudioEnded (PPT.setPlaying playing page st)
        = PPT.handleAudioEnded st) /\
     (forall index,
        0 <= index -> index + 1 < Z.of_nat (length (PPT.slides st)) ->
        PPT.timers (PPT.handleAudioEnded (Navigation.goToSlide index st))
        = PPT.timers st ++ [(1000, PPT.show_next (index + 1))])).
Proof.
  split; [|split].
  - exact workflow_ended_spec.
  - exact ppt_after_ended.
  - exact ppt_next_is_after_the_slide_on_show.
Qed.

Lemma C5_third_page_follows_the_second :
  let done := PPT.run 2 (fun _ => true) PPT.on_time 0 0 0
                (PPT.handleAudioEnded PPT.second_of_three_played) in
  PPT.fired done = [(1000, PPT.show_next 2); (1500, PPT.play_next 2)] /\
  PPT.currentSlideIndex (PPT.final done) = 2 /\
  PPT.currentAudioPage (PPT.final done) = Some 3 /\
  PPT.isPlayingAudio (PPT.final done) = true /\
  PPT.timers (PPT.final done) = [].
Proof.
  destruct C5_ended_tries_the_next_index_once as (_ & Hppt & _).
  destruct (Hppt (fun _ => true) PPT.on_time 0%nat 0 PPT.second_of_three_played
              eq_refl)
    as (Hnone & _ & Hfired & Hindex & _ & _ & Hplaying & Hpage & _).
  cbv zeta. split; [exact Hfired|]. split; [exact Hindex|].
  split; [exact Hpage|]. split; [exact Hplaying | exact Hnone].
Defined.

(** C5 (as stated) fails: nothing polls, and an index can be skipped.  In
    [PPTPresentation] the third page's audio is missing at the one call of
    [play] and would be there at a second call, which is never made: no timer
    is left and nothing plays.  In [DocumentWorkflow] the second of two
    segments ends before the third has arrived: playback halts, and when the
    third arrives, startable, nothing starts it.  And in [PPTPresentation],
    when the user moves to the fifth slide while the second page's audio
    plays, the end of that audio leads to the sixth slide and page. *)
Lemma C5_no_second_try :
  (let done := PPT.run 10 PPT.ready_after_first_try PPT.on_time 0 0 0
                 (PPT.handleAudioEnded PPT.second_of_three_played) in
   PPT.attempts done = 1%nat /\
   PPT.ready_after_first_try 1 = true /\
   PPT.timers (PPT.final done) = [] /\
   PPT.isPlayingAudio (PPT.final done) = false /\
   PPT.element_paused (PPT.final done) = true)
  /\
  (let halted := Workflow.ended true Workflow.second_of_two_played in
   let later := Workflow.onAudioChunk "IQ==" 3 3 halted in
   Workflow.isPlaying (Workflow.playbackState halted) = false /\
   Workflow.startable true later = true /\
   Workflow.element_paused later = true /\
   Workflow.currentAudioIndex later = 1)
  /\
  (let playing := PPT.playCurrentSlideAudio true PPT.six_slides_second_on_show in
   let moved := Navigation.goToSlide 4 playing in
   let done := PPT.run 10 (fun _ => true) PPT.on_time 0 0 0 (PPT.ended moved) in
   PPT.currentAudioPage moved = Some 2 /\
   PPT.element_paused moved = false /\
   PPT.currentSlideIndex moved = 4 /\
   PPT.currentSlideIndex (PPT.final done) = 5 /\
   PPT.currentAudioPage (PPT.final done) = Some 6).
Proof. cbv zeta. repeat apply conj; vm_compute; reflexivity. Qed.


(** [PPTPresentation] has one element: after [playCurrentSlideAudio] it is
    either paused or playing the page that was asked for, unless the request
    was the pause of the page that was playing. *)
Lemma playCurrentSlideAudio_one_element (play_ok : bool) (st : PPT.State) a :
  PPT.audioRef st = Some a ->
  exists a',
    PPT.audioRef (PPT.playCurrentSlideAudio play_ok st) = Some a' /\
    (Element.paused a' = false ->
     Element.src a'
     = Some (PPT.getSlideAudioUrl (PPT.documentId st)
               (PPT.currentSlideIndex st + 1))).
Proof.
  intros Href. unfold PPT.playCurrentSlideAudio. rewrite Href.
  destruct (PPT.isPlayingAudio st && _); [|destruct play_ok];
    cbn; eexists; (split; [reflexivity|]); cbn; auto; discriminate.
Qed.

End Sequencing.

(** ** Who holds the playing elements *)

Section Ownership.

Import TTS Controls.

(** [owned] only looks at the elements and the two ref cells. *)
Lemma owned_frame st st' :
  audios st' = audios st -> audioRef st' = audioRef st ->
  streamingAudioRef st' = streamingAudioRef st ->
  owned st -> owned st'.
Proof.
  unfold owned. intros -> -> -> H. exact H.
Qed.

Lemma lookup_alter_playing (f : Audio -> Audio) (l : list Audio) i h a :
  (forall x, paused (f x) = false -> paused x = false) ->
  alter f i l !! h = Some a -> paused a = false ->
  exists a0, l !! h = Some a0 /\ paused a0 = false.
Proof.
  intros Hf. destruct (decide (i = h)) as [->|Hne].
  - rewrite list_lookup_alter_eq. destruct (l !! h) as [a0|]; [|discriminate].
    cbn. intros [= <-] Hp. exists a0. split; [reflexivity | apply Hf, Hp].
  - rewrite list_lookup_alter_ne by assumption. eauto.
Qed.

(** Changing one element in a way that starts nothing keeps [owned]. *)
Lemma owned_alter (f : Audio -> Audio) h st :
  (forall x, paused (f x) = false -> paused x = false) ->
  owned st -> owned (set_audios (alter f h (audios st)) st).
Proof.
  intros Hf Hown k a Hlook Hp. cbn in *.
  destruct (lookup_alter_playing f _ _ _ _ Hf Hlook Hp) as (a0 & Ha0 & Hp0).
  exact (Hown k a0 Ha0 Hp0).
Qed.

Lemma owned_pause h st : owned st -> owned (pause h st).
Proof. apply owned_alter. intros x; cbn. discriminate. Qed.

Lemma owned_set_currentTime h t st : owned st -> owned (set_currentTime h t st).
Proof. apply owned_alter. intros x; cbn. auto. Qed.

Lemma owned_pause_ref ref st : owned st -> owned (pause_ref ref st).
Proof. destruct ref; cbn; [apply owned_pause | auto]. Qed.

Lemma owned_stop_ref ref st : owned st -> owned (stop_ref ref st).
Proof.
  destruct ref; cbn; [|auto].
  intros H. apply owned_set_currentTime, owned_pause, H.
Qed.

(** Playing an element that a ref cell holds keeps [owned]. *)
Lemma owned_play h ok st :
  audioRef st = Some h \/ streamingAudioRef st = Some h ->
  owned st -> owned (play h ok st).
Proof.
  intros Href Hown. unfold play. destruct ok; [|exact Hown].
  intros k a Hlook Hp. cbn in *.
  destruct (decide (h = k)) as [<-|Hne]; [exact Href|].
  rewrite list_lookup_alter_ne in Hlook by assumption.
  exact (Hown k a Hlook Hp).
Qed.

Lemma owned_playStreamingAudio ok rid url st :
  owned st -> owned (playStreamingAudio ok rid url st).
Proof.
  intros Hown h a Hlook Hp.
  rewrite (playStreamingAudio_single_live ok rid url st Hown h a Hlook Hp).
  right. apply playStreamingAudio_spec.
Qed.

Lemma owned_updateStreamingAudio r rid url st :
  owned st -> owned (updateStreamingAudio r rid url st).
Proof.
  intros Hown.
  destruct (is_id (seen_streamingAudio r) rid) eqn:Hgate;
    [|rewrite updateStreamingAudio_gated by auto; exact Hown].
  destruct (streamingAudioRef st) as [old|] eqn:Href;
    [|rewrite updateStreamingAudio_gated by auto; exact Hown].
  destruct (audios st !! old) as [a0|] eqn:Hold.
  - destruct (updateStreamingAudio_swaps r rid url st old a0 Hgate Href Hold)
      as (Ha & Hs & Har).
    intros h a. rewrite Ha, Hs, Har. intros Hlook Hp.
    destruct (decide (h < length (audios st))%nat) as [Hlt|Hge].
    + rewrite lookup_app_l in Hlook by (rewrite length_alter; exact Hlt).
      apply (lookup_pause_in (Some old)) in Hlook as [Hne Hlook]; [|exact Hp].
      destruct (Hown h a Hlook Hp) as [Hl|Hr]; [left; exact Hl|].
      rewrite Href in Hr. contradiction.
    + rewrite lookup_app_r in Hlook by (rewrite length_alter; lia).
      destruct (h - length (alter (with_paused true) old (audios st)))%nat
        as [|k]; cbn in Hlook; [|discriminate].
      injection Hlook as <-. discriminate.
  - unfold updateStreamingAudio. rewrite Hgate, Href, Hold. exact Hown.
Qed.

Lemma owned_ingest r ok event rid arr x st :
  owned st -> owned (snd (ingest r ok event rid arr x st)).
Proof.
  intros Hown. unfold ingest, createObjectURL. cbn [snd].
  set (st1 := set_blobs _ st).
  assert (Hown1 : owned st1) by (revert Hown; apply owned_frame; reflexivity).
  destruct (chunk_count event) as [[|[p|p|]|]|];
    auto using owned_playStreamingAudio, owned_updateStreamingAudio.
Qed.

Lemma owned_map_ingest r ok event rid arr (rs : list SynthesisResult) :
  forall st, owned st -> owned (snd (map_ingest r ok event rid arr rs st)).
Proof.
  induction rs as [|x rest IH]; intros st Hown; cbn [map_ingest]; [exact Hown|].
  destruct (String.eqb (id x) rid).
  - pose proof (owned_ingest r ok event rid arr x st Hown) as H1.
    destruct (ingest r ok event rid arr x st) as [x' st1]. cbn [snd] in H1.
    specialize (IH st1 H1).
    destruct (map_ingest r ok event rid arr rest st1). exact IH.
  - specialize (IH st Hown).
    destruct (map_ingest r ok event rid arr rest st). exact IH.
Qed.

Lemma owned_handleStreamEvent r ok event rid st :
  owned st -> owned (handleStreamEvent r ok event rid st).
Proof.
  intros Hown. unfold handleStreamEvent.
  destruct (type event); try (revert Hown; apply owned_frame; reflexivity).
  destruct (truthy (data event)) as [payload|];
    [|revert Hown; apply owned_frame; reflexivity].
  destruct (Base64.atob payload) as [audioData|];
    [|revert Hown; apply owned_frame; reflexivity].
  set (st0 := note (console_log "Stream event") st).
  assert (Hown0 : owned st0) by (revert Hown; apply owned_frame; reflexivity).
  pose proof (owned_map_ingest r ok event rid
                (charCodes_to_Uint8Array audioData) (results st0) st0 Hown0) as H.
  destruct (map_ingest _ _ _ _ _ _ _) as [res st1]. cbn [snd] in H.
  revert H. apply owned_frame; reflexivity.
Qed.

Lemma owned_playAudio r base ok result st :
  owned st -> owned (playAudio r base ok result st).
Proof.
  intros Hown. unfold playAudio.
  destruct (is_id (seen_currentPlaying r) (id result)).
  - destruct (audioRef st) as [h|]; [|exact Hown].
    generalize (owned_pause h st Hown). apply owned_frame; reflexivity.
  - set (st1 := pause_ref (audioRef st) st).
    assert (Hown1 : owned st1) by (apply owned_pause_ref, Hown).
    assert (Hsref : streamingAudioRef st1 = streamingAudioRef st)
      by (unfold st1, pause_ref; destruct (audioRef st); reflexivity).
    assert (Hnew : forall url,
              owned (set_audioRef (Some (length (audios st1)))
                       (snd (new_Audio url (FromPlayAudio (id result)) st1)))).
    { intros url h a Hlook Hp. cbn in *.
      destruct (decide (h < length (audios st1))%nat) as [Hlt|Hge].
      - rewrite lookup_app_l in Hlook by exact Hlt.
        destruct (Hown1 h a Hlook Hp) as [Hl|Hr]; [|right; exact Hr].
        exfalso. revert Hlook Hl. unfold st1, pause_ref.
        destruct (audioRef st) as [k|] eqn:Hk; cbn; rewrite Hk;
          [|intros _; discriminate].
        intros Hlook [= ->].
        rewrite list_lookup_alter_eq in Hlook.
        destruct (audios st !! h); cbn in Hlook; [|discriminate].
        injection Hlook as <-. discriminate.
      - rewrite lookup_app_r in Hlook by lia.
        destruct (h - length (audios st1))%nat as [|k] eqn:Hk;
          cbn in Hlook; [|discriminate].
        left. f_equal. lia. }
    destruct (stream_audio_url result) as [u|];
      [|destruct (truthy (download_url result)) as [d|]].
    + cbn. unfold catch.
      assert (Hp : owned (play (length (audios st1)) ok
                 (set_audioRef (Some (length (audios st1)))
                    (snd (new_Audio u (FromPlayAudio (id result)) st1)))))
        by (apply owned_play; [left; reflexivity | apply Hnew]).
      destruct ok; [exact Hp|]. revert Hp. apply owned_frame; reflexivity.
    + cbn. unfold catch.
      assert (Hp : owned (play (length (audios st1)) ok
                 (set_audioRef (Some (length (audios st1)))
                    (snd (new_Audio (HttpUrl (String.append base d))
                            (FromPlayAudio (id result)) st1)))))
        by (apply owned_play; [left; reflexivity | apply Hnew]).
      destruct ok; [exact Hp|]. revert Hp. apply owned_frame; reflexivity.
    + revert Hown1. apply owned_frame; reflexivity.
Qed.

Lemma owned_stopAudio st : owned st -> owned (stopAudio st).
Proof.
  intros Hown. unfold stopAudio.
  generalize (owned_stop_ref (streamingAudioRef (stop_ref (audioRef st) st)) _
                (owned_stop_ref (audioRef st) st Hown)).
  apply owned_frame; reflexivity.
Qed.

Lemma owned_clearResults st : owned st -> owned (clearResults st).
Proof.
  intros Hown. unfold clearResults.
  generalize (owned_stop_ref (streamingAudioRef (stop_ref (audioRef st) st)) _
                (owned_stop_ref (audioRef st) st Hown)).
  apply owned_frame; reflexivity.
Qed.

Lemma owned_deleteResult r rid st : owned st -> owned (deleteResult r rid st).
Proof.
  intros Hown. unfold deleteResult.
  destruct (is_id (seen_currentPlaying r) rid).
  - generalize (owned_stopAudio st Hown). apply owned_frame; reflexivity.
  - revert Hown. apply owned_frame; reflexivity.
Qed.

(** The [loadeddata] event of an element that a ref cell still holds. *)
Lemma owned_onloadeddata h d ok st :
  audioRef st = Some h \/ streamingAudioRef st = Some h ->
  owned st -> owned (onloadeddata h d ok st).
Proof.
  intros Href Hown. unfold onloadeddata.
  destruct (audios st !! h) as [a|]; [|exact Hown].
  destruct (handlers a) as [rid|rid savedTime wasPlaying|rid]; try exact Hown.
  set (st1 := if (0 <? savedTime) && before savedTime d
              then set_currentTime h savedTime st else st).
  assert (Hown1 : owned st1)
    by (unfold st1; destruct (_ && _); [apply owned_set_currentTime|]; exact Hown).
  assert (Href1 : audioRef st1 = Some h \/ streamingAudioRef st1 = Some h)
    by (unfold st1; destruct (_ && _); exact Href).
  destruct wasPlaying; [|exact Hown1].
  unfold catch.
  pose proof (owned_play h ok st1 Href1 Hown1) as Hp.
  destruct ok; [exact Hp|]. revert Hp. apply owned_frame; reflexivity.
Qed.

Lemma owned_onplay h st : owned st -> owned (onplay h st).
Proof.
  intros Hown. unfold onplay.
  destruct (audios st !! h) as [a|]; [|exact Hown].
  destruct (handlers a); revert Hown; apply owned_frame; reflexivity.
Qed.

Lemma owned_onended h st : owned st -> owned (onended h st).
Proof.
  intros Hown. unfold onended.
  destruct (audios st !! h) as [a|]; [|exact Hown].
  destruct (handlers a); generalize (owned_pause h st Hown);
    apply owned_frame; reflexivity.
Qed.

Lemma lookup_stop_ref ref st h a :
  audios (stop_ref ref st) !! h = Some a -> paused a = false ->
  ref <> Some h /\ audios st !! h = Some a.
Proof.
  destruct ref as [i|]; cbn; [|intros; split; [discriminate | assumption]].
  destruct (decide (i = h)) as [->|Hne].
  - rewrite !list_lookup_alter_eq. intros Hlook Hp.
    destruct (audios st !! h); simplify_eq/=.
  - rewrite !list_lookup_alter_ne by assumption. intros. split; congruence.
Qed.

Lemma silent_live st : silent st -> live st = [].
Proof.
  unfold silent, live. intros H.
  assert (Hall : Forall (fun a => paused a = true) (audios st)).
  { apply Forall_lookup. intros i a. apply H. }
  clear H. induction Hall as [|a l Ha _ IH]; [reflexivity|].
  rewrite filter_cons_False by (rewrite Ha; discriminate). exact IH.
Qed.

End Ownership.

(** ** The page as a whole *)

Section Page.

Import TTS Controls.

(** X1.  That every playing element is held by [audioRef] or
    [streamingAudioRef] is kept by every stream event, by [playAudio],
    [stopAudio], [clearResults] and [deleteResult], and by the [play],
    [ended] and [loadeddata] events, the last as long as it comes from an
    element a ref cell still holds. *)
Theorem X1_playing_elements_stay_owned (st : State) :
  owned st ->
  (forall r ok event rid, owned (handleStreamEvent r ok event rid st)) /\
  (forall r base ok result, owned (playAudio r base ok result st)) /\
  owned (stopAudio st) /\
  owned (clearResults st) /\
  (forall r rid, owned (deleteResult r rid st)) /\
  (forall h, owned (onplay h st)) /\
  (forall h, owned (onended h st)) /\
  (forall h d ok,
     audioRef st = Some h \/ streamingAudioRef st = Some h ->
     owned (onloadeddata h d ok st)).
Proof.
  intros Hown. repeat apply conj; intros.
  - apply owned_handleStreamEvent, Hown.
  - apply owned_playAudio, Hown.
  - apply owned_stopAudio, Hown.
  - apply owned_clearResults, Hown.
  - apply owned_deleteResult, Hown.
  - apply owned_onplay, Hown.
  - apply owned_onended, Hown.
  - apply owned_onloadeddata; assumption.
Qed.

Lemma X1_two_elements_after_a_chunk :
  owned (handleStreamEvent (render "wav" two_elements) true
           (chunk_event 2 "V29ybGQ=") "r1" two_elements).
Proof.
  assert (Hown : owned two_elements).
  { intros [|[|h]] a Hlook Hp; cbn in *;
      [right; reflexivity | left; reflexivity | discriminate]. }
  destruct (X1_playing_elements_stay_owned two_elements Hown) as [Hevent _].
  apply Hevent.
Defined.

Lemma silent_after_stops st :
  owned st ->
  silent (stop_ref (streamingAudioRef (stop_ref (audioRef st) st))
            (stop_ref (audioRef st) st)).
Proof.
  intros Hown h a Hlook.
  destruct (paused a) eqn:Hp; [reflexivity|]. exfalso.
  apply lookup_stop_ref in Hlook as [Hs Hlook]; [|exact Hp].
  apply lookup_stop_ref in Hlook as [Ha Hlook]; [|exact Hp].
  assert (Hsame : streamingAudioRef (stop_ref (audioRef st) st)
                  = streamingAudioRef st)
    by (destruct (audioRef st); reflexivity).
  rewrite Hsame in Hs.
  destruct (Hown h a Hlook Hp); contradiction.
Qed.

(** X2.  On a page whose playing elements are all held by the two ref
    cells, [stopAudio] leaves no element playing, resets [currentPlaying] and
    [streamingAudio] and keeps the results; [clearResults] does the same and
    empties the result list. *)
Theorem X2_stop_and_clear_silence_the_page (st : State) :
  owned st ->
  (silent (stopAudio st) /\ live (stopAudio st) = [] /\
   currentPlaying (stopAudio st) = None /\
   streamingAudio (stopAudio st) = None /\
   results (stopAudio st) = results st) /\
  (silent (clearResults st) /\ live (clearResults st) = [] /\
   currentPlaying (clearResults st) = None /\
   streamingAudio (clearResults st) = None /\
   results (clearResults st) = []).
Proof.
  intros Hown. pose proof (silent_after_stops st Hown) as Hsilent.
  assert (H1 : silent (stopAudio st)) by exact Hsilent.
  assert (H2 : silent (clearResults st)) by exact Hsilent.
  split.
  - split; [exact H1|]. split; [apply silent_live, H1|].
    repeat apply conj; try reflexivity.
    unfold stopAudio, stop_ref.
    destruct (audioRef st) as [a|] eqn:Ea; cbn;
      destruct (streamingAudioRef st) as [s|] eqn:Es; cbn; rewrite ?Es;
      reflexivity.
  - split; [exact H2|]. split; [apply silent_live, H2|].
    repeat apply conj; reflexivity.
Qed.

Lemma X2_two_elements_stopped :
  live (stopAudio two_elements) = [] /\
  map currentTime (audios (stopAudio two_elements)) = [0; 0].
Proof.
  assert (Hown : owned two_elements).
  { intros [|[|h]] a Hlook Hp; cbn in *;
      [right; reflexivity | left; reflexivity | discriminate]. }
  destruct (X2_stop_and_clear_silence_the_page two_elements Hown)
    as [(_ & Hlive & _) _].
  split; [exact Hlive | vm_compute; reflexivity].
Defined.

Lemma map_if_no_match (f : SynthesisResult -> SynthesisResult) rid
  (rs : list SynthesisResult) :
  Forall (fun y => id y <> rid) rs ->
  map (fun result => if String.eqb (id result) rid then f result else result) rs
  = rs.
Proof.
  induction 1 as [|y rest Hy _ IH]; simpl; [reflexivity|].
  apply String.eqb_neq in Hy. rewrite Hy, IH. reflexivity.
Qed.

(** X3.  A stream event for a result id that is not in the list (its result
    was deleted, or the list was cleared, while the stream was running)
    changes no result, no media element, no ref cell and no blob. *)
Theorem X3_events_for_a_missing_result_do_nothing r ok event rid st :
  Forall (fun y => id y <> rid) (results st) ->
  let st' := handleStreamEvent r ok event rid st in
  results st' = results st /\ audios st' = audios st /\
  audioRef st' = audioRef st /\ streamingAudioRef st' = streamingAudioRef st /\
  blobs st' = blobs st /\ currentPlaying st' = currentPlaying st.
Proof.
  intros Hmiss. cbv zeta. unfold handleStreamEvent.
  destruct (type event); cbn;
    rewrite ?map_if_no_match by exact Hmiss; try (repeat apply conj; reflexivity).
  destruct (truthy (data event)) as [payload|];
    [|repeat apply conj; reflexivity].
  destruct (Base64.atob payload) as [audioData|];
    [|repeat apply conj; reflexivity].
  set (st0 := note (console_log "Stream event") st).
  change (results st0) with (results st).
  rewrite map_ingest_others by exact Hmiss. repeat apply conj; reflexivity.
Qed.

Lemma X3_chunk_after_clearResults :
  let cleared := clearResults
                   (handleStreamEvent wav true (chunk_event 1 "SGVsbG8=") "r1"
                      (fresh "r1")) in
  let later := handleStreamEvent wav true (chunk_event 2 "V29ybGQ=") "r1"
                 cleared in
  results later = [] /\ audios later = audios cleared.
Proof.
  cbv zeta.
  destruct (X3_events_for_a_missing_result_do_nothing wav true
              (chunk_event 2 "V29ybGQ=") "r1"
              (clearResults
                 (handleStreamEvent wav true (chunk_event 1 "SGVsbG8=") "r1"
                    (fresh "r1")))
              (Forall_nil_2 _)) as (Hres & Haud & _).
  split; [exact Hres | exact Haud].
Defined.

Lemma without_spec rid (rs : list SynthesisResult) :
  Forall (fun y => id y <> rid) (without rid rs) /\
  forall rid', rid' <> rid ->
    find_result rid' (without rid rs) = find_result rid' rs.
Proof.
  unfold without, find_result. induction rs as [|x rest [IH1 IH2]]; simpl.
  - split; [constructor | reflexivity].
  - destruct (String.eqb (id x) rid) eqn:E; simpl.
    + split; [exact IH1|]. intros rid' Hne.
      apply String.eqb_eq in E.
      assert (Hx : String.eqb (id x) rid' = false)
        by (apply String.eqb_neq; congruence).
      rewrite Hx. apply IH2, Hne.
    + split.
      * constructor; [apply String.eqb_neq, E | exact IH1].
      * intros rid' Hne. destruct (String.eqb (id x) rid'); [reflexivity|].
        apply IH2, Hne.
Qed.

(** X4.  [deleteResult] removes every result with the given id and leaves
    the others findable as before; the media elements are touched only when
    the id is the render's [currentPlaying], in which case (on a page whose
    playing elements are held by the ref cells) nothing plays afterwards. *)
Theorem X4_deleteResult_removes_only_that_result r rid st :
  Forall (fun y => id y <> rid) (results (deleteResult r rid st)) /\
  (forall rid', rid' <> rid ->
     find_result rid' (results (deleteResult r rid st))
     = find_result rid' (results st)) /\
  blobs (deleteResult r rid st) = blobs st /\
  (is_id (seen_currentPlaying r) rid = false ->
   audios (deleteResult r rid st) = audios st) /\
  (is_id (seen_currentPlaying r) rid = true -> owned st ->
   silent (deleteResult r rid st)).
Proof.
  unfold deleteResult.
  destruct (is_id (seen_currentPlaying r) rid) eqn:Hplaying.
  - assert (Hres : results (stopAudio st) = results st).
    { unfold stopAudio, stop_ref.
      destruct (audioRef st) as [a|] eqn:Ea; cbn;
        destruct (streamingAudioRef st) as [s|] eqn:Es; cbn; rewrite ?Es;
        reflexivity. }
    assert (Hblobs : blobs (stopAudio st) = blobs st).
    { unfold stopAudio, stop_ref.
      destruct (audioRef st) as [a|] eqn:Ea; cbn;
        destruct (streamingAudioRef st) as [s|] eqn:Es; cbn; rewrite ?Es;
        reflexivity. }
    cbn [results blobs audios note setResults]. rewrite Hres, Hblobs.
    destruct (without_spec rid (results st)) as [H1 H2].
    repeat apply conj; try assumption; try reflexivity; try discriminate.
    intros _ Hown. exact (silent_after_stops st Hown).
  - cbn [results blobs audios note setResults].
    destruct (without_spec rid (results st)) as [H1 H2].
    repeat apply conj; try assumption; try reflexivity; try discriminate.
Qed.

Lemma X4_delete_the_playing_result :
  live (deleteResult (render "wav" two_elements) "r0" two_elements) = [] /\
  map id (results (deleteResult (render "wav" two_elements) "r0" two_elements))
    = ["r1"].
Proof.
  destruct (X4_deleteResult_removes_only_that_result
              (render "wav" two_elements) "r0" two_elements)
    as (_ & _ & _ & _ & Hsilent).
  split; [|vm_compute; reflexivity].
  apply silent_live, Hsilent; [reflexivity|].
  intros [|[|h]] a Hlook Hp; cbn in *;
    [right; reflexivity | left; reflexivity | discriminate].
Defined.

Lemma grown_refl x : grown x x.
Proof. split; [reflexivity | exists []; rewrite app_nil_r; reflexivity]. Qed.

Lemma grown_trans x y z : grown x y -> grown y z -> grown x z.
Proof.
  intros [Hid1 [m1 H1]] [Hid2 [m2 H2]]. split; [congruence|].
  exists (m1 ++ m2). rewrite H2, H1, app_assoc. reflexivity.
Qed.

Lemma Forall2_grown_trans (a b c : list SynthesisResult) :
  Forall2 grown a b -> Forall2 grown b c -> Forall2 grown a c.
Proof.
  intros Hab. revert c. induction Hab as [|x y a b Hxy _ IH]; intros c Hbc.
  - inversion Hbc. constructor.
  - inversion Hbc as [|y' z b' c' Hyz Hrest]; subst.
    constructor; [exact (grown_trans _ _ _ Hxy Hyz) | apply IH, Hrest].
Qed.

Lemma ingested_grown rid arr store x x' : ingested rid arr store x x' -> grown x x'.
Proof.
  unfold ingested. destruct (String.eqb (id x) rid).
  - intros (n & mime & -> & _). split; [reflexivity|]. exists [arr]. reflexivity.
  - intros ->. apply grown_refl.
Qed.

Lemma grown_handleStreamEvent r ok event rid st :
  Forall2 grown (results st) (results (handleStreamEvent r ok event rid st)).
Proof.
  unfold handleStreamEvent.
  destruct (type event); cbn;
    try (apply Forall2_same; exact grown_refl);
    try (apply Forall2_map_same; intros x;
         destruct (String.eqb (id x) rid); [|apply grown_refl];
         split; [reflexivity | exists []; rewrite app_nil_r; reflexivity]).
  destruct (truthy (data event)) as [payload|];
    [|apply Forall2_same; exact grown_refl].
  destruct (Base64.atob payload) as [audioData|];
    [|apply Forall2_same; exact grown_refl].
  set (st0 := note (console_log "Stream event") st).
  destruct (map_ingest_spec r ok event rid (charCodes_to_Uint8Array audioData)
              (results st0) st0) as [Hall _].
  destruct (map_ingest _ _ _ _ _ _ _) as [res st1]. cbn [fst snd] in *.
  change (results st0) with (results st) in Hall.
  eapply Forall2_impl; [exact Hall|].
  intros x x'. apply ingested_grown.
Qed.

Lemma grown_handleStreamEvents r ok rid (events : list TTSStreamEvent) :
  forall st,
    Forall2 grown (results st) (results (handleStreamEvents r ok rid events st)).
Proof.
  unfold handleStreamEvents.
  induction events as [|event rest IH]; intros st; cbn [fold_left].
  - apply Forall2_same. exact grown_refl.
  - eapply Forall2_grown_trans; [apply grown_handleStreamEvent | apply IH].
Qed.

(** X5.  Whatever events a stream delivers, of whatever type, order and
    payload, the page never adds, removes or reorders results, and the chunks
    a result has accumulated are never dropped or changed: afterwards each
    result has its old chunks followed by what was appended. *)
Theorem X5_events_only_append_chunks r ok rid (events : list TTSStreamEvent) :
  forall st,
    Forall2 grown (results st) (results (handleStreamEvents r ok rid events st)).
Proof. exact (grown_handleStreamEvents r ok rid events). Qed.

Lemma find_result_grown (a b : list SynthesisResult) rid x :
  Forall2 grown a b -> find_result rid a = Some x ->
  exists x', find_result rid b = Some x' /\ grown x x'.
Proof.
  unfold find_result.
  induction 1 as [|y y' a b Hy _ IH]; simpl; [discriminate|].
  destruct Hy as [Hid Hmore]. rewrite Hid.
  destruct (String.eqb (id y) rid).
  - intros [= <-]. exists y'. split; [reflexivity | split; assumption].
  - exact IH.
Qed.

(** With any callback, the lines handled hand their events to it in order. *)
Lemma fold_handle_line_callback JSON_parse (Caller : Type)
  (callback : TTSStreamEvent -> Caller -> Caller) (lines : list string) :
  forall env,
    fst (fold_left (Stream.handle_line JSON_parse Caller callback) lines env)
    = fold_left (fun s event => callback event s)
                (Stream.events_of JSON_parse lines) (fst env).
Proof.
  induction lines as [|line rest IH]; intros env; [reflexivity|].
  cbn [fold_left Stream.events_of]. rewrite IH.
  unfold Stream.handle_line, Stream.event_of.
  destruct (Stream.startsWith_data line); [|reflexivity].
  destruct (JSON_parse (Stream.slice 6 line)); reflexivity.
Qed.

(** X7.  The page after a stream that was read to its end is the page after
    the events of the text's newline-terminated [data: ] lines, handled in
    order: how the network cut the text into reads makes no difference to
    the results, the audio or anything else on the page. *)
Theorem X7_page_after_a_stream_ignores_the_cut
  JSON_parse r ok rid (reads : list string) st console :
  fst (Stream.synthesizeTextStreamAdvanced JSON_parse State
         (page_callback r ok rid) (Stream.body reads Stream.done) (st, console))
  = handleStreamEvents r ok rid
      (Stream.events_of JSON_parse
         (removelast (Stream.split_newline (Stream.join reads)))) st.
Proof.
  destruct (split_newline_snoc (Stream.join reads)) as (init & tail & Hsplit).
  unfold Stream.synthesizeTextStreamAdvanced.
  rewrite (read_loop_spec JSON_parse _ _ reads EmptyString _ init tail
             eq_refl Hsplit).
  cbn [snd]. rewrite fold_handle_line_callback.
  rewrite Hsplit, removelast_snoc. reflexivity.
Qed.

(** The [error] event the service makes of a failure marks the result and
    leaves its audio, the blobs and the media elements alone. *)
Lemma failed_keeps_the_audio r ok rid why st :
  blobs (page_callback r ok rid (Stream.stream_failed why) st) = blobs st /\
  audios (page_callback r ok rid (Stream.stream_failed why) st) = audios st /\
  forall x,
    find_result rid (results st) = Some x ->
    exists x',
      find_result rid
        (results (page_callback r ok rid (Stream.stream_failed why) st)) = Some x' /\
      status x' = Some errored /\
      error_ x' = Some (String.append "Stream request failed: " why) /\
      audio_chunks x' = audio_chunks x /\
      file_size x' = file_size x /\
      stream_audio_url x' = stream_audio_url x.
Proof.
  split; [reflexivity|]. split; [reflexivity|].
  intros x Hfind. unfold page_callback, handleStreamEvent.
  cbn -[find_result String.eqb].
  rewrite find_result_map
    by (intros y; destruct (String.eqb (id y) rid); reflexivity).
  rewrite Hfind. cbn.
  assert (Hid : String.eqb (id x) rid = true).
  { unfold find_result in Hfind. apply find_some in Hfind. apply Hfind. }
  rewrite Hid. eexists. split; [reflexivity|]. cbn.
  repeat apply conj; reflexivity.
Qed.

(** A failed exchange is what was received, then the [error] event. *)
Lemma failed_exchange_is_events_then_error
  JSON_parse r ok rid response why st console :
  failure_of response = Some why ->
  fst (Stream.synthesizeTextStreamAdvanced JSON_parse State
         (page_callback r ok rid) response (st, console))
  = page_callback r ok rid (Stream.stream_failed why)
      (handleStreamEvents r ok rid
         (received_before_failure JSON_parse response) st).
Proof.
  intros Hwhy.
  destruct response as [w|status| |reads [|w]]; cbn in Hwhy;
    try discriminate; injection Hwhy as <-; try reflexivity.
  unfold Stream.synthesizeTextStreamAdvanced, Stream.fail, received_before_failure.
  destruct (split_newline_snoc (Stream.join reads)) as (init & tail & Hsplit).
  rewrite (read_loop_spec JSON_parse _ _ reads EmptyString _ init tail
             eq_refl Hsplit).
  cbn [fst snd]. rewrite fold_handle_line_callback. cbn [fst].
  rewrite Hsplit, removelast_snoc. reflexivity.
Qed.

(** X6.  When the exchange fails (the request is rejected, the status is
    not ok, there is no body, or a read fails part-way), the page is the one
    after the events received before the failure, with the result marked:
    status [error], the message [Stream request failed: ...], and chunks,
    size and playable handle exactly as they were after the last event
    received; blobs and media elements are untouched.  So if the events
    received were audio chunks, the result still holds all their bytes, in
    order, and its handle still plays them. *)
Theorem X6_a_failed_exchange_marks_the_result
  JSON_parse r ok rid response why st console :
  failure_of response = Some why ->
  let received := received_before_failure JSON_parse response in
  let before := handleStreamEvents r ok rid received st in
  let final := fst (Stream.synthesizeTextStreamAdvanced JSON_parse State
                      (page_callback r ok rid) response (st, console)) in
  blobs final = blobs before /\
  audios final = audios before /\
  (forall xb,
     find_result rid (results before) = Some xb ->
     exists x',
       find_result rid (results final) = Some x' /\
       status x' = Some errored /\
       error_ x' = Some (String.append "Stream request failed: " why) /\
       audio_chunks x' = audio_chunks xb /\
       file_size x' = file_size xb /\
       stream_audio_url x' = stream_audio_url xb) /\
  (forall x payloads,
     find_result rid (results st) = Some x ->
     consistent st x ->
     Forall2 decodes_to received payloads ->
     exists x',
       find_result rid (results final) = Some x' /\
       status x' = Some errored /\
       buffer_of x' = buffer_of x ++ concat payloads /\
       playable_bytes final x' = playable_bytes before x' /\
       consistent final x').
Proof.
  intros Hwhy received before final.
  assert (Hfinal : final = page_callback r ok rid (Stream.stream_failed why) before)
    by (apply failed_exchange_is_events_then_error; exact Hwhy).
  destruct (failed_keeps_the_audio r ok rid why before) as (Hblobs & Haudios & Hres).
  rewrite <- Hfinal in Hblobs, Haudios, Hres.
  split; [exact Hblobs|]. split; [exact Haudios|]. split; [exact Hres|].
  intros x payloads Hfind Hcons Hdec.
  destruct (chunks_accumulate r ok rid received payloads Hdec st x Hfind Hcons)
    as (xb & Hxb & Hbuf & Hsize & Hplay).
  fold before in Hxb, Hplay.
  destruct (Hres xb Hxb) as (x' & Hx' & Hstatus & _ & Hchunks & Hfs & Hurl).
  assert (Hbuf' : buffer_of x' = buffer_of xb)
    by (unfold buffer_of; rewrite Hchunks; reflexivity).
  assert (Hpb : forall y, playable_bytes final y = playable_bytes before y)
    by (intros y; unfold playable_bytes; rewrite Hblobs; reflexivity).
  assert (Hpb' : playable_bytes before x' = playable_bytes before xb)
    by (unfold playable_bytes; rewrite Hurl; reflexivity).
  exists x'. split; [exact Hx'|]. split; [exact Hstatus|].
  split; [rewrite Hbuf'; exact Hbuf|]. split; [apply Hpb|].
  split; [rewrite Hfs, Hbuf'; exact Hsize|].
  rewrite Hpb, Hpb', Hbuf', Hurl. exact Hplay.
Qed.

Lemma X6_connection_lost_after_two_chunks :
  exists x',
    find_result "r1"
      (results (fst (Stream.synthesizeTextStreamAdvanced parse_two_chunks
                       State (page_callback wav true "r1")
                       (Stream.body two_chunks_then_cut
                          (Stream.read_failed "TypeError: network error"))
                       (fresh "r1", [])))) = Some x' /\
    status x' = Some errored /\
    buffer_of x' = [] ++ concat [[72; 101; 108; 108; 111];
                                 [87; 111; 114; 108; 100]].
Proof.
  assert (Hrec : received_before_failure parse_two_chunks
                   (Stream.body two_chunks_then_cut
                      (Stream.read_failed "TypeError: network error"))
                 = [chunk_event 1 "SGVsbG8="; chunk_event 2 "V29ybGQ="])
    by (vm_compute; reflexivity).
  destruct (X6_a_failed_exchange_marks_the_result parse_two_chunks
              wav true "r1"
              (Stream.body two_chunks_then_cut
                 (Stream.read_failed "TypeError: network error"))
              "TypeError: network error" (fresh "r1") [] eq_refl)
    as (_ & _ & _ & Hchunks).
  cbv zeta in Hchunks. rewrite Hrec in Hchunks.
  destruct (Hchunks (newResult "r1" "hello world" "douyin" "v" "t")
              [[72; 101; 108; 108; 111]; [87; 111; 114; 108; 100]])
    as (x' & Hx' & Hstatus & Hbuf & _).
  - reflexivity.
  - split; [reflexivity | right; split; reflexivity].
  - constructor; [|constructor; [|constructor]];
      (split; [reflexivity | eexists; split; [reflexivity | vm_compute; reflexivity]]).
  - exists x'. split; [exact Hx'|]. split; [exact Hstatus | exact Hbuf].
Defined.

End Page.

(** ** The end of the stream *)

Section StreamEnd.

Import Stream.

(** X8.  A stream whose text ends without a final newline: the records
    closed by a newline are handed on, whatever the reads; what follows the
    last newline is still in the buffer when the stream is done and is never
    parsed, even if it is a complete record. *)
Theorem X8_unterminated_last_record_is_never_parsed
  (JSON_parse : string -> option TTS.TTSStreamEvent)
  (reads lines : list string) (tail : string) :
  join reads = String.append (unlines lines) tail ->
  Forall (fun line => has_newline line = false) lines ->
  has_newline tail = false ->
  delivered JSON_parse reads = events_of JSON_parse lines /\
  fst (read_loop JSON_parse (list TTS.TTSStreamEvent)
         (fun event seen => seen ++ [event]) reads EmptyString ([], []))
  = tail.
Proof.
  intros Htext Hlines Htail.
  pose proof (split_newline_unlines_tail lines tail Hlines Htail) as Hsplit.
  rewrite <- Htext in Hsplit.
  unfold delivered, synthesizeTextStreamAdvanced.
  rewrite (read_loop_spec JSON_parse _ _ reads EmptyString _ lines tail
             eq_refl Hsplit).
  cbn [fst snd]. rewrite fold_handle_line_records. split; reflexivity.
Qed.

Lemma X8_last_record_without_newline :
  delivered parse_type_object
    [String.append (data_line "start") (String "010"%char (data_line "end"))]
  = [event_named "start"].
Proof.
  destruct (X8_unterminated_last_record_is_never_parsed parse_type_object
              [String.append (data_line "start")
                 (String "010"%char (data_line "end"))]
              [data_line "start"] (data_line "end")
              eq_refl ltac:(repeat constructor) eq_refl) as [Hdelivered _].
  exact Hdelivered.
Defined.

End StreamEnd.

(** ** The document workflow's synthesis stream *)

Section DocumentStream.

Import DocStream.

Section AnyCallbacks.

Variable JSON_parse : string -> option Record_.
Variable Caller : Type.
Variable onAudioChunk : string -> Z -> Z -> Caller -> Caller.
Variable onError : option string -> Caller -> Caller.
Variable onComplete : Caller -> Caller.

Local Abbreviation lines_loop :=
  (handle_lines JSON_parse Caller onAudioChunk onError).
Local Abbreviation reads_loop :=
  (read_loop JSON_parse Caller onAudioChunk onError).

Lemma handle_lines_app (a b : list string) :
  forall env,
    lines_loop (a ++ b) env
    = (if snd (lines_loop a env) then (fst (lines_loop a env), true)
       else lines_loop b (fst (lines_loop a env))).
Proof.
  induction a as [|line a IH]; intros env; cbn [app handle_lines];
    [reflexivity|].
  destruct (Stream.startsWith_data line); [|apply IH].
  destruct (JSON_parse (Stream.slice 6 line)) as [[data segment total|m|]|];
    try apply IH.
  reflexivity.
Qed.

(** The reads as a whole are handled like the complete lines of their
    text. *)
Lemma read_loop_lines (reads : list string) :
  forall buffer env init tail,
    Stream.has_newline buffer = false ->
    Stream.split_newline (String.append buffer (Stream.join reads))
      = init ++ [tail] ->
    reads_loop reads buffer env = lines_loop init env.
Proof.
  induction reads as [|value rest IH]; intros buffer env init tail Hbuf Hsplit.
  - simpl in Hsplit.
    rewrite append_empty_r, (split_newline_no_newline _ Hbuf) in Hsplit.
    destruct init as [|x [|y init]]; simpl in Hsplit; try discriminate.
    reflexivity.
  - cbn [read_loop].
    change (Stream.join (value :: rest))
      with (String.append value (Stream.join rest)) in Hsplit.
    destruct (split_newline_snoc (String.append buffer value)) as (i1 & t1 & H1).
    rewrite H1, last_snoc_default, removelast_snoc.
    rewrite <- append_assoc in Hsplit.
    rewrite (split_newline_append _ i1 t1 _ H1) in Hsplit.
    destruct (split_newline_snoc (String.append t1 (Stream.join rest)))
      as (i2 & t2 & H2).
    rewrite H2, app_assoc in Hsplit.
    apply app_inj_tail in Hsplit as [<- <-].
    rewrite handle_lines_app.
    destruct (lines_loop i1 env) as [env1 returned]. cbn [fst snd].
    destruct returned; [reflexivity|].
    apply (IH t1 env1 i2 t2); [|exact H2].
    exact (split_newline_tail _ _ _ H1).
Qed.

End AnyCallbacks.

Lemma until_failure_chunks JSON_parse (lines : list string) :
  Forall (fun c => is_terminal c = false) (fst (until_failure JSON_parse lines)).
Proof.
  induction lines as [|line rest IH]; cbn [until_failure]; [constructor|].
  destruct (if Stream.startsWith_data line
            then JSON_parse (Stream.slice 6 line) else None)
    as [[data segment total|m|]|]; try exact IH; [|constructor].
  destruct (until_failure JSON_parse rest) as [chunks stop]. cbn [fst] in *.
  constructor; [reflexivity | exact IH].
Qed.

(** What the recording caller has written down after some lines. *)
Lemma handle_lines_recorded JSON_parse (lines : list string) :
  forall seen console,
    let out := handle_lines JSON_parse (list Call)
                 (fun data segment total seen => seen ++ [chunk data segment total])
                 (fun message seen => seen ++ [errored message])
                 lines (seen, console) in
    fst (fst out)
      = seen ++ fst (until_failure JSON_parse lines)
        ++ match snd (until_failure JSON_parse lines) with
           | Some message => [errored message]
           | None => []
           end
    /\ snd out = match snd (until_failure JSON_parse lines) with
                 | Some _ => true
                 | None => false
                 end.
Proof.
  induction lines as [|line rest IH]; intros seen console;
    cbn [handle_lines until_failure].
  - cbn. rewrite app_nil_r. split; reflexivity.
  - destruct (Stream.startsWith_data line); [|apply IH].
    destruct (JSON_parse (Stream.slice 6 line)) as [[data segment total|m|]|];
      try apply IH.
    + cbn [fst snd]. specialize (IH (seen ++ [chunk data segment total]) console).
      destruct (until_failure JSON_parse rest) as [chunks stop].
      cbn [fst snd] in *. destruct IH as [IH1 IH2].
      split; [|exact IH2]. rewrite IH1, <- app_assoc. reflexivity.
    + cbn. split; reflexivity.
Qed.

(** What any caller has been through after some lines. *)
Lemma handle_lines_replayed JSON_parse (Caller : Type)
  (onAudioChunk : string -> Z -> Z -> Caller -> Caller)
  (onError : option string -> Caller -> Caller)
  (onComplete : Caller -> Caller) (lines : list string) :
  forall caller console,
    let out := handle_lines JSON_parse Caller onAudioChunk onError
                 lines (caller, console) in
    fst (fst out)
      = replay onAudioChunk onError onComplete
          (fst (until_failure JSON_parse lines)
           ++ match snd (until_failure JSON_parse lines) with
              | Some message => [errored message]
              | None => []
              end) caller
    /\ snd out = match snd (until_failure JSON_parse lines) with
                 | Some _ => true
                 | None => false
                 end.
Proof.
  induction lines as [|line rest IH]; intros caller console;
    cbn [handle_lines until_failure].
  - cbn. split; reflexivity.
  - destruct (Stream.startsWith_data line); [|apply IH].
    destruct (JSON_parse (Stream.slice 6 line)) as [[data segment total|m|]|];
      try apply IH.
    + cbn [fst snd].
      specialize (IH (onAudioChunk data segment total caller) console).
      destruct (until_failure JSON_parse rest) as [chunks stop].
      cbn [fst snd] in *. exact IH.
    + cbn. split; reflexivity.
Qed.

(** The calls of a stream with a body, by the lines of its text. *)
Lemma calls_of_body JSON_parse (reads : list string) ending :
  calls JSON_parse (Stream.body reads ending)
  = fst (until_failure JSON_parse (complete_lines (Stream.join reads)))
    ++ [match snd (until_failure JSON_parse (complete_lines (Stream.join reads))) with
        | Some message => errored message
        | None => last_call ending
        end].
Proof.
  unfold calls, synthesizeSpeechStream, complete_lines.
  destruct (split_newline_snoc (Stream.join reads)) as (init & tail & Hsplit).
  rewrite (read_loop_lines JSON_parse _ _ _ reads EmptyString _ init tail
             eq_refl Hsplit).
  rewrite Hsplit, removelast_snoc.
  destruct (handle_lines_recorded JSON_parse init [] []) as [Hseen Hret].
  cbv zeta in Hseen, Hret.
  destruct (handle_lines _ _ _ _ init ([], [])) as [[seen console] returned].
  cbn [fst snd] in *. subst seen returned.
  destruct (snd (until_failure JSON_parse init)) as [m|]; [reflexivity|].
  destruct ending; cbn; rewrite app_nil_r; reflexivity.
Qed.

(** Whatever the caller, the service does to it what its calls say. *)
Lemma service_replays_calls JSON_parse (Caller : Type)
  (onAudioChunk : string -> Z -> Z -> Caller -> Caller)
  (onError : option string -> Caller -> Caller)
  (onComplete : Caller -> Caller) response caller console :
  fst (synthesizeSpeechStream JSON_parse Caller onAudioChunk onError onComplete
         response (caller, console))
  = replay onAudioChunk onError onComplete (calls JSON_parse response) caller.
Proof.
  destruct response as [why|status| |reads ending]; try reflexivity.
  rewrite calls_of_body. unfold synthesizeSpeechStream, complete_lines.
  destruct (split_newline_snoc (Stream.join reads)) as (init & tail & Hsplit).
  rewrite (read_loop_lines JSON_parse _ _ _ reads EmptyString _ init tail
             eq_refl Hsplit).
  rewrite Hsplit, removelast_snoc.
  destruct (handle_lines_replayed JSON_parse Caller onAudioChunk onError
              onComplete init caller console) as [Hout Hret].
  cbv zeta in Hout, Hret.
  destruct (handle_lines _ _ _ _ init (caller, console))
    as [[caller' console'] returned].
  cbn [fst snd] in *. subst caller' returned. unfold replay.
  destruct (snd (until_failure JSON_parse init)) as [m|]; [reflexivity|].
  rewrite app_nil_r, fold_left_app. destruct ending; reflexivity.
Qed.

Lemma calls_shape JSON_parse response :
  exists chunks t,
    calls JSON_parse response = chunks ++ [t] /\
    Forall (fun c => is_terminal c = false) chunks /\
    is_terminal t = true.
Proof.
  destruct response as [why|status| |reads ending].
  - exists [], (errored (Some why)). repeat split; constructor.
  - exists [], (errored (Some (String.append "HTTP error! status: " status))).
    repeat split; constructor.
  - exists [], (errored (Some "无法获取响应流")). repeat split; constructor.
  - rewrite calls_of_body. eexists _, _. split; [reflexivity|].
    split; [apply until_failure_chunks|].
    destruct (snd (until_failure _ _)); [reflexivity|].
    destruct ending; reflexivity.
Qed.

(** X9.  The calls [synthesizeSpeechStream] makes for a response with a
    body depend only on the text's newline-terminated lines, not on the
    reads: [onAudioChunk] for each audio record before the first error
    record, in order, and then one last call, which is [onError] with that
    record's message, or else [onComplete] when the stream is done and
    [onError] when a read failed.  Nothing after an error record is looked
    at. *)
Theorem X9_synthesis_calls_follow_the_lines
  JSON_parse (reads : list string) ending :
  calls JSON_parse (Stream.body reads ending)
  = fst (until_failure JSON_parse (complete_lines (Stream.join reads)))
    ++ [match snd (until_failure JSON_parse (complete_lines (Stream.join reads))) with
        | Some message => errored message
        | None => last_call ending
        end].
Proof. exact (calls_of_body JSON_parse reads ending). Qed.

(** X10.  Whatever the response, [synthesizeSpeechStream] ends with exactly
    one call of [onError] or [onComplete], and every call before it is an
    [onAudioChunk]. *)
Theorem X10_exactly_one_terminal_callback JSON_parse response :
  exists chunks t,
    calls JSON_parse response = chunks ++ [t] /\
    Forall (fun c => is_terminal c = false) chunks /\
    is_terminal t = true.
Proof. exact (calls_shape JSON_parse response). Qed.

Example synthesis_calls_example :
  calls parse_example (Stream.body example_reads Stream.done)
  = [chunk "SGVsbG8=" 1 2; chunk "V29ybGQ=" 2 2; completed].
Proof. vm_compute. reflexivity. Qed.

End DocumentStream.

(** ** Synthesis and auto-play in the document workflow *)

Section WorkflowSynthesis.

Import Synthesis.

(** Audio calls add their segments and change nothing else. *)
Lemma replay_chunks (chunks : list DocStream.Call) :
  Forall (fun c => DocStream.is_terminal c = false) chunks ->
  forall p,
    let p' := DocStream.replay onAudioChunk onError onComplete chunks p in
    Workflow.audioSegments (workflow p')
      = Workflow.audioSegments (workflow p) ++ segments_of chunks /\
    tts_completed p' = tts_completed p /\ tts_streaming p' = tts_streaming p /\
    tts_error p' = tts_error p /\ loading_tts p' = loading_tts p /\
    Workflow.playbackState (workflow p') = Workflow.playbackState (workflow p) /\
    Workflow.audioRef (workflow p') = Workflow.audioRef (workflow p) /\
    Workflow.currentAudioIndex (workflow p')
      = Workflow.currentAudioIndex (workflow p) /\
    Workflow.blobs (workflow p') = Workflow.blobs (workflow p).
Proof.
  unfold DocStream.replay.
  induction 1 as [|c rest Hc _ IH]; intros p; cbn [fold_left segments_of].
  - rewrite app_nil_r. repeat apply conj; reflexivity.
  - destruct c as [data segment total|m|]; try discriminate.
    specialize (IH (onAudioChunk data segment total p)). cbv zeta in IH.
    destruct IH as (H1 & H2 & H3 & H4 & H5 & H6 & H7 & H8 & H9).
    cbn [segment_of]. rewrite H1, H2, H3, H4, H5, H6, H7, H8, H9. cbn.
    rewrite <- app_assoc. repeat apply conj; reflexivity.
Qed.

(** X11.  [handleTTSSynthesis] with a script to read always ends with
    [loading.tts] and [streaming] false; the segments are exactly those of
    the audio records the service handed over, in arrival order, each with
    [index] one less than its segment number, the text made of that number
    and the record's data; the player's element, index and blobs are
    untouched.  After [onComplete] the step is completed without
    error and the playback total is the number of segments; after [onError]
    the error is the one reported, the segments received so far are kept and
    [completed] is what it was before. *)
Theorem X11_synthesis_ends_settled JSON_parse response page chunks t :
  DocStream.calls JSON_parse response = chunks ++ [t] ->
  let page' := handleTTSSynthesis false JSON_parse response page in
  loading_tts page' = false /\ tts_streaming page' = false /\
  Workflow.audioSegments (workflow page') = segments_of chunks /\
  Workflow.audioRef (workflow page') = Workflow.audioRef (workflow page) /\
  Workflow.currentAudioIndex (workflow page')
    = Workflow.currentAudioIndex (workflow page) /\
  Workflow.blobs (workflow page') = Workflow.blobs (workflow page) /\
  match t with
  | DocStream.completed =>
      tts_completed page' = true /\ tts_error page' = None /\
      Workflow.totalSegments (Workflow.playbackState (workflow page'))
        = Z.of_nat (length (segments_of chunks))
  | DocStream.errored message =>
      tts_completed page' = tts_completed page /\ tts_error page' = message
  | DocStream.chunk _ _ _ => False
  end.
Proof.
  intros Hcalls. cbv zeta. unfold handleTTSSynthesis.
  rewrite service_replays_calls, Hcalls.
  destruct (calls_shape JSON_parse response) as (chunks' & t' & Hc' & Hall & Ht).
  rewrite Hcalls in Hc'. apply app_inj_tail in Hc' as [<- <-].
  unfold DocStream.replay. rewrite fold_left_app.
  fold (DocStream.replay onAudioChunk onError onComplete chunks
          (begin (setStepLoading_tts true page))).
  destruct (replay_chunks chunks Hall (begin (setStepLoading_tts true page)))
    as (H1 & H2 & H3 & H4 & H5 & H6 & H7 & H8 & H9).
  cbv zeta in H1, H2, H3, H4, H5, H6, H7, H8, H9.
  set (p := DocStream.replay onAudioChunk onError onComplete chunks
              (begin (setStepLoading_tts true page))) in *.
  destruct t as [data segment total|m|]; [discriminate| |]; cbn;
    rewrite ?H1, ?H2, ?H7, ?H8, ?H9; repeat apply conj; reflexivity.
Qed.

Lemma X11_error_after_first_segment :
  let page' := handleTTSSynthesis false DocStream.parse_example
                 (Stream.body [Stream.unlines ["data: 1"; "data: error";
                                               "data: 2"]] Stream.done)
                 blank_page in
  map (fun s => (Workflow.index s, Workflow.text s, Workflow.audioData s))
      (Workflow.audioSegments (workflow page'))
    = [(0, "第1段", "SGVsbG8=")]
  /\ tts_error page' = Some "provider down" /\ tts_streaming page' = false.
Proof.
  destruct (X11_synthesis_ends_settled DocStream.parse_example
              (Stream.body [Stream.unlines ["data: 1"; "data: error";
                                            "data: 2"]] Stream.done)
              blank_page [DocStream.chunk "SGVsbG8=" 1 2]
              (DocStream.errored (Some "provider down")) eq_refl)
    as (_ & Hstreaming & Hsegments & _ & _ & _ & _ & Herror).
  cbv zeta. split; [rewrite Hsegments; reflexivity|].
  split; [exact Herror | exact Hstreaming].
Defined.

End WorkflowSynthesis.

Section AutoplayChain.

Import Autoplay.

(** One [ended] event with the next segment at hand. *)
Lemma ended_starts_next st a segment bytes :
  Workflow.audioRef st = Some a ->
  Workflow.at_index (Workflow.audioSegments st) (Workflow.currentAudioIndex st + 1)
    = Some segment ->
  Base64.atob (Workflow.audioData segment) = Some bytes ->
  let st' := Workflow.ended true st in
  Workflow.currentAudioIndex st' = Workflow.currentAudioIndex st + 1 /\
  Workflow.audioSegments st' = Workflow.audioSegments st /\
  is_Some (Workflow.audioRef st') /\
  Workflow.isPlaying (Workflow.playbackState st') = true /\
  Workflow.currentSegment (Workflow.playbackState st')
    = Workflow.currentAudioIndex st + 1 /\
  Workflow.element_paused st' = false /\
  source_bytes st' = Some bytes.
Proof.
  intros Href Hseg Hatob. cbv zeta.
  unfold Workflow.ended. rewrite Href. unfold Workflow.onEnded.
  cbn [Workflow.currentAudioIndex Workflow.audioSegments Workflow.with_audio].
  assert (Hrange : (Workflow.currentAudioIndex st + 1
                    <? Z.of_nat (length (Workflow.audioSegments st))) = true).
  { unfold Workflow.at_index in Hseg.
    destruct (Workflow.currentAudioIndex st + 1 <? 0) eqn:Hneg; [discriminate|].
    apply lookup_lt_Some in Hseg. apply Z.ltb_ge in Hneg. apply Z.ltb_lt. lia. }
  rewrite Hrange. unfold Workflow.playAudioSegment.
  cbn [Workflow.currentAudioIndex Workflow.audioSegments Workflow.with_audio
       Workflow.audioRef].
  rewrite Hseg, Hatob. unfold source_bytes, Workflow.element_paused. cbn.
  rewrite lookup_app_r by lia.
  replace (length (Workflow.blobs st) - length (Workflow.blobs st))%nat
    with 0%nat by lia.
  cbn. rewrite (atob_bytes _ _ Hatob).
  repeat apply conj; eauto.
Qed.

Lemma chain st a :
  Workflow.audioRef st = Some a ->
  decodable st ->
  0 <= Workflow.currentAudioIndex st ->
  forall k : nat,
    Workflow.currentAudioIndex st + Z.of_nat k
      < Z.of_nat (length (Workflow.audioSegments st)) ->
    let st' := ended_times k st in
    Workflow.currentAudioIndex st' = Workflow.currentAudioIndex st + Z.of_nat k /\
    Workflow.audioSegments st' = Workflow.audioSegments st /\
    is_Some (Workflow.audioRef st') /\
    ((0 < k)%nat ->
     Workflow.isPlaying (Workflow.playbackState st') = true /\
     Workflow.currentSegment (Workflow.playbackState st')
       = Workflow.currentAudioIndex st + Z.of_nat k /\
     Workflow.element_paused st' = false /\
     source_bytes st'
       = segment_bytes st (Workflow.currentAudioIndex st + Z.of_nat k)).
Proof.
  intros Href Hdec Hnonneg. induction k as [|k IH]; intros Hlt; cbv zeta.
  - cbn [ended_times]. rewrite Z.add_0_r.
    repeat apply conj; try reflexivity; [rewrite Href; eauto | lia].
  - cbv zeta in IH. destruct IH as (Hidx & Hsegs & [a' Ha'] & _); [lia|].
    cbn [ended_times].
    set (i := Workflow.currentAudioIndex st + Z.of_nat (S k)).
    assert (Hi : Workflow.currentAudioIndex (ended_times k st) + 1 = i)
      by (unfold i; lia).
    destruct (lookup_lt_is_Some_2 (Workflow.audioSegments st) (Z.to_nat i))
      as [segment Hsegment]; [unfold i; lia|].
    assert (Hat : Workflow.at_index (Workflow.audioSegments st) i = Some segment).
    { unfold Workflow.at_index.
      destruct (i <? 0) eqn:Hneg; [apply Z.ltb_lt in Hneg; unfold i in Hneg; lia|].
      exact Hsegment. }
    destruct (proj1 (Forall_lookup _ _) Hdec _ _ Hsegment) as [bytes Hbytes].
    destruct (ended_starts_next (ended_times k st) a' segment bytes Ha')
      as (H1 & H2 & H3 & H4 & H5 & H6 & H7);
      [rewrite Hsegs, Hi; exact Hat | exact Hbytes |].
    cbv zeta in H1, H2, H3, H4, H5, H6, H7.
    rewrite H1, H2, H5, H7, Hsegs, Hi.
    unfold segment_bytes. rewrite Hat, Hbytes.
    repeat apply conj; auto.
Qed.

(** X12.  Auto-play in the document workflow.  With the element mounted
    and every segment decodable, each time the element plays to its end the
    segment at the next position of the list starts: after [k] ends the index
    has advanced by exactly [k], the page reports playing that segment, and
    the element plays the decoded bytes of the segment stored at that
    position.  When the last segment ends, playback is reported stopped with
    current segment 0, and the index stays on the last segment. *)
Theorem X12_autoplay_plays_every_segment_in_order st a :
  Workflow.audioRef st = Some a ->
  decodable st ->
  0 <= Workflow.currentAudioIndex st ->
  (forall k : nat,
     (0 < k)%nat ->
     Workflow.currentAudioIndex st + Z.of_nat k
       < Z.of_nat (length (Workflow.audioSegments st)) ->
     let st' := ended_times k st in
     Workflow.currentAudioIndex st' = Workflow.currentAudioIndex st + Z.of_nat k /\
     Workflow.isPlaying (Workflow.playbackState st') = true /\
     Workflow.currentSegment (Workflow.playbackState st')
       = Workflow.currentAudioIndex st + Z.of_nat k /\
     Workflow.element_paused st' = false /\
     source_bytes st'
       = segment_bytes st (Workflow.currentAudioIndex st + Z.of_nat k)) /\
  (Workflow.currentAudioIndex st + 1
     = Z.of_nat (length (Workflow.audioSegments st)) ->
   let st' := Workflow.ended true st in
   Workflow.isPlaying (Workflow.playbackState st') = false /\
   Workflow.currentSegment (Workflow.playbackState st') = 0 /\
   Workflow.currentAudioIndex st' = Workflow.currentAudioIndex st /\
   Workflow.element_paused st' = true).
Proof.
  intros Href Hdec Hnonneg. split.
  - intros k Hk Hlt.
    destruct (chain st a Href Hdec Hnonneg k Hlt) as (H1 & _ & _ & H4).
    destruct (H4 Hk) as (H5 & H6 & H7 & H8). cbv zeta. auto.
  - intros Hlast. cbv zeta. unfold Workflow.ended. rewrite Href.
    unfold Workflow.onEnded.
    cbn [Workflow.currentAudioIndex Workflow.audioSegments Workflow.with_audio].
    rewrite Hlast, Z.ltb_irrefl. cbn. repeat apply conj; reflexivity.
Qed.

Lemma X12_third_segment_after_two_ends :
  Workflow.currentAudioIndex (ended_times 2 first_of_three_playing) = 2 /\
  source_bytes (ended_times 2 first_of_three_playing) = Some [33].
Proof.
  assert (Hdec : decodable first_of_three_playing).
  { repeat constructor; eexists; reflexivity. }
  destruct (X12_autoplay_plays_every_segment_in_order first_of_three_playing
              {| Element.src := Some 0%nat; Element.paused := false;
                 Element.currentTime := 1 |}
              eq_refl Hdec ltac:(simpl; lia)) as [Hchain _].
  destruct (Hchain 2%nat ltac:(lia) ltac:(simpl; lia))
    as (Hindex & _ & _ & _ & Hbytes).
  split; [exact Hindex | exact Hbytes].
Defined.

End AutoplayChain.

(** ** The slide on show *)

Section SlideOnShow.

Import Navigation.

Lemma shows_frame st st' :
  PPT.currentSlideIndex st' = PPT.currentSlideIndex st ->
  PPT.slides st' = PPT.slides st ->
  PPT.timers st' = PPT.timers st ->
  shows_a_slide st -> shows_a_slide st'.
Proof. unfold shows_a_slide. intros -> -> ->. auto. Qed.

Lemma shows_goToSlide index st : shows_a_slide st -> shows_a_slide (goToSlide index st).
Proof.
  intros [Hidx Htimers]. unfold goToSlide.
  destruct ((0 <=? index) && (index <? Z.of_nat (length (PPT.slides st)))) eqn:E;
    [|split; assumption].
  apply andb_true_iff in E as [H0 H1].
  apply Z.leb_le in H0. apply Z.ltb_lt in H1.
  split; [cbn; lia | exact Htimers].
Qed.

Lemma shows_playCurrentSlideAudio ok st :
  shows_a_slide st -> shows_a_slide (PPT.playCurrentSlideAudio ok st).
Proof.
  apply shows_frame; unfold PPT.playCurrentSlideAudio;
    destruct (PPT.isPlayingAudio st && _), (PPT.audioRef st), ok; reflexivity.
Qed.

Lemma shows_stopAudio st : shows_a_slide st -> shows_a_slide (stopAudio st).
Proof.
  apply shows_frame; unfold stopAudio; destruct (PPT.audioRef st); reflexivity.
Qed.

Lemma shows_handleAudioEnded st :
  shows_a_slide st -> shows_a_slide (PPT.handleAudioEnded st).
Proof.
  intros [Hidx Htimers]. unfold PPT.handleAudioEnded.
  cbn [PPT.slides PPT.setPlaying PPT.currentSlideIndex].
  destruct (PPT.currentSlideIndex st + 1 <? Z.of_nat (length (PPT.slides st)))
    eqn:E; [|split; assumption].
  apply Z.ltb_lt in E. split; [exact Hidx|]. cbn.
  apply Forall_app. split; [exact Htimers|].
  constructor; [cbn; lia | constructor].
Qed.

Lemma shows_timer ok st :
  shows_a_slide st -> shows_a_slide (act (timer_fires ok) st).
Proof.
  intros [Hidx Htimers]. cbn [act].
  destruct (PPT.timers st) as [|[delay t] rest] eqn:Ht; [split; [assumption|]|].
  - rewrite Ht. constructor.
  - inversion Htimers as [|x l Hhead Hrest]; subst.
    destruct t as [nextPage|nextPage]; cbn in Hhead.
    + split; [cbn; lia|]. cbn. apply Forall_app. split; [exact Hrest|].
      constructor; [exact I | constructor].
    + cbn [PPT.fire]. destruct (PPT.audioRef (PPT.with_timers rest st)); [|split; assumption];
        destruct ok; split; assumption.
Qed.

(** A key moves to the slide it names, kept within the deck, and changes
    nothing else. *)
Lemma key_moves_within_the_deck (key : Key) (st : PPT.State) :
  0 <= PPT.currentSlideIndex st < Z.of_nat (length (PPT.slides st)) ->
  handleKeyDown key st
  = PPT.setCurrentSlideIndex
      match key with
      | ArrowLeft | ArrowUp => Z.max 0 (PPT.currentSlideIndex st - 1)
      | ArrowRight | ArrowDown | Space =>
          Z.min (Z.of_nat (length (PPT.slides st)) - 1)
                (PPT.currentSlideIndex st + 1)
      | Home => 0
      | End_ => Z.of_nat (length (PPT.slides st)) - 1
      | Escape | other_key => PPT.currentSlideIndex st
      end st.
Proof.
  intros Hidx. destruct st as [doc idx sl playing page aref tm nt].
  cbn in Hidx.
  destruct key; cbn [handleKeyDown]; unfold goToPrevSlide, goToNextSlide, goToSlide;
    cbn [PPT.currentSlideIndex PPT.slides]; try reflexivity;
    match goal with
    | |- context [(0 <=? ?i) && (?i <? ?n)] =>
        destruct (Z.leb_spec 0 i); destruct (Z.ltb_spec i n); cbn [andb]
    end;
    unfold PPT.setCurrentSlideIndex; cbn; f_equal; lia.
Qed.

Lemma goToSlide_outside (index : Z) (st : PPT.State) :
  ~ (0 <= index < Z.of_nat (length (PPT.slides st))) ->
  goToSlide index st = st.
Proof.
  intros Hout. unfold goToSlide.
  destruct (Z.leb_spec 0 index); destruct (Z.ltb_spec index (Z.of_nat (length (PPT.slides st))));
    cbn [andb]; try reflexivity.
  exfalso. apply Hout. lia.
Qed.

(** X13.  In the presentation the slide on show always exists: if the
    index is a valid position of the slide list (and the slides that pending
    timers will show are), it still is after any key press, click on a
    thumbnail, play or stop click, end of an audio and firing of a timer.  A
    key changes nothing but the index, which becomes the neighbour, the first
    or the last slide, never one outside the deck and never the other end:
    at the first slide the way back does nothing, at the last slide the way
    forward does nothing, and a move to a position outside the deck does
    nothing. *)
Theorem X13_the_slide_on_show_exists (st : PPT.State) :
  shows_a_slide st ->
  (forall a, shows_a_slide (act a st)) /\
  (forall key,
     handleKeyDown key st
     = PPT.setCurrentSlideIndex
         match key with
         | ArrowLeft | ArrowUp => Z.max 0 (PPT.currentSlideIndex st - 1)
         | ArrowRight | ArrowDown | Space =>
             Z.min (Z.of_nat (length (PPT.slides st)) - 1)
                   (PPT.currentSlideIndex st + 1)
         | Home => 0
         | End_ => Z.of_nat (length (PPT.slides st)) - 1
         | Escape | other_key => PPT.currentSlideIndex st
         end st) /\
  (PPT.currentSlideIndex st = 0 -> goToPrevSlide st = st) /\
  (PPT.currentSlideIndex st = Z.of_nat (length (PPT.slides st)) - 1 ->
   goToNextSlide st = st) /\
  (forall index,
     ~ (0 <= index < Z.of_nat (length (PPT.slides st))) ->
     goToSlide index st = st).
Proof.
  intros H. split; [|split; [|split; [|split]]].
  - intros a. destruct a as [key|index|ok| | |ok]; cbn [act].
    + destruct key; cbn [handleKeyDown]; try exact H;
        unfold goToPrevSlide, goToNextSlide; apply shows_goToSlide, H.
    + apply shows_goToSlide, H.
    + apply shows_playCurrentSlideAudio, H.
    + apply shows_stopAudio, H.
    + apply shows_handleAudioEnded, H.
    + apply shows_timer, H.
  - intros key. apply key_moves_within_the_deck. apply H.
  - intros Hfirst. unfold goToPrevSlide. apply goToSlide_outside. lia.
  - intros Hlast. unfold goToNextSlide. apply goToSlide_outside. lia.
  - intros index. apply goToSlide_outside.
Qed.

Lemma X13_next_at_the_last_slide :
  let shown := act (timer_fires true)
                 (act audio_ended PPT.second_of_three_played) in
  shows_a_slide shown /\
  PPT.currentSlideIndex shown = 2 /\
  goToNextSlide shown = shown /\
  handleKeyDown ArrowRight shown = PPT.setCurrentSlideIndex 2 shown.
Proof.
  assert (Hstart : shows_a_slide PPT.second_of_three_played)
    by (split; [cbn; lia | constructor]).
  pose proof (proj1 (X13_the_slide_on_show_exists _ Hstart) audio_ended) as H1.
  pose proof (proj1 (X13_the_slide_on_show_exists _ H1) (timer_fires true)) as H2.
  destruct (X13_the_slide_on_show_exists _ H2) as (_ & Hkey & _ & Hnext & _).
  cbv zeta. split; [exact H2|]. split; [reflexivity|].
  split; [apply Hnext; reflexivity|]. exact (Hkey ArrowRight).
Defined.

End SlideOnShow.

(** ** Telling a presentation by its name *)

Section FileNames.

Import Files.

Lemma is_dot_lower (c : ascii) : is_dot (lower c) = is_dot c.
Proof. destruct c as [[] [] [] [] [] [] [] []]; reflexivity. Qed.

Lemma has_dot_toLowerCase (s : string) : has_dot (toLowerCase s) = has_dot s.
Proof.
  induction s as [|c s IH]; [reflexivity|]. cbn [toLowerCase has_dot].
  rewrite is_dot_lower, IH. reflexivity.
Qed.

Lemma toLowerCase_append (a b : string) :
  toLowerCase (String.append a b)
  = String.append (toLowerCase a) (toLowerCase b).
Proof. induction a as [|c a IH]; cbn; [reflexivity | rewrite IH; reflexivity]. Qed.

Lemma split_dot_no_dot (s : string) : has_dot s = false -> split_dot s = [s].
Proof.
  induction s as [|c s IH]; cbn; [reflexivity|].
  destruct (is_dot c); [discriminate|]. cbn. intros H. rewrite (IH H). reflexivity.
Qed.

(** After a dot, what has no dot is the last piece, and not the only one. *)
Lemma split_dot_extension (base ext : string) :
  has_dot ext = false ->
  exists first more,
    split_dot (String.append base (String "."%char ext))
    = (first :: more) ++ [ext].
Proof.
  intros Hext. induction base as [|c base (first & more & IH)]; cbn.
  - rewrite (split_dot_no_dot _ Hext). exists EmptyString, []. reflexivity.
  - rewrite IH. destruct (is_dot c).
    + exists EmptyString, (first :: more). reflexivity.
    + exists (String c first), more. reflexivity.
Qed.

(** X14.  Whether a file counts as a presentation depends only on what
    follows its last dot, whatever the case of the letters: that must be
    [ppt] or [pptx].  A name without any dot is taken as its own extension. *)
Theorem X14_only_the_last_extension_counts (base ext : string) :
  has_dot ext = false ->
  isPPTFile (String.append base (String "."%char ext))
    = (String.eqb (toLowerCase ext) "ppt" || String.eqb (toLowerCase ext) "pptx")
  /\ isPPTFile ext
    = (String.eqb (toLowerCase ext) "ppt" || String.eqb (toLowerCase ext) "pptx").
Proof.
  intros Hext. unfold isPPTFile.
  assert (Hlow : has_dot (toLowerCase ext) = false)
    by (rewrite has_dot_toLowerCase; exact Hext).
  split.
  - rewrite toLowerCase_append. cbn [toLowerCase].
    change (lower "."%char) with "."%char.
    destruct (split_dot_extension (toLowerCase base) _ Hlow)
      as (first & more & ->).
    rewrite last_snoc. reflexivity.
  - rewrite (split_dot_no_dot _ Hlow). reflexivity.
Qed.

Lemma X14_names :
  isPPTFile "Deck.v2.PPTX" = true /\ isPPTFile "deck.pptx.bak" = false /\
  isPPTFile "PPT" = true.
Proof.
  destruct (X14_only_the_last_extension_counts "Deck.v2" "PPTX" eq_refl)
    as [H1 _].
  destruct (X14_only_the_last_extension_counts "deck.pptx" "bak" eq_refl)
    as [H2 _].
  destruct (X14_only_the_last_extension_counts "" "PPT" eq_refl) as [_ H3].
  split; [exact H1|]. split; [exact H2 | exact H3].
Defined.

End FileNames.

(** ** Loading a presentation *)

Section LoadingSlides.

Import Loading.

Lemma setupSlideData_inr text_content imageExists slideData requireImages v v' :
  setupSlideData text_content imageExists slideData requireImages v = inr v' ->
  exists first rest,
    Slide.slides slideData = Some (first :: rest) /\
    v' = with_page (show (imap (processed text_content) (first :: rest))) v.
Proof.
  unfold setupSlideData.
  destruct (Slide.slides slideData) as [[|first rest]|]; try discriminate.
  destruct (requireImages && _); [discriminate|].
  intros [= <-]. eauto.
Qed.

Lemma setupSlideData_text text_content imageExists slideData first rest v :
  Slide.slides slideData = Some (first :: rest) ->
  setupSlideData text_content imageExists slideData false v
  = inr (with_page (show (imap (processed text_content) (first :: rest))) v).
Proof. unfold setupSlideData. intros ->. reflexivity. Qed.

Lemma loaded_show text_content first rest v :
  loaded (with_page (show (imap (processed text_content) (first :: rest))) v).
Proof. split; [discriminate | reflexivity]. Qed.

Lemma loaded_frame v v' :
  PPT.slides (page v') = PPT.slides (page v) ->
  PPT.currentSlideIndex (page v') = PPT.currentSlideIndex (page v) ->
  loaded v -> loaded v'.
Proof. unfold loaded. intros -> ->. auto. Qed.

Lemma waitForPPTConversion_inr text_content net v v' :
  waitForPPTConversion text_content net v = inr v' ->
  loaded v' /\ error v' = error v.
Proof.
  unfold waitForPPTConversion.
  destruct (conversion net) as [documentData|message]; [|discriminate].
  destruct (setupSlideData _ _ _ _ _) as [message|v1] eqn:Hsetup; [discriminate|].
  intros [= <-]. apply setupSlideData_inr in Hsetup as (first & rest & _ & ->).
  split; [apply loaded_show | reflexivity].
Qed.

Lemma waitForPPTConversion_inl text_content net v message v' :
  waitForPPTConversion text_content net v = inl (message, v') ->
  page v' = page v /\ error v' = error v.
Proof.
  unfold waitForPPTConversion.
  destruct (conversion net) as [documentData|m].
  - destruct (setupSlideData _ _ _ _ _) as [m|v1]; [|discriminate].
    intros [= _ <-]. split; reflexivity.
  - intros [= _ <-]. split; reflexivity.
Qed.

Lemma with_images_inr text_content net v v' :
  with_images text_content net v = inr v' -> loaded v' /\ error v' = error v.
Proof.
  unfold with_images.
  destruct (first_slides net) as [slideData|]; [|discriminate].
  destruct (Slide.slides slideData) as [[|first rest]|];
    try apply waitForPPTConversion_inr.
  destruct (checkSlidesImages _ _); [|apply waitForPPTConversion_inr].
  destruct (setupSlideData _ _ _ _ _) as [m|v1] eqn:Hsetup; [discriminate|].
  intros [= <-]. apply setupSlideData_inr in Hsetup as (f & r & _ & ->).
  split; [apply loaded_show | reflexivity].
Qed.

Lemma with_images_inl text_content net v message v' :
  with_images text_content net v = inl (message, v') ->
  page v' = page v /\ error v' = error v.
Proof.
  unfold with_images.
  destruct (first_slides net) as [slideData|];
    [|intros [= _ <-]; split; reflexivity].
  destruct (Slide.slides slideData) as [[|first rest]|];
    try apply waitForPPTConversion_inl.
  destruct (checkSlidesImages _ _); [|apply waitForPPTConversion_inl].
  destruct (setupSlideData _ _ _ _ _) as [m|v1]; [|discriminate].
  intros [= _ <-]. split; reflexivity.
Qed.

Lemma text_only_spec text_content net v :
  match text_only text_content net v with
  | inr v' =>
      loaded v' /\ error v' = error v /\
      exists slideData first rest,
        fallback_slides net = Some slideData /\
        Slide.slides slideData = Some (first :: rest) /\
        PPT.slides (page v') = imap (processed text_content) (first :: rest)
  | inl (message, v') =>
      message = "无法获取文档内容" /\ PPT.slides (page v') = PPT.slides (page v) /\
      forall slideData first rest,
        fallback_slides net = Some slideData ->
        Slide.slides slideData <> Some (first :: rest)
  end.
Proof.
  unfold text_only.
  destruct (fallback_slides net) as [slideData|].
  - destruct (setupSlideData _ _ _ _ _) as [m|v1] eqn:Hsetup.
    + split; [reflexivity|]. split; [reflexivity|].
      intros sd first rest [= <-] Hslides.
      rewrite (setupSlideData_text _ _ _ first rest _ Hslides) in Hsetup.
      discriminate.
    + apply setupSlideData_inr in Hsetup as (first & rest & Hslides & ->).
      split; [split; [discriminate | reflexivity]|].
      split; [reflexivity|]. exists slideData, first, rest. auto.
  - split; [reflexivity|]. split; [reflexivity|]. discriminate.
Qed.

(** X15.  [loadDocument] always ends with [loading] and [isConverting]
    false.  A file that is not a presentation gives the error that the format
    is not supported and leaves the slides alone.  For a presentation, the
    only error it can end with is that the content cannot be fetched, and
    that only if the fallback request fails or brings no slide: whenever the
    fallback brings slides the document loads, with images or as text, also
    after a conversion that timed out.  And whenever it ends without error,
    there are slides and the first one is on show. *)
Theorem X15_loadDocument_settles text_content filename net v :
  let v' := loadDocument text_content filename net v in
  loading v' = false /\ isConverting v' = false /\
  (error v' = None -> loaded v') /\
  (Files.isPPTFile filename = false ->
   error v' = Some "不支持的文件格式" /\
   PPT.slides (page v') = PPT.slides (page v)) /\
  (Files.isPPTFile filename = true ->
   (error v' = None \/ error v' = Some "无法获取文档内容") /\
   forall slideData first rest,
     fallback_slides net = Some slideData ->
     Slide.slides slideData = Some (first :: rest) ->
     error v' = None).
Proof.
  cbv zeta. unfold loadDocument.
  set (v0 := setError None (setLoading true v)).
  destruct (Files.isPPTFile filename).
  - destruct (with_images text_content net v0) as [[m va]|va] eqn:Hwi.
    + apply with_images_inl in Hwi as [Hpage Herr].
      pose proof (text_only_spec text_content net va) as Hto.
      destruct (text_only text_content net va) as [[m' vb]|vb].
      * destruct Hto as (-> & _ & Hnone). cbn.
        repeat apply conj; try reflexivity; try discriminate; auto.
        intros _. split; [auto|]. intros sd first rest Hf Hs.
        destruct (Hnone sd first rest Hf Hs).
      * destruct Hto as (Hloaded & Herr' & _). cbn.
        rewrite Herr', Herr. cbn.
        repeat apply conj; try reflexivity; try discriminate; auto.
    + apply with_images_inr in Hwi as [Hloaded Herr]. cbn. rewrite Herr. cbn.
      repeat apply conj; try reflexivity; try discriminate; auto.
  - cbn. repeat apply conj; try reflexivity; try discriminate.
    intros _. split; reflexivity.
Qed.

Lemma X15_timeout_then_text :
  let v' := loadDocument (fun _ => None) "talk.pptx"
              {| first_slides := Some (deck []);
                 exists_at_check := fun _ => false;
                 exists_at_setup := fun _ => false;
                 conversion := Slide.rejected Slide.timeout_message;
                 fallback_slides := Some (deck [raw_slide "a" None]) |}
              empty_view in
  error v' = None /\ loading v' = false /\
  map PPT.slide_id (PPT.slides (page v')) = ["slide-1"].
Proof.
  destruct (X15_loadDocument_settles (fun _ => None) "talk.pptx"
              {| first_slides := Some (deck []);
                 exists_at_check := fun _ => false;
                 exists_at_setup := fun _ => false;
                 conversion := Slide.rejected Slide.timeout_message;
                 fallback_slides := Some (deck [raw_slide "a" None]) |}
              empty_view) as (Hloading & _ & _ & _ & Hppt).
  destruct (Hppt eq_refl) as [_ Hfallback].
  cbv zeta. split; [exact (Hfallback _ _ _ eq_refl eq_refl)|].
  split; [exact Hloading | vm_compute; reflexivity].
Defined.

Lemma setupSlideData_no_image text_content imageExists slideData first rest v :
  Slide.slides slideData = Some (first :: rest) ->
  Progress.has_image imageExists first = false ->
  setupSlideData text_content imageExists slideData true v
  = inl "幻灯片图片未准备就绪".
Proof. unfold setupSlideData. intros -> ->. reflexivity. Qed.

(** X16.  The check before loading looks for an image among the first three
    slides, the set-up insists on the image of the first.  So when the first
    slide has no image yet but the second or third has, the conversion is not
    waited for: the document is shown as text, from the fallback request,
    with the warning, and without error. *)
Theorem X16_image_on_a_later_slide_gives_text
  text_content filename net v slideData first rest fallback x l :
  Files.isPPTFile filename = true ->
  first_slides net = Some slideData ->
  Slide.slides slideData = Some (first :: rest) ->
  checkSlidesImages (exists_at_check net) (Some (first :: rest)) = true ->
  Progress.has_image (exists_at_setup net) first = false ->
  fallback_slides net = Some fallback ->
  Slide.slides fallback = Some (x :: l) ->
  let v' := loadDocument text_content filename net v in
  error v' = None /\
  conversionStatus v' = conversionStatus v /\
  PPT.slides (page v') = imap (processed text_content) (x :: l) /\
  last (PPT.notes (page v')) = Some (TTS.message_warning "text only").
Proof.
  intros Hppt Hfirst Hslides Hcheck Himage Hfallback Hfs. cbv zeta.
  unfold loadDocument. rewrite Hppt. unfold with_images.
  rewrite Hfirst, Hslides, Hcheck.
  rewrite (setupSlideData_no_image _ _ _ first rest _ Hslides Himage).
  unfold text_only. rewrite Hfallback.
  rewrite (setupSlideData_text _ _ _ x l _ Hfs). cbn.
  repeat apply conj; try reflexivity. apply last_snoc.
Qed.

Lemma X16_second_image_only :
  let v' := loadDocument (fun _ => None) "talk.pptx" second_image_only
              empty_view in
  error v' = None /\
  map PPT.title (PPT.slides (page v')) = ["a"; "b"] /\
  conversionStatus v' = EmptyString.
Proof.
  destruct (X16_image_on_a_later_slide_gives_text (fun _ => None) "talk.pptx"
              second_image_only empty_view
              (deck [raw_slide "a" None; raw_slide "b" (Some "/img/2.png")])
              (raw_slide "a" None) [raw_slide "b" (Some "/img/2.png")]
              (deck [raw_slide "a" None; raw_slide "b" (Some "/img/2.png")])
              (raw_slide "a" None) [raw_slide "b" (Some "/img/2.png")]
              eq_refl eq_refl eq_refl eq_refl eq_refl eq_refl eq_refl)
    as (Herror & Hstatus & Hslides & _).
  cbv zeta. split; [exact Herror|].
  split; [rewrite Hslides; reflexivity | exact Hstatus].
Defined.

End LoadingSlides.

(** ** Progress of the conversion *)

Section ConversionProgress.

Import Progress.

Lemma count_images_all imageExists (slides : list Slide.SlideInfo) :
  forall acc,
    acc <= count_images imageExists slides acc <= acc + Z.of_nat (length slides) /\
    (count_images imageExists slides acc = acc + Z.of_nat (length slides)
     <-> forallb (has_image imageExists) slides = true).
Proof.
  induction slides as [|slide rest IH]; intros acc; cbn [count_images forallb length].
  - split; [lia|]. split; [reflexivity | intros _; lia].
  - destruct (has_image imageExists slide); cbn [andb].
    + destruct (IH (acc + 1)) as [Hb Hiff]. split; [lia|].
      rewrite <- Hiff. lia.
    + destruct (IH acc) as [Hb _]. split; [lia|].
      split; [lia | discriminate].
Qed.

(** X17.  [getPPTConversionProgress] reports completion exactly when the
    request succeeded, there is at least one slide, and every slide has an
    image address that [checkImageExists] confirms; a failed request or an
    empty deck is never complete.  When it reports completion, a turn of
    [waitForPPTConversion] that gets the same answers resolves at once. *)
Theorem X17_complete_means_every_slide_has_its_image
  percent response imageExists :
  (completed (getPPTConversionProgress percent response imageExists) = true
   <-> exists slideData first rest,
         response = inr slideData /\
         Slide.slides slideData = Some (first :: rest) /\
         forallb (has_image imageExists) (first :: rest) = true) /\
  (forall slideData world fuel n now t0 maxWaitTime,
     completed (getPPTConversionProgress percent (inr slideData) imageExists)
       = true ->
     now - t0 < maxWaitTime ->
     Slide.slides_response (world n) = Some slideData ->
     (forall url, Slide.imageExists (world n) url = imageExists url) ->
     Slide.wait_loop world (S fuel) n now t0 maxWaitTime
     = Some (Slide.resolved slideData,
             now + Slide.slides_took (world n) + Slide.image_took (world n))).
Proof.
  assert (Hiff : forall response,
    completed (getPPTConversionProgress percent response imageExists) = true
    <-> exists slideData first rest,
          response = inr slideData /\
          Slide.slides slideData = Some (first :: rest) /\
          forallb (has_image imageExists) (first :: rest) = true).
  { intros resp. unfold getPPTConversionProgress.
    destruct resp as [message|slideData].
    - split; [discriminate | intros (sd & f & r & H & _); discriminate].
    - destruct (Slide.slides slideData) as [[|first rest]|] eqn:Hs.
      + split; [discriminate|].
        intros (sd & f & r & [= <-] & H & _). rewrite Hs in H. discriminate.
      + cbn [completed].
        destruct (count_images_all imageExists (first :: rest) 0) as [_ Hall].
        rewrite Z.eqb_eq, Z.add_0_l in *. rewrite Hall. split.
        * intros H. exists slideData, first, rest. auto.
        * intros (sd & f & r & [= <-] & H & Hf). rewrite Hs in H.
          injection H as <- <-. exact Hf.
      + split; [discriminate|].
        intros (sd & f & r & [= <-] & H & _). rewrite Hs in H. discriminate. }
  split; [apply Hiff|].
  intros slideData world fuel n now t0 maxWaitTime Hdone Hnow Hresp Hsame.
  apply Hiff in Hdone as (sd & first & rest & [= <-] & Hslides & Hall).
  cbn [forallb] in Hall. apply andb_true_iff in Hall as [Hfirst _].
  unfold has_image in Hfirst.
  destruct (TTS.truthy (Slide.image_url first)) as [url|] eqn:Hurl;
    [|discriminate].
  cbn [Slide.wait_loop]. apply Z.ltb_lt in Hnow.
  rewrite Hnow, Hresp, Hslides, Hurl, Hsame, Hfirst. reflexivity.
Qed.

End ConversionProgress.

Section ConversionResolved.

Import Slide.

Lemma wait_loop_resolved world t0 maxWaitTime (fuel : nat) :
  forall n now slideData t,
    wait_loop world fuel n now t0 maxWaitTime = Some (resolved slideData, t) ->
    exists (m : nat) first rest url,
      (n <= m)%nat /\
      slides_response (world m) = Some slideData /\
      slides slideData = Some (first :: rest) /\
      TTS.truthy (image_url first) = Some url /\
      imageExists (world m) url = true /\
      t - slides_took (world m) - image_took (world m) - t0 < maxWaitTime.
Proof.
  induction fuel as [|fuel IH]; intros n now slideData t; cbn [wait_loop];
    [discriminate|].
  destruct (now - t0 <? maxWaitTime) eqn:Htest; [|discriminate].
  apply Z.ltb_lt in Htest.
  assert (Hnext : forall later,
            wait_loop world fuel (S n) later t0 maxWaitTime
              = Some (resolved slideData, t) ->
            exists (m : nat) first rest url,
              (n <= m)%nat /\
              slides_response (world m) = Some slideData /\
              slides slideData = Some (first :: rest) /\
              TTS.truthy (image_url first) = Some url /\
              imageExists (world m) url = true /\
              t - slides_took (world m) - image_took (world m) - t0 < maxWaitTime).
  { intros later H. destruct (IH _ _ _ _ H) as (m & f & r & u & Hm & Hrest).
    exists m, f, r, u. split; [lia | exact Hrest]. }
  destruct (slides_response (world n)) as [sd|] eqn:Hresp; [|apply Hnext].
  destruct (slides sd) as [[|first rest]|] eqn:Hslides; try apply Hnext.
  destruct (TTS.truthy (image_url first)) as [url|] eqn:Hurl; [|apply Hnext].
  destruct (imageExists (world n) url) eqn:Hok; [|apply Hnext].
  intros [= <- <-]. exists n, first, rest, url.
  repeat apply conj; auto. lia.
Qed.

(** X18.  [waitForPPTConversion] resolves only with slide data that one of
    its own requests returned, that has a first slide with an image address,
    and for which [checkImageExists] said yes in that same turn; and that
    turn began before the deadline, though it may end after it. *)
Theorem X18_resolved_means_first_image_was_there
  world fuel maxWaitTime t0 slideData t :
  waitForPPTConversion world fuel maxWaitTime t0 = Some (resolved slideData, t) ->
  exists (m : nat) first rest url,
    slides_response (world m) = Some slideData /\
    slides slideData = Some (first :: rest) /\
    TTS.truthy (image_url first) = Some url /\
    imageExists (world m) url = true /\
    t - slides_took (world m) - image_took (world m) - t0 < maxWaitTime.
Proof.
  intros H. apply wait_loop_resolved in H as (m & f & r & u & _ & Hrest).
  exists m, f, r, u. exact Hrest.
Qed.

End ConversionResolved.

Section ConversionExamples.

Lemma X18_resolved_at_the_third_turn :
  Slide.waitForPPTConversion Loading.ready_at_third_turn
    (Slide.enough 120000) 120000 0
  = Some (Slide.resolved (Loading.deck [Loading.raw_slide "a" (Some "/img/1.png")]),
          6045)
  /\ exists (m : nat) first rest url,
       Slide.slides_response (Loading.ready_at_third_turn m)
         = Some (Loading.deck [Loading.raw_slide "a" (Some "/img/1.png")]) /\
       Slide.slides (Loading.deck [Loading.raw_slide "a" (Some "/img/1.png")])
         = Some (first :: rest) /\
       TTS.truthy (Slide.image_url first) = Some url /\
       Slide.imageExists (Loading.ready_at_third_turn m) url = true /\
       6045 - Slide.slides_took (Loading.ready_at_third_turn m)
         - Slide.image_took (Loading.ready_at_third_turn m) - 0 < 120000.
Proof.
  assert (Hrun : Slide.waitForPPTConversion Loading.ready_at_third_turn
                   (Slide.enough 120000) 120000 0
                 = Some (Slide.resolved
                           (Loading.deck [Loading.raw_slide "a" (Some "/img/1.png")]),
                         6045))
    by (vm_compute; reflexivity).
  split; [exact Hrun|].
  exact (X18_resolved_means_first_image_was_there _ _ _ _ _ _ Hrun).
Defined.

Lemma X17_complete_then_resolved :
  Slide.wait_loop Loading.ready_at_third_turn 1 2 6030 0 120000
  = Some (Slide.resolved (Loading.deck [Loading.raw_slide "a" (Some "/img/1.png")]),
          6045).
Proof.
  destruct (X17_complete_means_every_slide_has_its_image
              (fun c t => 100 * c / t)
              (inr (Loading.deck [Loading.raw_slide "a" (Some "/img/1.png")]))
              (fun _ => true)) as [_ Hwait].
  apply (Hwait (Loading.deck [Loading.raw_slide "a" (Some "/img/1.png")])
           Loading.ready_at_third_turn 0%nat 2%nat 6030 0 120000).
  - vm_compute. reflexivity.
  - lia.
  - reflexivity.
  - intros url. reflexivity.
Defined.

End ConversionExamples.

(** ** A payload that does not decode *)

Section Payloads.

Import TTS Controls.

(** X19.  What [atob] makes of a payload decides both paths.  If it
    decodes, [createAudioUrlFromBase64] adds one blob, named by the URL it
    returns, typed [audio/mpeg] for format [mp3] and [audio/wav] for any
    other, and that blob holds the very bytes the page plays after the same
    payload has arrived as the first chunk of a result.  If it does not
    decode, [createAudioUrlFromBase64] throws, whereas the page's stream
    handler swallows the failure: the chunk is dropped and results, media
    elements and blobs stay as they are. *)
Theorem X19_undecodable_payload_throws_or_is_dropped
  (payload format : string) (store : list Blob) r ok sequence rid st :
  let st' := handleStreamEvent r ok (chunk_event sequence payload) rid st in
  match Base64.atob payload with
  | Some bytes =>
      createAudioUrlFromBase64 payload format store
      = Some (BlobUrl (length store),
              store ++ [{| blob_bytes := bytes;
                           blob_type := if String.eqb format "mp3"
                                        then "audio/mpeg" else "audio/wav" |}]) /\
      (forall x,
         payload <> "" ->
         find_result rid (results st) = Some x ->
         buffer_of x = [] ->
         exists x',
           find_result rid (results st') = Some x' /\
           playable_bytes st' x' = Some bytes)
  | None =>
      createAudioUrlFromBase64 payload format store = None /\
      results st' = results st /\ audios st' = audios st /\
      blobs st' = blobs st
  end.
Proof.
  cbv zeta. unfold createAudioUrlFromBase64.
  destruct (Base64.atob payload) as [bytes|] eqn:Hatob.
  - rewrite (atob_bytes _ _ Hatob). split; [reflexivity|].
    intros x Hne Hfind Hbuf.
    assert (Ht : truthy (data (chunk_event sequence payload)) = Some payload).
    { cbn. destruct (String.eqb_spec payload ""); [contradiction | reflexivity]. }
    destruct (chunk_appended r ok (chunk_event sequence payload) rid st x
                payload bytes eq_refl Ht Hatob Hfind)
      as (x' & Hx' & _ & _ & _ & Hplay).
    exists x'. split; [exact Hx'|]. rewrite Hplay, Hbuf. reflexivity.
  - split; [reflexivity|]. unfold handleStreamEvent. cbn [type chunk_event data].
    destruct (truthy (Some payload)) as [p|] eqn:Ht.
    + apply truthy_Some in Ht. injection Ht as <-. rewrite Hatob.
      repeat apply conj; reflexivity.
    + repeat apply conj; reflexivity.
Qed.

Lemma X19_Hello_as_blob_and_as_first_chunk :
  createAudioUrlFromBase64 "SGVsbG8=" "mp3" []
  = Some (BlobUrl 0,
          [{| blob_bytes := [72; 101; 108; 108; 111]; blob_type := "audio/mpeg" |}])
  /\ exists x',
       find_result "r1"
         (results (handleStreamEvent wav true (chunk_event 1 "SGVsbG8=") "r1"
                     (fresh "r1"))) = Some x' /\
       playable_bytes
         (handleStreamEvent wav true (chunk_event 1 "SGVsbG8=") "r1" (fresh "r1"))
         x' = Some [72; 101; 108; 108; 111].
Proof.
  pose proof (X19_undecodable_payload_throws_or_is_dropped
                "SGVsbG8=" "mp3" [] wav true 1 "r1" (fresh "r1")) as H.
  cbv zeta in H.
  assert (Hatob : Base64.atob "SGVsbG8=" = Some [72; 101; 108; 108; 111])
    by (vm_compute; reflexivity).
  rewrite Hatob in H. destruct H as [Hurl Hpage].
  split; [exact Hurl|].
  apply (Hpage (newResult "r1" "hello world" "douyin" "v" "t")).
  - discriminate.
  - reflexivity.
  - reflexivity.
Defined.

End Payloads.
